(** * npio: reading and writing numpy [.npy] files

    A shallow embedding of [npio.h] (the C API of the header-only library
    and the C++ wrappers of its namespace [npio]) and the properties of
    its header parser, prelude codec, data transport, header serialiser
    and resource handling.

    Conventions of the embedding.

    - A raw byte of memory or of a file is an [ascii]; a buffer is a
      [list ascii].  The value a C expression of type [char] takes when it
      is read is [char_val], which depends on whether plain [char] is signed
      on the target (it is on x86 and x86-64, it is not on ARM Linux).
    - [size_t] is 64 bits wide and [int] 32 bits wide (LP64); a [size_t]
      value is a [Z] reduced modulo [2^64] at every operation that can wrap.
    - A cursor [p] together with its bound [end] is the list of the bytes in
      [[p, end)]: every read of the parser is at [p], every bounds check is
      against [end], and [p] only moves forward.
    - A C function returning an error code and mutating [npio_Array* array]
      returns the pair of the code and the new struct.
    - [Undef] is the result of an execution whose behaviour C leaves
      undefined (out-of-bounds access, null dereference, signed overflow).
    - Pointers are addresses of one flat address space, in which the stack
      lies above the heap, as on the Linux targets the library is written
      for: two pointers into different objects compare by their addresses.
    - [malloc] and [realloc] may refuse a request; which requests are
      granted is given by a [Heap].  The functions take the heap as an
      implicit argument, and a statement that names no heap is about
      [ample], the heap that grants every request.
    - [Timeout] is the result of a loop of the embedding that has used up
      its fuel; the fuel the parser gives its loops is shown to suffice on
      every input. *)

From Stdlib Require Import ZArith List Ascii String Bool Lia.
Import ListNotations.
Local Open Scope Z_scope.

(** ** Error codes of [<errno.h>] (Linux values) *)

Definition EBADF : Z := 9.
Definition ENOMEM : Z := 12.
Definition ENODEV : Z := 19.
Definition EINVAL : Z := 22.
Definition ESPIPE : Z := 29.
Definition ERANGE : Z := 34.
Definition ENOTSUP : Z := 95.

Definition NPIO_DEFAULT_MAX_DIM : Z := 32.

(** ** Results of C executions *)

Inductive outcome (A : Type) : Type :=
| Ret (a : A)
| Undef
| Timeout.
Arguments Ret {A} a.
Arguments Undef {A}.
Arguments Timeout {A}.

Definition bind {A B : Type} (m : outcome A) (k : A -> outcome B) : outcome B :=
  match m with
  | Ret a => k a
  | Undef => Undef
  | Timeout => Timeout
  end.

Notation "x <- m ;; k" := (bind m (fun x => k))
  (at level 61, m at next level, right associativity).
Notation "' pat <- m ;; k" := (bind m (fun x => match x with pat => k end))
  (at level 61, pat pattern, m at next level, right associativity).

(** ** Machine integers *)

Definition size_max : Z := 2 ^ 64.
Definition to_size_t (z : Z) : Z := z mod size_max.

(** [(ssize_t) sz]: the same 64 bits read as a signed number. *)
Definition to_ssize_t (z : Z) : Z :=
  let u := z mod size_max in if u <? 2 ^ 63 then u else u - size_max.

Definition int_min : Z := - 2 ^ 31.
Definition int_max : Z := 2 ^ 31 - 1.

(** An [int] computation: defined when the mathematical result is
    representable.  (The left shift of a negative value is taken as the
    multiplication by a power of two, as GCC and Clang define it.) *)
Definition int_ok (z : Z) : outcome Z :=
  if (int_min <=? z) && (z <=? int_max) then Ret z else Undef.

Definition int_shl (a k : Z) : outcome Z := int_ok (a * 2 ^ k).
Definition int_add (a b : Z) : outcome Z := int_ok (a + b).

(** ** Bytes and characters *)

Definition byte_val (c : ascii) : Z := Z.of_N (N_of_ascii c).
Definition byte_of (z : Z) : ascii := ascii_of_N (Z.to_N (z mod 256)).

Definition chars (s : string) : list ascii := list_ascii_of_string s.

(** The double quote character. *)
Definition dquote : ascii := ascii_of_nat 34.

(** [p + n < end] *)
Definition room (n : nat) (l : list ascii) : bool := (n <? List.length l)%nat.

Definition list_eqb (a b : list ascii) : bool :=
  if list_eq_dec ascii_dec a b then true else false.

(** [memcmp(p, lit, strlen(lit)) == 0] *)
Definition memcmp_eq (lit : string) (l : list ascii) : bool :=
  list_eqb (firstn (String.length lit) l) (chars lit).

(** [isspace] in the "C" locale: space, and the controls [\t \n \v \f \r].
    For the negative values a signed [char] takes the answer is that of
    glibc, no. *)
Definition isspace (v : Z) : bool :=
  (v =? 32) || ((9 <=? v) && (v <=? 13)).

(** ** The array descriptor *)

(** What [array->data] points to. *)
Inductive data_ptr : Type :=
| NullPtr
| BufPtr (off : Z)              (* [(char* ) array->_buf + off] *)
| OwnPtr (bytes : list ascii).  (* an object of its own: allocated by
                                   [npio_load_data2], or the caller's *)

Record npio_Array : Type := mkArray {
  major_version : Z;
  minor_version : Z;
  header_len : Z;
  dtype : option (list ascii);   (* NULL, or the characters before the NUL *)
  dim : nat;
  shape : list Z;                (* the words of the buffer [shape] points to *)
  size : Z;
  fortran_order : Z;
  little_endian : Z;
  floating_point : Z;
  is_signed : Z;
  bit_width : Z;
  data : data_ptr;
  _fd : Z;
  _buf : list ascii;             (* the bytes of the buffer [_buf] points to *)
  _buf_size : Z;
  _hdr_buf : option (list ascii);
  _shape_capacity : nat;
  _mmapped : Z;
  _malloced : Z;
  _opened : Z
}.

Definition set_version (a : npio_Array) (major minor : Z) : npio_Array :=
  mkArray major minor (header_len a) (dtype a) (dim a) (shape a) (size a)
    (fortran_order a) (little_endian a) (floating_point a) (is_signed a)
    (bit_width a) (data a) (_fd a) (_buf a) (_buf_size a) (_hdr_buf a)
    (_shape_capacity a) (_mmapped a) (_malloced a) (_opened a).

Definition set_header_len (a : npio_Array) (v : Z) : npio_Array :=
  mkArray (major_version a) (minor_version a) v (dtype a) (dim a) (shape a)
    (size a) (fortran_order a) (little_endian a) (floating_point a)
    (is_signed a) (bit_width a) (data a) (_fd a) (_buf a) (_buf_size a)
    (_hdr_buf a) (_shape_capacity a) (_mmapped a) (_malloced a) (_opened a).

Definition set_dtype (a : npio_Array) (v : option (list ascii)) : npio_Array :=
  mkArray (major_version a) (minor_version a) (header_len a) v (dim a)
    (shape a) (size a) (fortran_order a) (little_endian a) (floating_point a)
    (is_signed a) (bit_width a) (data a) (_fd a) (_buf a) (_buf_size a)
    (_hdr_buf a) (_shape_capacity a) (_mmapped a) (_malloced a) (_opened a).

(** [dim], [shape] and [_shape_capacity] change together. *)
Definition set_shape (a : npio_Array) (d : nat) (s : list Z) (cap : nat)
  : npio_Array :=
  mkArray (major_version a) (minor_version a) (header_len a) (dtype a) d s
    (size a) (fortran_order a) (little_endian a) (floating_point a)
    (is_signed a) (bit_width a) (data a) (_fd a) (_buf a) (_buf_size a)
    (_hdr_buf a) cap (_mmapped a) (_malloced a) (_opened a).

Definition set_size (a : npio_Array) (v : Z) : npio_Array :=
  mkArray (major_version a) (minor_version a) (header_len a) (dtype a) (dim a)
    (shape a) v (fortran_order a) (little_endian a) (floating_point a)
    (is_signed a) (bit_width a) (data a) (_fd a) (_buf a) (_buf_size a)
    (_hdr_buf a) (_shape_capacity a) (_mmapped a) (_malloced a) (_opened a).

Definition set_fortran_order (a : npio_Array) (v : Z) : npio_Array :=
  mkArray (major_version a) (minor_version a) (header_len a) (dtype a) (dim a)
    (shape a) (size a) v (little_endian a) (floating_point a)
    (is_signed a) (bit_width a) (data a) (_fd a) (_buf a) (_buf_size a)
    (_hdr_buf a) (_shape_capacity a) (_mmapped a) (_malloced a) (_opened a).

Definition set_little_endian (a : npio_Array) (v : Z) : npio_Array :=
  mkArray (major_version a) (minor_version a) (header_len a) (dtype a) (dim a)
    (shape a) (size a) (fortran_order a) v (floating_point a)
    (is_signed a) (bit_width a) (data a) (_fd a) (_buf a) (_buf_size a)
    (_hdr_buf a) (_shape_capacity a) (_mmapped a) (_malloced a) (_opened a).

(** [is_signed] and [floating_point] are assigned together by the dtype
    parser. *)
Definition set_kind (a : npio_Array) (sgn fp : Z) : npio_Array :=
  mkArray (major_version a) (minor_version a) (header_len a) (dtype a) (dim a)
    (shape a) (size a) (fortran_order a) (little_endian a) fp
    sgn (bit_width a) (data a) (_fd a) (_buf a) (_buf_size a)
    (_hdr_buf a) (_shape_capacity a) (_mmapped a) (_malloced a) (_opened a).

Definition set_bit_width (a : npio_Array) (v : Z) : npio_Array :=
  mkArray (major_version a) (minor_version a) (header_len a) (dtype a) (dim a)
    (shape a) (size a) (fortran_order a) (little_endian a) (floating_point a)
    (is_signed a) v (data a) (_fd a) (_buf a) (_buf_size a)
    (_hdr_buf a) (_shape_capacity a) (_mmapped a) (_malloced a) (_opened a).

Definition set_data (a : npio_Array) (v : data_ptr) : npio_Array :=
  mkArray (major_version a) (minor_version a) (header_len a) (dtype a) (dim a)
    (shape a) (size a) (fortran_order a) (little_endian a) (floating_point a)
    (is_signed a) (bit_width a) v (_fd a) (_buf a) (_buf_size a)
    (_hdr_buf a) (_shape_capacity a) (_mmapped a) (_malloced a) (_opened a).

Definition set_fd (a : npio_Array) (v : Z) : npio_Array :=
  mkArray (major_version a) (minor_version a) (header_len a) (dtype a) (dim a)
    (shape a) (size a) (fortran_order a) (little_endian a) (floating_point a)
    (is_signed a) (bit_width a) (data a) v (_buf a) (_buf_size a)
    (_hdr_buf a) (_shape_capacity a) (_mmapped a) (_malloced a) (_opened a).

Definition set_buf (a : npio_Array) (b : list ascii) (sz : Z) : npio_Array :=
  mkArray (major_version a) (minor_version a) (header_len a) (dtype a) (dim a)
    (shape a) (size a) (fortran_order a) (little_endian a) (floating_point a)
    (is_signed a) (bit_width a) (data a) (_fd a) b sz
    (_hdr_buf a) (_shape_capacity a) (_mmapped a) (_malloced a) (_opened a).

Definition set_hdr_buf (a : npio_Array) (v : option (list ascii)) : npio_Array :=
  mkArray (major_version a) (minor_version a) (header_len a) (dtype a) (dim a)
    (shape a) (size a) (fortran_order a) (little_endian a) (floating_point a)
    (is_signed a) (bit_width a) (data a) (_fd a) (_buf a) (_buf_size a)
    v (_shape_capacity a) (_mmapped a) (_malloced a) (_opened a).

Definition set_mmapped (a : npio_Array) (v : Z) : npio_Array :=
  mkArray (major_version a) (minor_version a) (header_len a) (dtype a) (dim a)
    (shape a) (size a) (fortran_order a) (little_endian a) (floating_point a)
    (is_signed a) (bit_width a) (data a) (_fd a) (_buf a) (_buf_size a)
    (_hdr_buf a) (_shape_capacity a) v (_malloced a) (_opened a).

(** ** Element count *)

(** The loop of [npio_array_size]: [n *= array->shape[i]] for
    [i = i0 .. dim-1]. *)
Fixpoint array_size_loop (sh : list Z) (i : nat) (count : nat) (n : Z)
  : outcome Z :=
  match count with
  | O => Ret n
  | S count' =>
      match nth_error sh i with
      | None => Undef
      | Some d => array_size_loop sh (S i) count' (to_size_t (n * d))
      end
  end.

Definition npio_array_size (a : npio_Array) : outcome Z :=
  array_size_loop (shape a) 0 (dim a) 1.

Definition npio_array_memsize (a : npio_Array) : outcome Z :=
  n <- npio_array_size a ;;
  Ret (to_size_t (n * to_size_t (bit_width a)) / 8).

(** ** The operating system

    A model of the POSIX calls the library makes on a file descriptor:
    [read], [write], [lseek(fd, 0, SEEK_END)] and [mmap] of the whole file.
    A call that fails returns [-1] and sets [errno]; a call that succeeds,
    also one that transfers fewer bytes than asked, leaves [errno] as it
    was. *)

Inductive io_step : Type :=
| Transfer (max : nat)   (* the call transfers at most [max] bytes *)
| Fail (e : positive).   (* the call fails with [errno = e] *)

Record file : Type := mkFile {
  f_bytes : list ascii;       (* the bytes of the file or stream *)
  f_pos : nat;                (* the file offset *)
  f_seekable : bool;          (* [lseek] works *)
  f_mappable : bool;          (* [mmap] works *)
  f_script : list io_step     (* how the coming [read]/[write] calls behave;
                                 when empty they transfer all they can *)
}.

Record world : Type := mkWorld {
  errno : Z;
  fds : Z -> option file
}.

Definition set_errno (w : world) (e : Z) : world := mkWorld e (fds w).

Definition set_file (w : world) (fd : Z) (f : file) : world :=
  mkWorld (errno w) (fun k => if k =? fd then Some f else fds w k).

(** [read(fd, buf, n)]: the return value and the bytes stored in [buf]. *)
Definition sys_read (w : world) (fd : Z) (n : Z) : Z * list ascii * world :=
  match fds w fd with
  | None => (-1, [], set_errno w EBADF)
  | Some f =>
      match f_script f with
      | Fail e :: script =>
          (-1, [],
           set_file (set_errno w (Zpos e)) fd
             (mkFile (f_bytes f) (f_pos f) (f_seekable f) (f_mappable f) script))
      | script =>
          let cap :=
            match script with
            | Transfer m :: _ => Nat.min m (Z.to_nat n)
            | _ => Z.to_nat n
            end in
          let got := firstn cap (skipn (f_pos f) (f_bytes f)) in
          (Z.of_nat (List.length got), got,
           set_file w fd
             (mkFile (f_bytes f) (f_pos f + List.length got) (f_seekable f)
                (f_mappable f) (tl script)))
      end
  end.

(** [write(fd, buf, n)] with [bytes] the [n] bytes at [buf]. *)
Definition sys_write (w : world) (fd : Z) (bytes : list ascii) : Z * world :=
  match fds w fd with
  | None => (-1, set_errno w EBADF)
  | Some f =>
      match f_script f with
      | Fail e :: script =>
          (-1,
           set_file (set_errno w (Zpos e)) fd
             (mkFile (f_bytes f) (f_pos f) (f_seekable f) (f_mappable f) script))
      | script =>
          let put :=
            match script with
            | Transfer m :: _ => firstn m bytes
            | _ => bytes
            end in
          let k := List.length put in
          (Z.of_nat k,
           set_file w fd
             (mkFile
                (firstn (f_pos f) (f_bytes f)
                 ++ repeat zero (f_pos f - List.length (f_bytes f))
                 ++ put ++ skipn (f_pos f + k) (f_bytes f))
                (f_pos f + k) (f_seekable f) (f_mappable f) (tl script)))
      end
  end.

(** [lseek(fd, 0, SEEK_END)] *)
Definition sys_lseek_end (w : world) (fd : Z) : Z * world :=
  match fds w fd with
  | None => (-1, set_errno w EBADF)
  | Some f =>
      if f_seekable f then
        (Z.of_nat (List.length (f_bytes f)),
         set_file w fd
           (mkFile (f_bytes f) (List.length (f_bytes f)) (f_seekable f)
              (f_mappable f) (f_script f)))
      else (-1, set_errno w ESPIPE)
  end.

(** [mmap(0, len, PROT_READ | PROT_WRITE, MAP_PRIVATE, fd, 0)]: the mapped
    bytes, or [MAP_FAILED]. *)
Definition sys_mmap (w : world) (fd : Z) (len : Z)
  : option (list ascii) * world :=
  match fds w fd with
  | None => (None, set_errno w EBADF)
  | Some f =>
      if len <=? 0 then (None, set_errno w EINVAL)
      else if f_mappable f then (Some (firstn (Z.to_nat len) (f_bytes f)), w)
      else (None, set_errno w ENODEV)
  end.

(** ** The allocator

    The places where the library asks for memory, and a heap: whether it
    grants the request of [n] bytes made at a place.  A refused request
    returns the null pointer.  (The requests that one call of the tuple
    parser makes differ in place or size, so whatever an allocator
    answers during such a call is what some heap answers.) *)

Inductive alloc_site : Type :=
| shape_buffer     (* [malloc] of [npio_ph_parse_shape_] *)
| shape_growth     (* [realloc] of [npio_ph_shape_append_] *)
| dtype_string     (* [malloc] of [npio_ph_parse_dict_] *)
| header_buffer    (* [malloc] of [npio_load_header_fd_read_] *)
| payload_buffer.  (* [malloc] of [npio_load_data2] *)

Class Heap : Type := { grants : alloc_site -> Z -> bool }.

(** The heap that grants every request. *)
#[export] Instance ample : Heap := {| grants := fun _ _ => true |}.

Section Platform.

Context {heap : Heap}.

(** Whether plain [char] is signed on the target. *)
Variable char_signed : bool.

(** [__BYTE_ORDER__ == __ORDER_LITTLE_ENDIAN__] *)
Variable host_little_endian : bool.

(** The words found in freshly allocated memory: [malloc] and [realloc]
    do not initialise what they return. *)
Variable heap_junk : nat -> Z.

Definition char_val (c : ascii) : Z :=
  let b := byte_val c in
  if char_signed && (128 <=? b) then b - 256 else b.

(** ** The header parser *)

Fixpoint npio_ph_skip_spaces_ (l : list ascii) : list ascii :=
  match l with
  | c :: l' => if isspace (char_val c) then npio_ph_skip_spaces_ l' else l
  | [] => []
  end.

Definition fresh_words (from count : nat) : list Z :=
  map (fun i => to_size_t (heap_junk i)) (seq from count).

(** The bytes found in freshly allocated memory. *)
Definition fresh_bytes (from count : nat) : list ascii :=
  map (fun i => byte_of (heap_junk i)) (seq from count).

(** [array->shape[i] = val] *)
Fixpoint store_word (sh : list Z) (i : nat) (val : Z) : option (list Z) :=
  match sh, i with
  | _ :: sh', O => Some (val :: sh')
  | x :: sh', S i' =>
      match store_word sh' i' val with
      | Some r => Some (x :: r)
      | None => None
      end
  | [], _ => None
  end.

(** [array->shape[array->dim++] = val] *)
Definition shape_store (a : npio_Array) (val : Z) : outcome (Z * npio_Array) :=
  match store_word (shape a) (dim a) val with
  | Some sh => Ret (0, set_shape a (S (dim a)) sh (_shape_capacity a))
  | None => Undef
  end.

(** A [realloc] that is granted keeps the old words, and the new ones are
    uninitialised; one that is refused leaves the buffer as it is, after
    [_shape_capacity] has been doubled. *)
Definition npio_ph_shape_append_ (a : npio_Array) (val : Z)
  : outcome (Z * npio_Array) :=
  if Nat.eqb (dim a) (_shape_capacity a) then
    let cap := (_shape_capacity a * 2)%nat in
    if grants shape_growth (to_size_t (8 * Z.of_nat cap)) then
      shape_store
        (set_shape a (dim a)
           (firstn cap (shape a) ++
            fresh_words (List.length (shape a)) (cap - List.length (shape a)))
           cap)
        val
    else Ret (ENOMEM, set_shape a (dim a) (shape a) cap)
  else shape_store a val.

(** The scan [while (p < end && *p >= '0' && *p <= '9') ++p]: the digits
    between [nbeg] and [nend], and the text from [nend] on. *)
Fixpoint scan_digits (l : list ascii) : list ascii * list ascii :=
  match l with
  | c :: l' =>
      if (48 <=? char_val c) && (char_val c <=? 57)
      then let (ds, rest) := scan_digits l' in (c :: ds, rest)
      else ([], l)
  | [] => ([], [])
  end.

(** [while (nbeg < nend) val = ( *nbeg++ - '0') + val * 10] *)
Fixpoint digits_val (ds : list ascii) (val : Z) : Z :=
  match ds with
  | c :: ds' => digits_val ds' (to_size_t ((char_val c - 48) + val * 10))
  | [] => val
  end.

(** The [while (1)] loop of [npio_ph_parse_shape_]; the result carries
    [*where]. *)
Fixpoint parse_shape_loop (fuel : nat) (a : npio_Array) (p : list ascii)
  : outcome (Z * npio_Array * list ascii) :=
  match fuel with
  | O => Timeout
  | S fuel' =>
      let p := npio_ph_skip_spaces_ p in
      let (ds, p) := scan_digits p in
      match p with
      | [] => Ret (EINVAL, a, p)
      | _ =>
          '(err, a) <-
             match ds with
             | [] => Ret (0, a)
             | _ => npio_ph_shape_append_ a (digits_val ds 0)
             end ;;
          if negb (err =? 0) then Ret (err, a, p) else
          match npio_ph_skip_spaces_ p with
          | [] => Ret (EINVAL, a, [])
          | c :: p' =>
              if Ascii.eqb c ","%char then parse_shape_loop fuel' a p'
              else if Ascii.eqb c ")"%char then
                n <- npio_array_size a ;;
                Ret (0, set_size a n, p')
              else Ret (EINVAL, a, c :: p')
          end
      end
  end.

(** A refused [malloc] leaves [shape] null and [_shape_capacity] 8. *)
Definition npio_ph_parse_shape_ (a : npio_Array) (start : list ascii)
  : outcome (Z * npio_Array * list ascii) :=
  match start with
  | [] => Ret (EINVAL, a, start)
  | c :: p =>
      if negb (Ascii.eqb c "("%char) then Ret (EINVAL, a, start) else
      if negb (grants shape_buffer 64)
      then Ret (ENOMEM, set_shape a (dim a) [] 8, start) else
      let a := set_shape a (dim a) (fresh_words 0 8) 8 in
      parse_shape_loop (S (List.length p)) a p
  end.

(** [strlen]-view of a stored string: the characters before the first NUL. *)
Fixpoint c_string (l : list ascii) : list ascii :=
  match l with
  | c :: l' => if Ascii.eqb c zero then [] else c :: c_string l'
  | [] => []
  end.

(** The three [switch] statements of [npio_ph_parse_dtype_] assign the
    fields one after the other, so a failure at a later character leaves
    the earlier assignments in place. *)
Definition npio_ph_parse_dtype_ (a : npio_Array) : outcome (Z * npio_Array) :=
  match dtype a with
  | None => Undef
  | Some s =>
      match c_string s with
      | [c0; c1; c2] =>
          match
            (if Ascii.eqb c0 "<"%char then Some (set_little_endian a 1)
             else if Ascii.eqb c0 ">"%char then Some (set_little_endian a 0)
             else None)
          with
          | None => Ret (ENOTSUP, a)
          | Some a =>
              match
                (if Ascii.eqb c1 "i"%char then Some (set_kind a 1 0)
                 else if Ascii.eqb c1 "u"%char then Some (set_kind a 0 0)
                 else if Ascii.eqb c1 "f"%char then Some (set_kind a 1 1)
                 else None)
              with
              | None => Ret (ENOTSUP, a)
              | Some a =>
                  if Ascii.eqb c2 "1"%char then Ret (0, set_bit_width a 8)
                  else if Ascii.eqb c2 "2"%char then Ret (0, set_bit_width a 16)
                  else if Ascii.eqb c2 "4"%char then Ret (0, set_bit_width a 32)
                  else if Ascii.eqb c2 "8"%char then Ret (0, set_bit_width a 64)
                  else Ret (ENOTSUP, a)
              end
          end
      | _ => Ret (ENOTSUP, a)
      end
  end.

Definition npio_ph_is_quote_ (c : ascii) : bool :=
  Ascii.eqb c "'"%char || Ascii.eqb c dquote.

Inductive dict_key : Type := k_descr | k_shape | k_fortran_order.

(** [while (p < end && *p != open_quote) ++p]: the characters passed, and
    the text from the stop on. *)
Fixpoint scan_until (q : ascii) (l : list ascii) : list ascii * list ascii :=
  match l with
  | c :: l' =>
      if Ascii.eqb c q then ([], l)
      else let (s, rest) := scan_until q l' in (c :: s, rest)
  | [] => ([], [])
  end.

(** [array->dtype = malloc(dtsz + 1)] followed by [memcpy] and the store of
    the NUL.  The result of [malloc] is not tested, so a refused request
    ends in a write through the null pointer. *)
Definition store_dtype (a : npio_Array) (s : list ascii) : outcome npio_Array :=
  if grants dtype_string (to_size_t (Z.of_nat (List.length s) + 1))
  then Ret (set_dtype a (Some s))
  else Undef.

(** The value of a key, [switch (key)]. *)
Definition parse_value (key : dict_key) (a : npio_Array) (p : list ascii)
  : outcome (Z * npio_Array * list ascii) :=
  match key with
  | k_descr =>
      match p with
      | [] => Undef
      | open_quote :: p =>
          if negb (npio_ph_is_quote_ open_quote) then Ret (EINVAL, a, p) else
          let (s, p) := scan_until open_quote p in
          match p with
          | [] => Ret (EINVAL, a, p)
          | _ :: p => a <- store_dtype a s ;; Ret (0, a, p)
          end
      end
  | k_fortran_order =>
      if room 4 p && memcmp_eq "True" p
      then Ret (0, set_fortran_order a 1, skipn 4 p)
      else if room 5 p && memcmp_eq "False" p
      then Ret (0, set_fortran_order a 0, skipn 5 p)
      else Ret (EINVAL, a, p)
  | k_shape => npio_ph_parse_shape_ a p
  end.

(** The test for one of the three possible keys, with [p] just after the
    opening quote: the key and the text after its name. *)
Definition parse_key (p : list ascii) : option (dict_key * list ascii) :=
  if room 5 p && memcmp_eq "descr" p then Some (k_descr, skipn 5 p)
  else if room 5 p && memcmp_eq "shape" p then Some (k_shape, skipn 5 p)
  else if room 13 p && memcmp_eq "fortran_order" p
  then Some (k_fortran_order, skipn 13 p)
  else None.

(** The [while (1)] loop of [npio_ph_parse_dict_], up to its [break]. *)
Fixpoint parse_dict_loop (fuel : nat) (a : npio_Array) (p : list ascii)
  : outcome (Z * npio_Array) :=
  match fuel with
  | O => Timeout
  | S fuel' =>
      match npio_ph_skip_spaces_ p with
      | [] => Ret (EINVAL, a)
      | open_quote :: p =>
          if Ascii.eqb open_quote "}"%char then Ret (0, a) else
          if negb (npio_ph_is_quote_ open_quote) then Ret (EINVAL, a) else
          match parse_key p with
          | None => Ret (EINVAL, a)
          | Some (key, p) =>
              match p with
              | [] => Ret (EINVAL, a)
              | c :: p =>
                  if negb (Ascii.eqb c open_quote) then Ret (EINVAL, a) else
                  match npio_ph_skip_spaces_ p with
                  | [] => Ret (EINVAL, a)
                  | c :: p =>
                      if negb (Ascii.eqb c ":"%char) then Ret (EINVAL, a) else
                      match npio_ph_skip_spaces_ p with
                      | [] => Ret (EINVAL, a)
                      | p =>
                          '(err, a, p) <- parse_value key a p ;;
                          if negb (err =? 0) then Ret (err, a) else
                          match npio_ph_skip_spaces_ p with
                          | [] => Ret (EINVAL, a)
                          | c :: p' =>
                              parse_dict_loop fuel' a
                                (if Ascii.eqb c ","%char then p' else c :: p')
                          end
                      end
                  end
              end
          end
      end
  end.

Definition npio_ph_parse_dict_ (a : npio_Array) (start : list ascii)
  : outcome (Z * npio_Array) :=
  match start with
  | [] => Ret (EINVAL, a)
  | c :: p =>
      if negb (Ascii.eqb c "{"%char) then Ret (EINVAL, a) else
      '(err, a) <- parse_dict_loop (S (List.length p)) a p ;;
      if negb (err =? 0) then Ret (err, a) else
      npio_ph_parse_dtype_ a
  end.

Definition npio_init_array (a : npio_Array) : npio_Array :=
  mkArray 1 0 0 None 0 [] 0 0 (if host_little_endian then 1 else 0) 1 1 32
    NullPtr 0 [] 0 None 0 0 0 (_opened a).

(** ** The prelude *)

Definition magic : list ascii := ascii_of_nat 147 :: chars "NUMPY".

(** [npio_load_header_prelude_]: [p] is the text from the argument pointer
    to the end of its object; the third component of the result is [*end].
    The header length is computed in [int] from [char] operands and then
    converted to [size_t]. *)
Definition npio_load_header_prelude_ (p : list ascii) (a : npio_Array)
  : outcome (Z * npio_Array * list ascii) :=
  if (List.length p <? 6)%nat then Undef else
  if negb (list_eqb (firstn 6 p) magic) then Ret (EINVAL, a, p) else
  match skipn 6 p with
  | vmaj :: vmin :: p =>
      let a := set_version a (char_val vmaj) (char_val vmin) in
      if major_version a =? 1 then
        match p with
        | p0 :: p1 :: p =>
            s1 <- int_shl (char_val p1) 8 ;;
            r <- int_add (char_val p0) s1 ;;
            Ret (0, set_header_len a (to_size_t r), p)
        | _ => Undef
        end
      else if major_version a =? 2 then
        match p with
        | p0 :: p1 :: p2 :: p3 :: p =>
            s1 <- int_shl (char_val p1) 8 ;;
            r <- int_add (char_val p0) s1 ;;
            s2 <- int_shl (char_val p2) 16 ;;
            r <- int_add r s2 ;;
            s3 <- int_shl (char_val p3) 24 ;;
            r <- int_add r s3 ;;
            Ret (0, set_header_len a (to_size_t r), p)
        | _ => Undef
        end
      else Ret (ENOTSUP, a, p)
  | _ => Undef
  end.

(** [npio_load_header_mem4]: [p_] is the object the pointer refers to, of
    which the caller promises [sz] readable bytes.  [p + header_len] is
    formed in the flat address space; when [header_len] is so large that
    the sum wraps around the address space the outcome depends on where
    the buffer lies and is left undefined. *)
Definition npio_load_header_mem4 (p_ : list ascii) (sz : Z) (a : npio_Array)
  (max_dim : Z) : outcome (Z * npio_Array) :=
  if to_size_t sz <? 16 then Ret (EINVAL, a) else
  if Z.of_nat (List.length p_) <? to_size_t sz then Undef else
  let buf := firstn (Z.to_nat (to_size_t sz)) p_ in
  let a := if _mmapped a =? 0 then set_buf a p_ (to_size_t sz) else a in
  '(err, a, p) <- npio_load_header_prelude_ buf a ;;
  if negb (err =? 0) then Ret (err, a) else
  if 2 ^ 63 <=? header_len a then Undef else
  let text :=
    if header_len a <? Z.of_nat (List.length p)
    then firstn (Z.to_nat (header_len a)) p else p in
  npio_ph_parse_dict_ a text.

Definition npio_load_header_mem (p_ : list ascii) (sz : Z) (a : npio_Array)
  : outcome (Z * npio_Array) :=
  npio_load_header_mem4 p_ sz a NPIO_DEFAULT_MAX_DIM.

(** ** Loading through a file descriptor *)

(** *** The parser with its bound outside the text

    [npio_load_header_fd_read_] gives [npio_ph_parse_dict_] the block that
    [_hdr_buf] points to as its text and, as its bound, the [end] that
    [npio_load_header_prelude_] has set, which points into the local array
    [prelude].  The stack lies above the heap, so [p < end] holds for every
    [p] in the block and [p >= end] and [p == end] never do: no bounds check
    stops the parser, and what it meets at the end of the block is a read
    outside it.  The functions below are the functions of the parser as
    they run under such a bound; their text is the bytes from [p] to the
    end of the block. *)

(** [npio_ph_skip_spaces_] *)
Fixpoint skip_spaces_far (l : list ascii) : outcome (list ascii) :=
  match l with
  | c :: l' => if isspace (char_val c) then skip_spaces_far l' else Ret l
  | [] => Undef
  end.

(** [while (p < end && *p >= '0' && *p <= '9') ++p] *)
Fixpoint scan_digits_far (l : list ascii)
  : outcome (list ascii * list ascii) :=
  match l with
  | c :: l' =>
      if (48 <=? char_val c) && (char_val c <=? 57)
      then '(ds, rest) <- scan_digits_far l' ;; Ret (c :: ds, rest)
      else Ret ([], l)
  | [] => Undef
  end.

(** The [while (1)] loop of [npio_ph_parse_shape_]. *)
Fixpoint parse_shape_loop_far (fuel : nat) (a : npio_Array) (p : list ascii)
  : outcome (Z * npio_Array * list ascii) :=
  match fuel with
  | O => Timeout
  | S fuel' =>
      p <- skip_spaces_far p ;;
      '(ds, p) <- scan_digits_far p ;;
      '(err, a) <-
         match ds with
         | [] => Ret (0, a)
         | _ => npio_ph_shape_append_ a (digits_val ds 0)
         end ;;
      if negb (err =? 0) then Ret (err, a, p) else
      p <- skip_spaces_far p ;;
      match p with
      | [] => Undef
      | c :: p' =>
          if Ascii.eqb c ","%char then parse_shape_loop_far fuel' a p'
          else if Ascii.eqb c ")"%char then
            n <- npio_array_size a ;;
            Ret (0, set_size a n, p')
          else Ret (EINVAL, a, c :: p')
      end
  end.

(** [npio_ph_parse_shape_] *)
Definition parse_shape_far (a : npio_Array) (start : list ascii)
  : outcome (Z * npio_Array * list ascii) :=
  match start with
  | [] => Undef
  | c :: p =>
      if negb (Ascii.eqb c "("%char) then Ret (EINVAL, a, start) else
      if negb (grants shape_buffer 64)
      then Ret (ENOMEM, set_shape a (dim a) [] 8, start) else
      let a := set_shape a (dim a) (fresh_words 0 8) 8 in
      parse_shape_loop_far (S (List.length p)) a p
  end.

(** [while (p < end && *p != open_quote) ++p] *)
Fixpoint scan_until_far (q : ascii) (l : list ascii)
  : outcome (list ascii * list ascii) :=
  match l with
  | c :: l' =>
      if Ascii.eqb c q then Ret ([], l)
      else '(s, rest) <- scan_until_far q l' ;; Ret (c :: s, rest)
  | [] => Undef
  end.

(** [p + n < end && memcmp(p, lit, n) == 0]: the comparison reads [n]
    bytes at [p]. *)
Definition memcmp_far (lit : string) (l : list ascii) : outcome bool :=
  if (List.length l <? String.length lit)%nat then Undef
  else Ret (memcmp_eq lit l).

(** The value of a key, [switch (key)]. *)
Definition parse_value_far (key : dict_key) (a : npio_Array) (p : list ascii)
  : outcome (Z * npio_Array * list ascii) :=
  match key with
  | k_descr =>
      match p with
      | [] => Undef
      | open_quote :: p =>
          if negb (npio_ph_is_quote_ open_quote) then Ret (EINVAL, a, p) else
          '(s, p) <- scan_until_far open_quote p ;;
          match p with
          | [] => Undef
          | _ :: p => a <- store_dtype a s ;; Ret (0, a, p)
          end
      end
  | k_fortran_order =>
      t <- memcmp_far "True" p ;;
      if t then Ret (0, set_fortran_order a 1, skipn 4 p) else
      f <- memcmp_far "False" p ;;
      if f then Ret (0, set_fortran_order a 0, skipn 5 p)
      else Ret (EINVAL, a, p)
  | k_shape => parse_shape_far a p
  end.

(** The test for one of the three possible keys. *)
Definition parse_key_far (p : list ascii)
  : outcome (option (dict_key * list ascii)) :=
  d <- memcmp_far "descr" p ;;
  if d then Ret (Some (k_descr, skipn 5 p)) else
  s <- memcmp_far "shape" p ;;
  if s then Ret (Some (k_shape, skipn 5 p)) else
  f <- memcmp_far "fortran_order" p ;;
  if f then Ret (Some (k_fortran_order, skipn 13 p))
  else Ret None.

(** The [while (1)] loop of [npio_ph_parse_dict_], up to its [break]. *)
Fixpoint parse_dict_loop_far (fuel : nat) (a : npio_Array) (p : list ascii)
  : outcome (Z * npio_Array) :=
  match fuel with
  | O => Timeout
  | S fuel' =>
      p <- skip_spaces_far p ;;
      match p with
      | [] => Undef
      | open_quote :: p =>
          if Ascii.eqb open_quote "}"%char then Ret (0, a) else
          if negb (npio_ph_is_quote_ open_quote) then Ret (EINVAL, a) else
          k <- parse_key_far p ;;
          match k with
          | None => Ret (EINVAL, a)
          | Some (_, []) => Undef
          | Some (key, c :: p) =>
              if negb (Ascii.eqb c open_quote) then Ret (EINVAL, a) else
              p <- skip_spaces_far p ;;
              match p with
              | [] => Undef
              | c :: p =>
                  if negb (Ascii.eqb c ":"%char) then Ret (EINVAL, a) else
                  p <- skip_spaces_far p ;;
                  '(err, a, p) <- parse_value_far key a p ;;
                  if negb (err =? 0) then Ret (err, a) else
                  p <- skip_spaces_far p ;;
                  match p with
                  | [] => Undef
                  | c :: p' =>
                      parse_dict_loop_far fuel' a
                        (if Ascii.eqb c ","%char then p' else c :: p')
                  end
              end
          end
      end
  end.

(** [npio_ph_parse_dict_] *)
Definition parse_dict_far (a : npio_Array) (start : list ascii)
  : outcome (Z * npio_Array) :=
  match start with
  | [] => Undef
  | c :: p =>
      if negb (Ascii.eqb c "{"%char) then Ret (EINVAL, a) else
      '(err, a) <- parse_dict_loop_far (S (List.length p)) a p ;;
      if negb (err =? 0) then Ret (err, a) else
      npio_ph_parse_dtype_ a
  end.

(** [npio_load_header_fd_read_].  [prelude_size] is what
    [npio_load_header_prelude_] has passed of the twelve bytes.  The block
    of [_hdr_buf] holds the twelve bytes, then what the second [read]
    delivers (its return value is not looked at), then what [malloc] left
    there.  When [12 + header_len] wraps around, the block is too small
    for what is copied into it. *)
Definition npio_load_header_fd_read_ (w : world) (fd : Z) (a : npio_Array)
  (max_dim : Z) : outcome (Z * npio_Array * world) :=
  let '(nr, prelude, w) := sys_read w fd 12 in
  if nr <? 12 then Ret (errno w, a, w) else
  '(err, a, rest) <- npio_load_header_prelude_ prelude a ;;
  if negb (err =? 0) then Ret (err, a, w) else
  let prelude_size := (12 - List.length rest)%nat in
  if to_size_t (1024 + to_size_t max_dim * 20) <? header_len a
  then Ret (ERANGE, a, w) else
  if negb (grants header_buffer (to_size_t (12 + header_len a)))
  then Ret (ENOMEM, set_hdr_buf a None, w) else
  if size_max <=? 12 + header_len a then Undef else
  let '(_, body, w) := sys_read w fd (header_len a) in
  let block :=
    prelude ++ body ++
    fresh_bytes (List.length body)
      (Z.to_nat (header_len a) - List.length body) in
  let a := set_hdr_buf a (Some block) in
  '(err, a) <- parse_dict_far a (skipn prelude_size block) ;;
  Ret (err, a, w).

Definition npio_load_header_fd3 (w : world) (fd : Z) (a : npio_Array)
  (max_dim : Z) : outcome (Z * npio_Array * world) :=
  let a := if _opened a =? 0 then set_fd a fd else a in
  let '(file_size, w) := sys_lseek_end w fd in
  if file_size <? 0 then npio_load_header_fd_read_ w fd a max_dim else
  match sys_mmap w fd file_size with
  | (None, w) => npio_load_header_fd_read_ w fd a max_dim
  | (Some p, w) =>
      let a := set_buf (set_mmapped a 1) p file_size in
      '(err, a) <- npio_load_header_mem4 p file_size a max_dim ;;
      Ret (err, a, w)
  end.

Definition npio_load_header_fd (w : world) (fd : Z) (a : npio_Array)
  : outcome (Z * npio_Array * world) :=
  npio_load_header_fd3 w fd a NPIO_DEFAULT_MAX_DIM.

(** ** Byte swapping *)

(** One loop of [npio_swap_bytes] per width: [n] elements are reversed in
    place from the start of [l]; [None] when the object ends before. *)
Fixpoint swap_loop16 (n : Z) (l : list ascii) {struct l} : option (list ascii) :=
  if n <=? 0 then Some l else
  match l with
  | b0 :: b1 :: r =>
      option_map (fun t => b1 :: b0 :: t) (swap_loop16 (n - 1) r)
  | _ => None
  end.

Fixpoint swap_loop32 (n : Z) (l : list ascii) {struct l} : option (list ascii) :=
  if n <=? 0 then Some l else
  match l with
  | b0 :: b1 :: b2 :: b3 :: r =>
      option_map (fun t => b3 :: b2 :: b1 :: b0 :: t) (swap_loop32 (n - 1) r)
  | _ => None
  end.

Fixpoint swap_loop64 (n : Z) (l : list ascii) {struct l} : option (list ascii) :=
  if n <=? 0 then Some l else
  match l with
  | b0 :: b1 :: b2 :: b3 :: b4 :: b5 :: b6 :: b7 :: r =>
      option_map (fun t => b7 :: b6 :: b5 :: b4 :: b3 :: b2 :: b1 :: b0 :: t)
        (swap_loop64 (n - 1) r)
  | _ => None
  end.

Definition npio_swap_bytes (n bit_width : Z) (mem : list ascii)
  : outcome (Z * list ascii) :=
  let run (r : option (list ascii)) :=
    match r with Some m => Ret (0, m) | None => Undef end in
  if bit_width =? 8 then Ret (0, mem)
  else if bit_width =? 16 then run (swap_loop16 n mem)
  else if bit_width =? 32 then run (swap_loop32 n mem)
  else if bit_width =? 64 then run (swap_loop64 n mem)
  else Ret (ENOTSUP, mem).

(** The memory from [array->data] to the end of the object it points into. *)
Definition data_region (a : npio_Array) : list ascii :=
  match data a with
  | NullPtr => []
  | BufPtr off => skipn (Z.to_nat off) (_buf a)
  | OwnPtr bytes => bytes
  end.

(** Writing that memory back. *)
Definition set_data_region (a : npio_Array) (m : list ascii) : npio_Array :=
  match data a with
  | NullPtr => a
  | BufPtr off => set_buf a (firstn (Z.to_nat off) (_buf a) ++ m) (_buf_size a)
  | OwnPtr _ => set_data a (OwnPtr m)
  end.

(** ** Loading the data *)

Definition data_offset (a : npio_Array) : Z :=
  to_size_t (header_len a + 6 + (if major_version a =? 1 then 4 else 6)).

(** The [if (array->_mmapped) ... else ...] of [npio_load_data2]:
    [Some code] when the branch returns from the function with that code,
    [None] when the execution goes on after it. *)
Definition locate_data (w : world) (a : npio_Array)
  : outcome (option Z * npio_Array * world) :=
  if negb (_mmapped a =? 0) then
    m <- npio_array_memsize a ;;
    if negb (to_size_t (data_offset a + m) =? _buf_size a)
    then Ret (Some EINVAL, a, w)
    else Ret (None, set_data a (BufPtr (data_offset a)), w)
  else
    let sz := to_size_t (size a * to_size_t (bit_width a)) / 8 in
    if to_ssize_t sz <? 0 then Ret (Some ERANGE, a, w) else
    if negb (grants payload_buffer sz)
    then Ret (Some ENOMEM, set_data a NullPtr, w) else
    let '(nr, got, w) := sys_read w (_fd a) sz in
    let a :=
      set_data a
        (OwnPtr (got ++ fresh_bytes (List.length got)
                          (Z.to_nat sz - List.length got))) in
    if negb (nr =? to_ssize_t sz) then Ret (Some (errno w), a, w)
    else Ret (None, a, w).

Definition npio_load_data2 (w : world) (a : npio_Array) (swap_bytes : Z)
  : outcome (Z * npio_Array * world) :=
  let little_endian_host : Z := if host_little_endian then 1 else 0 in
  if negb (data_offset a mod 16 =? 0) then Ret (EINVAL, a, w) else
  '(returned, a, w) <- locate_data w a ;;
  match returned with
  | Some code => Ret (code, a, w)
  | None =>
      if negb (swap_bytes =? 0) && negb (little_endian_host =? little_endian a)
      then
        let a := set_little_endian a little_endian_host in
        '(err, m) <-
          npio_swap_bytes (size a) (to_size_t (bit_width a)) (data_region a) ;;
        Ret (err, set_data_region a m, w)
      else Ret (0, a, w)
  end.

Definition npio_load_data (w : world) (a : npio_Array)
  : outcome (Z * npio_Array * world) :=
  npio_load_data2 w a 1.

Definition npio_load_fd3 (w : world) (fd : Z) (a : npio_Array) (max_dim : Z)
  : outcome (Z * npio_Array * world) :=
  '(err, a, w) <- npio_load_header_fd3 w fd a max_dim ;;
  if negb (err =? 0) then Ret (err, a, w) else
  npio_load_data w a.

Definition npio_load_mem4 (w : world) (p : list ascii) (sz : Z)
  (a : npio_Array) (max_dim : Z) : outcome (Z * npio_Array * world) :=
  '(err, a) <- npio_load_header_mem4 p sz a max_dim ;;
  if negb (err =? 0) then Ret (err, a, w) else
  npio_load_data w a.

Definition npio_load_mem (w : world) (p : list ascii) (sz : Z)
  (a : npio_Array) : outcome (Z * npio_Array * world) :=
  npio_load_mem4 w p sz a NPIO_DEFAULT_MAX_DIM.

End Platform.

(** ** Saving *)

Definition digit_char (d : Z) : ascii := ascii_of_N (Z.to_N (48 + d)).

(** The decimal digits of [n >= 0], most significant first, in front of
    [acc]; a 64-bit number has at most twenty. *)
Fixpoint print_digits (fuel : nat) (n : Z) (acc : list ascii) : list ascii :=
  match fuel with
  | O => acc
  | S fuel' =>
      let acc := digit_char (n mod 10) :: acc in
      if n <? 10 then acc else print_digits fuel' (n / 10) acc
  end.

(** What [printf] writes for [%d] and [%ld]. *)
Definition print_dec (z : Z) : list ascii :=
  if z <? 0 then "-"%char :: print_digits 20 (- z) []
  else print_digits 20 z [].

(** [hdr += sprintf(hdr, ...)] where [body] is the text written so far from
    [hdr_buf + 10] and [s] the formatted text: [sprintf] also stores the
    terminating NUL, which must still lie inside the [sz] bytes. *)
Definition emit (sz : Z) (body s : list ascii) : outcome (list ascii) :=
  if 10 + Z.of_nat (List.length body) + Z.of_nat (List.length s) + 1 <=? sz
  then Ret (body ++ s) else Undef.

(** The loop over the dimensions.  [snprintf] returns the length of the
    full text even when it had to cut it, so whenever the text did not fit
    the test [hdr >= hdr_end - 3] fires. *)
Fixpoint save_shape_loop (sz : Z) (sh : list Z) (i count : nat)
  (body : list ascii) : outcome (Z * list ascii) :=
  match count with
  | O => Ret (0, body)
  | S count' =>
      match nth_error sh i with
      | None => Undef
      | Some d =>
          let body := body ++ print_dec (to_ssize_t d) ++ chars ", " in
          if sz - 3 <=? 10 + Z.of_nat (List.length body)
          then Ret (ERANGE, body)
          else save_shape_loop sz sh (S i) count' body
      end
  end.

(** [while (hdr < hdr_end && ((hdr - hdr_end) % 16)) *hdr++ = ' '], with
    [room] the distance [hdr_end - hdr]. *)
Fixpoint pad_loop (room : nat) (body : list ascii) : list ascii :=
  match room with
  | O => body
  | S room' =>
      if negb (Z.rem (- Z.of_nat room) 16 =? 0)
      then pad_loop room' (body ++ [" "%char])
      else body
  end.

(** The three formatted pieces in front of the dimensions:
    ["{\"descr\": \"%c%c%d\", "], ["\"fortran_order\": %s, "] and
    ["\"shape\": ("], with their arguments. *)
Definition descr_field (a : npio_Array) : list ascii :=
  chars "{" ++ [dquote] ++ chars "descr" ++ [dquote] ++ chars ": "
  ++ [dquote]
  ++ [if negb (little_endian a =? 0) then "<"%char else ">"%char;
      if negb (floating_point a =? 0) then "f"%char
      else if negb (is_signed a =? 0) then "i"%char else "u"%char]
  ++ print_dec (Z.quot (bit_width a) 8)
  ++ [dquote] ++ chars ", ".

Definition fortran_field (a : npio_Array) : list ascii :=
  [dquote] ++ chars "fortran_order" ++ [dquote] ++ chars ": "
  ++ (if negb (fortran_order a =? 0) then chars "True" else chars "False")
  ++ chars ", ".

Definition shape_open : list ascii :=
  [dquote] ++ chars "shape" ++ [dquote] ++ chars ": (".

(** [npio_save_header_mem]: the error code and, on success, the bytes of
    [[hdr_buf, *out)].  [sz] is a [size_t]. *)
Definition npio_save_header_mem (sz : Z) (a : npio_Array)
  : outcome (Z * list ascii) :=
  if sz <? 64 then Ret (ERANGE, []) else
  body <- emit sz [] (descr_field a) ;;
  body <- emit sz body (fortran_field a) ;;
  body <- emit sz body shape_open ;;
  '(err, body) <- save_shape_loop sz (shape a) 0 (dim a) body ;;
  if negb (err =? 0) then Ret (err, []) else
  body <- emit sz body (chars ")} ") ;;
  let body :=
    pad_loop (Z.to_nat (sz - 10 - Z.of_nat (List.length body))) body in
  if negb (Z.rem (10 + Z.of_nat (List.length body) - sz) 16 =? 0)
  then Ret (ERANGE, []) else
  let body := removelast body ++ [ascii_of_nat 10] in
  let hdr_len := Z.of_nat (List.length body) in
  Ret (0,
       magic ++ [ascii_of_nat 1; zero]
       ++ [byte_of (Z.land hdr_len 255); byte_of (Z.shiftr hdr_len 8)]
       ++ body).

(** The [sz] bytes at [array->data], when the object holds that many. *)
Definition data_bytes (a : npio_Array) (sz : Z) : option (list ascii) :=
  let m := data_region a in
  if sz <=? Z.of_nat (List.length m) then Some (firstn (Z.to_nat sz) m)
  else None.

Definition npio_save_fd (w : world) (fd : Z) (a : npio_Array)
  : outcome (Z * world) :=
  '(err, hdr) <- npio_save_header_mem 65536 a ;;
  if negb (err =? 0) then Ret (err, w) else
  let '(nw, w) := sys_write w fd hdr in
  if nw <? Z.of_nat (List.length hdr) then Ret (errno w, w) else
  sz <- npio_array_memsize a ;;
  if to_ssize_t sz <? 0 then Ret (ERANGE, w) else
  match data_bytes a sz with
  | None => Undef
  | Some payload =>
      let '(nw, w) := sys_write w fd payload in
      if negb (nw =? to_ssize_t sz) then Ret (errno w, w) else Ret (0, w)
  end.

(** ** Files by name *)

(** Flags of [open] (Linux values). *)
Definition O_RDONLY : Z := 0.
Definition O_WRONLY : Z := 1.
Definition O_CREAT : Z := 64.
Definition O_TRUNC : Z := 512.

(** [close(fd)] *)
Definition sys_close (w : world) (fd : Z) : Z * world :=
  match fds w fd with
  | None => (-1, set_errno w EBADF)
  | Some _ =>
      (0, mkWorld (errno w) (fun k => if k =? fd then None else fds w k))
  end.

Definition set_opened (a : npio_Array) (v : Z) : npio_Array :=
  mkArray (major_version a) (minor_version a) (header_len a) (dtype a) (dim a)
    (shape a) (size a) (fortran_order a) (little_endian a) (floating_point a)
    (is_signed a) (bit_width a) (data a) (_fd a) (_buf a) (_buf_size a)
    (_hdr_buf a) (_shape_capacity a) (_mmapped a) (_malloced a) v.

(** ** Releasing a descriptor *)

(** The calls by which [npio_free_array] gives resources back. *)
Inductive release : Type :=
| free_dtype
| free_shape
| munmap_buf (buf : list ascii) (len : Z)
| close_fd (fd : Z)
| free_hdr_buf.

(** [npio_free_array]: the calls it makes, in their order, the descriptor
    and the process afterwards.  A null [shape] is the empty list: the
    buffers the library allocates for it hold at least eight words. *)
Definition npio_free_array (w : world) (a : npio_Array)
  : list release * npio_Array * world :=
  let '(r1, a) :=
    match dtype a with
    | Some _ => ([free_dtype], set_dtype a None)
    | None => ([], a)
    end in
  let '(r2, a) :=
    match shape a with
    | _ :: _ => ([free_shape], set_shape a (dim a) [] (_shape_capacity a))
    | [] => ([], a)
    end in
  let '(r3, a) :=
    if negb (_mmapped a =? 0)
    then ([munmap_buf (_buf a) (_buf_size a)], set_buf a [] (_buf_size a))
    else ([], a) in
  let '(r4, a, w) :=
    if 0 <=? _fd a
    then ([close_fd (_fd a)], set_fd a (-1), snd (sys_close w (_fd a)))
    else ([], a, w) in
  let '(r5, a) :=
    match _hdr_buf a with
    | Some _ => ([free_hdr_buf], set_hdr_buf a None)
    | None => ([], a)
    end in
  (r1 ++ r2 ++ r3 ++ r4 ++ r5, a, w).

Section Paths.

Context {heap : Heap}.
Variable char_signed : bool.
Variable host_little_endian : bool.
Variable heap_junk : nat -> Z.

(** [open(path, flags, mode)]: the new descriptor or [-1], and the process
    afterwards.  What the call answers depends on the file system, which
    is left open here. *)
Variable sys_open : world -> string -> Z -> option Z -> Z * world.

Definition npio_load_header3 (w : world) (filename : string)
  (a : npio_Array) (max_dim : Z) : outcome (Z * npio_Array * world) :=
  let '(fd, w) := sys_open w filename O_RDONLY None in
  if fd <? 0 then Ret (errno w, a, w) else
  let a := set_opened (set_fd a fd) 1 in
  '(err, a, w) <-
    npio_load_header_fd3 char_signed heap_junk w fd a max_dim ;;
  if negb (_mmapped a =? 0) then
    let '(_, w) := sys_close w fd in
    Ret (err, set_opened (set_fd a (-1)) 0, w)
  else Ret (err, a, w).

Definition npio_load_header (w : world) (filename : string) (a : npio_Array)
  : outcome (Z * npio_Array * world) :=
  npio_load_header3 w filename a NPIO_DEFAULT_MAX_DIM.

Definition npio_load3 (w : world) (filename : string) (a : npio_Array)
  (max_dim : Z) : outcome (Z * npio_Array * world) :=
  let '(fd, w) := sys_open w filename O_RDONLY None in
  if fd <? 0 then Ret (errno w, a, w) else
  '(err, a, w) <-
    npio_load_fd3 char_signed host_little_endian heap_junk w fd a max_dim ;;
  let '(_, w) := sys_close w fd in
  Ret (err, a, w).

Definition npio_load (w : world) (filename : string) (a : npio_Array)
  : outcome (Z * npio_Array * world) :=
  npio_load3 w filename a 65536.

Definition npio_save (w : world) (filename : string) (a : npio_Array)
  : outcome (Z * world) :=
  let '(fd, w) :=
    sys_open w filename (Z.lor (Z.lor O_WRONLY O_CREAT) O_TRUNC)
      (Some 438) in
  if fd <? 0 then Ret (errno w, w) else
  '(err, w) <- npio_save_fd w fd a ;;
  let '(_, w) := sys_close w fd in
  Ret (err, w).

End Paths.

(** ** The C++ wrappers

    The namespace [npio] of the header, compiled without
    [NPIO_CXX_ENABLE_EXCEPTIONS]: errors are return values. *)

Module npio.

(** A template argument [T]: [float], [double], or a type handled by the
    primary template of [Traits], of which the template reads whether
    [T(-1) < T(0)] and [sizeof(T)]. *)
Inductive cxx_type : Type :=
| T_float
| T_double
| T_integral (sgn : bool) (bytes : Z).

Definition Traits_is_signed (T : cxx_type) : bool :=
  match T with T_integral sgn _ => sgn | _ => true end.

Definition Traits_floating_point (T : cxx_type) : bool :=
  match T with T_integral _ _ => false | _ => true end.

Definition Traits_bit_width (T : cxx_type) : Z :=
  match T with
  | T_float => 32
  | T_double => 64
  | T_integral _ bytes => to_size_t (bytes * 8)
  end.

Definition Traits_spec (T : cxx_type) : ascii :=
  match T with
  | T_integral sgn _ => if sgn then "i"%char else "u"%char
  | _ => "f"%char
  end.

(** The conversions [bool] to [int] and [size_t] to [int]. *)
Definition int_of_bool (b : bool) : Z := if b then 1 else 0.

Definition int_of_size_t (z : Z) : Z :=
  let u := z mod 2 ^ 32 in if u <? 2 ^ 31 then u else u - 2 ^ 32.

(** [class Array]: the wrapped struct and the error of the constructor. *)
Record Array : Type := mkArrayObject {
  array : npio_Array;
  err : Z
}.

Section Wrappers.

Context {heap : Heap}.
Variable char_signed : bool.
Variable host_little_endian : bool.
Variable heap_junk : nat -> Z.
Variable sys_open : world -> string -> Z -> option Z -> Z * world.

(** [save(int fd, size_t nDim, const size_t* shape, const T* data)].  The
    last argument is the storage of the local [array] before
    [npio_init_array] fills it. *)
Definition save (T : cxx_type) (w : world) (fd : Z) (nDim : nat)
  (shape : list Z) (data : data_ptr) (local : npio_Array)
  : outcome (Z * world) :=
  let a := npio_init_array host_little_endian local in
  let a := set_shape a nDim shape (_shape_capacity a) in
  let a :=
    set_kind a (int_of_bool (Traits_is_signed T))
      (int_of_bool (Traits_floating_point T)) in
  let a := set_bit_width a (int_of_size_t (Traits_bit_width T)) in
  let a := set_data a data in
  npio_save_fd w fd a.

(** [save(int fd, std::initializer_list<size_t> shape, const T* data)] *)
Definition save_list (T : cxx_type) (w : world) (fd : Z) (shape : list Z)
  (data : data_ptr) (local : npio_Array) : outcome (Z * world) :=
  save T w fd (List.length shape) shape data local.

(** [save(const char* fn, size_t nDim, const size_t* shape, const T* data)] *)
Definition save_file (T : cxx_type) (w : world) (fn : string) (nDim : nat)
  (shape : list Z) (data : data_ptr) (local : npio_Array)
  : outcome (Z * world) :=
  let '(fd, w) :=
    sys_open w fn (Z.lor (Z.lor O_WRONLY O_CREAT) O_TRUNC) (Some 438) in
  if fd <? 0 then Ret (errno w, w) else
  '(ret, w) <- save T w fd nDim shape data local ;;
  let '(_, w) := sys_close w fd in
  Ret (ret, w).

(** [save(const char* fn, std::initializer_list<size_t> shape, const T* data)] *)
Definition save_file_list (T : cxx_type) (w : world) (fn : string)
  (shape : list Z) (data : data_ptr) (local : npio_Array)
  : outcome (Z * world) :=
  save_file T w fn (List.length shape) shape data local.

(** The three constructors; [this] is the storage of the member [array]
    before [npio_init_array] fills it. *)
Definition Array_of_file (w : world) (filename : string) (max_dim : Z)
  (this : npio_Array) : outcome (Array * world) :=
  let a := npio_init_array host_little_endian this in
  '(e, a, w) <-
    npio_load3 char_signed host_little_endian heap_junk sys_open w filename
      a max_dim ;;
  Ret (mkArrayObject a e, w).

Definition Array_of_fd (w : world) (fd : Z) (max_dim : Z) (this : npio_Array)
  : outcome (Array * world) :=
  let a := npio_init_array host_little_endian this in
  '(e, a, w) <-
    npio_load_fd3 char_signed host_little_endian heap_junk w fd a max_dim ;;
  Ret (mkArrayObject a e, w).

Definition Array_of_mem (w : world) (p : list ascii) (sz : Z) (max_dim : Z)
  (this : npio_Array) : outcome (Array * world) :=
  let a := npio_init_array host_little_endian this in
  '(e, a, w) <-
    npio_load_mem4 char_signed host_little_endian heap_junk w p sz a
      max_dim ;;
  Ret (mkArrayObject a e, w).

(** [Array::save(const char* filename)] and [Array::save(int fd)] *)
Definition Array_save_file (this : Array) (w : world) (filename : string)
  : outcome (Z * world) :=
  npio_save sys_open w filename (array this).

Definition Array_save_fd (this : Array) (w : world) (fd : Z)
  : outcome (Z * world) :=
  npio_save_fd w fd (array this).

End Wrappers.

(** The read-only accessors. *)
Definition Array_error (this : Array) : Z := err this.
Definition Array_size (this : Array) : Z := size (array this).
Definition Array_dim (this : Array) : nat := dim (array this).
Definition Array_fortran_order (this : Array) : bool :=
  negb (fortran_order (array this) =? 0).
Definition Array_little_endian (this : Array) : bool :=
  negb (little_endian (array this) =? 0).
Definition Array_floating_point (this : Array) : bool :=
  negb (floating_point (array this) =? 0).
Definition Array_is_signed (this : Array) : bool :=
  negb (is_signed (array this) =? 0).
Definition Array_bit_width (this : Array) : Z :=
  to_size_t (bit_width (array this)).
Definition Array_data (this : Array) : data_ptr := data (array this).
Definition Array_major_version (this : Array) : Z :=
  major_version (array this).
Definition Array_minor_version (this : Array) : Z :=
  minor_version (array this).

(** [size_t shape(size_t i)] *)
Definition Array_shape (this : Array) (i : nat) : outcome Z :=
  if (i <? dim (array this))%nat then
    match nth_error (shape (array this)) i with
    | Some d => Ret d
    | None => Undef
    end
  else Ret 1.

(** [isType<T>()]: each [==] compares a constant of [Traits<T>] with an
    [int] field, after the usual conversions. *)
Definition Array_isType (T : cxx_type) (this : Array) : bool :=
  (int_of_bool (Traits_floating_point T) =? floating_point (array this))
  && (int_of_bool (Traits_is_signed T) =? is_signed (array this))
  && (Traits_bit_width T =? to_size_t (bit_width (array this))).

(** [get<T>()]: the statement [return (T* ) array.data;] stands inside the
    branch of the failed test, after its [return 0;].  When the test
    succeeds control reaches the end of the function without a [return]. *)
Definition Array_get (T : cxx_type) (this : Array) : outcome data_ptr :=
  if negb (Array_isType T this) then Ret NullPtr else Undef.

(** [~Array()] *)
Definition Array_destroy (this : Array) (w : world)
  : list release * npio_Array * world :=
  npio_free_array w (array this).

End npio.

(** ** Test data *)

(** A struct in zeroed storage, before [npio_init_array]. *)
Definition zeroed : npio_Array :=
  mkArray 0 0 0 None 0 [] 0 0 0 0 0 0 NullPtr 0 [] 0 None 0 0 0 0.

Definition newline : ascii := ascii_of_nat 10.

(** A version-1 file as numpy lays it out: the prelude, the dictionary
    [text], [pad] spaces, a newline, and the payload. *)
Definition npy_v1 (text : string) (pad : nat) (payload : list ascii)
  : list ascii :=
  let hl := Z.of_nat (String.length text + pad + 1) in
  magic ++ [ascii_of_nat 1; zero]
  ++ [byte_of (Z.land hl 255); byte_of (Z.shiftr hl 8)]
  ++ chars text ++ repeat " "%char pad ++ [newline] ++ payload.

(** A regular file holding [bytes], freshly opened. *)
Definition regular_file (bytes : list ascii) : file :=
  mkFile bytes 0 true true [].

(** A pipe that will deliver [bytes]. *)
Definition pipe (bytes : list ascii) : file :=
  mkFile bytes 0 false false [].

(** A process with [errno = 0] whose only open descriptor is [fd]. *)
Definition one_file (fd : Z) (f : file) : world :=
  mkWorld 0 (fun k => if k =? fd then Some f else None).

(** The bytes of the file behind [fd]. *)
Definition file_bytes (w : world) (fd : Z) : list ascii :=
  match fds w fd with Some f => f_bytes f | None => [] end.

(** ** Definitions used in the statements *)

(** Contents of fresh heap memory used in the concrete runs below. *)
Definition stale_words (i : nat) : Z := 1000 + Z.of_nat i.

(** A heap that refuses every request. *)
Definition exhausted : Heap := {| grants := fun _ _ => false |}.

(** A heap that grants every [malloc] and refuses to grow a buffer. *)
Definition fixed_buffers : Heap :=
  {| grants := fun site _ =>
       match site with shape_growth => false | _ => true end |}.

(** A descriptor for one element of [width] bits with the given flags and
    payload, as a caller fills it in before saving. *)
Definition one_element (le fp sgn width : Z) (payload : list ascii)
  : npio_Array :=
  set_data
    (set_bit_width
       (set_kind
          (set_little_endian (set_shape (npio_init_array true zeroed) 1 [1] 1)
             le)
          sgn fp)
       width)
    (OwnPtr payload).

(** The logical content of a loaded array. *)
Definition loaded_view (a : npio_Array)
  : nat * list Z * (Z * Z * Z * Z) * Z * list ascii :=
  (dim a, firstn (dim a) (shape a),
   (little_endian a, floating_point a, is_signed a, bit_width a),
   fortran_order a, data_region a).

Definition is_digit (cs : bool) (c : ascii) : bool :=
  (48 <=? char_val cs c) && (char_val cs c <=? 57).

(** The text [save] writes for the dimensions: each as [%ld] followed by a
    comma and a space. *)
Definition dims_text (ds : list Z) : list ascii :=
  flat_map (fun d => print_dec (to_ssize_t d) ++ chars ", ") ds.

Definition product (l : list Z) : Z := fold_right Z.mul 1 l.

(** The buffer [shape] has [_shape_capacity] words, of which [dim] are in
    use. *)
Definition shape_inv (a : npio_Array) : Prop :=
  List.length (shape a) = _shape_capacity a
  /\ (dim a <= _shape_capacity a)%nat
  /\ (0 < _shape_capacity a)%nat.

(** The element widths of the supported dtypes. *)
Definition supported_width (w : Z) : Prop :=
  w = 8 \/ w = 16 \/ w = 32 \/ w = 64.

(** What follows the value of a key in [parse_dict_loop]. *)
Definition after_value {heap : Heap} (cs : bool) (junk : nat -> Z) (fuel : nat)
  (r : outcome (Z * npio_Array * list ascii)) : outcome (Z * npio_Array) :=
  '(err, a, p) <- r ;;
  if negb (err =? 0) then Ret (err, a) else
  match npio_ph_skip_spaces_ cs p with
  | [] => Ret (EINVAL, a)
  | c :: p' =>
      parse_dict_loop cs junk fuel a
        (if Ascii.eqb c ","%char then p' else c :: p')
  end.

(** The header text before padding. *)
Definition header_text (a : npio_Array) : list ascii :=
  descr_field a ++ fortran_field a ++ shape_open
  ++ dims_text (firstn (dim a) (shape a)) ++ chars ")} ".

(** The number of padding spaces for a buffer of [sz] bytes. *)
Definition pad_count (sz : Z) (a : npio_Array) : nat :=
  Z.to_nat ((sz - 10 - Z.of_nat (List.length (header_text a))) mod 16).

(** The header region with its padding: the last space of the text, or of
    the padding, has become the newline. *)
Definition saved_body (sz : Z) (a : npio_Array) : list ascii :=
  descr_field a ++ fortran_field a ++ shape_open
  ++ dims_text (firstn (dim a) (shape a))
  ++ ")"%char :: "}"%char :: repeat " "%char (pad_count sz a) ++ [newline].

Definition saved_header (sz : Z) (a : npio_Array) : list ascii :=
  let hdr_len := Z.of_nat (List.length (saved_body sz a)) in
  magic ++ [ascii_of_nat 1; zero]
  ++ [byte_of (Z.land hdr_len 255); byte_of (Z.shiftr hdr_len 8)]
  ++ saved_body sz a.

Ltac absurd_ret := let H := fresh in intros H; discriminate H.

Ltac leb_case sz :=
  match goal with
  | |- context [?x <=? sz] => destruct (Z.leb_spec x sz)
  end.

(** The size of the padded header: prelude and text, rounded up to a
    multiple of 16. *)
Definition header_need (a : npio_Array) : Z :=
  16 * ((10 + Z.of_nat (List.length (header_text a)) + 15) / 16).

(** Descriptors the round trip is stated for: at most 32 dimensions, all
    present in the buffer and below [2^63], and a supported width. *)
Definition savable (src : npio_Array) : Prop :=
  (dim src <= 32)%nat
  /\ (dim src <= List.length (shape src))%nat
  /\ Forall (fun d => 0 <= d < 2 ^ 63) (firstn (dim src) (shape src))
  /\ supported_width (bit_width src).

(** Flags as the parser sets them: each is 0 or 1, and a floating-point
    type is signed. *)
Definition canonical_flags (a : npio_Array) : Prop :=
  (little_endian a = 0 \/ little_endian a = 1)
  /\ (fortran_order a = 0 \/ fortran_order a = 1)
  /\ (floating_point a = 0 \/ floating_point a = 1)
  /\ (is_signed a = 0 \/ is_signed a = 1)
  /\ (floating_point a = 1 -> is_signed a = 1).

(** The value of a decimal numeral, without wrap-around. *)
Definition decimal (ds : list ascii) : Z :=
  fold_left (fun v c => v * 10 + (byte_val c - 48)) ds 0.

(** The fields of the descriptor that belong to the transport and to the
    prelude, not to the dictionary. *)
Definition transport (a : npio_Array)
  : Z * Z * Z * data_ptr * (Z * list ascii * Z * option (list ascii))
    * (Z * Z * Z) :=
  (major_version a, minor_version a, header_len a, data a,
   (_fd a, _buf a, _buf_size a, _hdr_buf a),
   (_mmapped a, _malloced a, _opened a)).

(** The first [n] groups of [k] bytes, each reversed. *)
Fixpoint reverse_elements (k n : nat) (l : list ascii) : list ascii :=
  match n with
  | O => l
  | S n' => rev (firstn k l) ++ reverse_elements k n' (skipn k l)
  end.

(** The type strings [npio_ph_parse_dtype_] is meant to accept. *)
Definition supported_dtypes : list string :=
  ["<i1"; "<i2"; "<i4"; "<i8"; "<u1"; "<u2"; "<u4"; "<u8";
   "<f1"; "<f2"; "<f4"; "<f8"; ">i1"; ">i2"; ">i4"; ">i8";
   ">u1"; ">u2"; ">u4"; ">u8"; ">f1"; ">f2"; ">f4"; ">f8"]%string.

Definition is_supported_dtype (s : list ascii) : bool :=
  existsb (fun t => list_eqb s (chars t)) supported_dtypes.

(** The template arguments whose type string the loader accepts. *)
Definition supported_type (T : npio.cxx_type) : Prop :=
  match T with
  | npio.T_integral _ n => n = 1 \/ n = 2 \/ n = 4 \/ n = 8
  | _ => True
  end.

Definition sizeof (T : npio.cxx_type) : Z :=
  match T with
  | npio.T_float => 4
  | npio.T_double => 8
  | npio.T_integral _ n => n
  end.

(** The descriptor that [npio::save<T>] fills in before it calls
    [npio_save_fd]. *)
Definition typed_descriptor (hle : bool) (T : npio.cxx_type) (nDim : nat)
  (shp : list Z) (data : data_ptr) (local : npio_Array) : npio_Array :=
  set_data
    (set_bit_width
       (set_kind
          (set_shape (npio_init_array hle local) nDim shp 0)
          (npio.int_of_bool (npio.Traits_is_signed T))
          (npio.int_of_bool (npio.Traits_floating_point T)))
       (npio.int_of_size_t (npio.Traits_bit_width T)))
    data.

(** ** The prelude: [npio_load_header_prelude_] *)

Lemma prelude_bad_magic (cs : bool) (p : list ascii) (a : npio_Array) :
  (6 <= List.length p)%nat -> firstn 6 p <> magic ->
  npio_load_header_prelude_ cs p a = Ret (EINVAL, a, p).
Proof.
  intros Hlen Hne. unfold npio_load_header_prelude_.
  destruct (Nat.ltb_spec (List.length p) 6) as [Hlt | _]; [lia |].
  unfold list_eqb. destruct (list_eq_dec ascii_dec (firstn 6 p) magic) as [E | _].
  - contradiction.
  - reflexivity.
Qed.

Lemma prelude_unsupported_major (cs : bool) (vmaj vmin : ascii)
  (rest : list ascii) (a : npio_Array) :
  char_val cs vmaj <> 1 -> char_val cs vmaj <> 2 ->
  npio_load_header_prelude_ cs (magic ++ vmaj :: vmin :: rest) a
  = Ret (ENOTSUP, set_version a (char_val cs vmaj) (char_val cs vmin), rest).
Proof.
  intros H1 H2. unfold npio_load_header_prelude_.
  change (magic ++ vmaj :: vmin :: rest)
    with (ascii_of_nat 147 :: "N"%char :: "U"%char :: "M"%char :: "P"%char
          :: "Y"%char :: vmaj :: vmin :: rest).
  cbn [List.length Nat.ltb Nat.leb firstn skipn negb].
  replace (list_eqb _ magic) with true by reflexivity.
  cbn [negb major_version set_version].
  destruct (Z.eqb_spec (char_val cs vmaj) 1) as [E | _]; [contradiction |].
  destruct (Z.eqb_spec (char_val cs vmaj) 2) as [E | _]; [contradiction |].
  reflexivity.
Qed.

Lemma char_val_low (cs : bool) (c : ascii) :
  byte_val c < 128 -> char_val cs c = byte_val c.
Proof.
  intros H. unfold char_val.
  destruct (Z.leb_spec 128 (byte_val c)) as [Hge | _]; [lia |].
  now rewrite andb_false_r.
Qed.

Lemma byte_val_range (c : ascii) : 0 <= byte_val c < 256.
Proof.
  unfold byte_val. pose proof (N_ascii_bounded c) as H.
  split; [apply N2Z.is_nonneg | ]. lia.
Qed.

(** With both length bytes below [0x80] the version-1 length is the
    little-endian number. *)
Lemma prelude_v1_low_bytes (cs : bool) (vmin p0 p1 : ascii)
  (rest : list ascii) (a : npio_Array) :
  byte_val p0 < 128 -> byte_val p1 < 128 ->
  npio_load_header_prelude_ cs
    (magic ++ ascii_of_nat 1 :: vmin :: p0 :: p1 :: rest) a
  = Ret (0,
         set_header_len (set_version a 1 (char_val cs vmin))
           (byte_val p0 + 256 * byte_val p1),
         rest).
Proof.
  intros H0 H1. unfold npio_load_header_prelude_.
  change (magic ++ ascii_of_nat 1 :: vmin :: p0 :: p1 :: rest)
    with (ascii_of_nat 147 :: "N"%char :: "U"%char :: "M"%char :: "P"%char
          :: "Y"%char :: ascii_of_nat 1 :: vmin :: p0 :: p1 :: rest).
  cbn [List.length Nat.ltb Nat.leb firstn skipn negb].
  replace (list_eqb _ magic) with true by reflexivity.
  cbn [negb major_version set_version].
  replace (char_val cs (ascii_of_nat 1)) with 1 by (now destruct cs).
  cbn [Z.eqb Pos.eqb].
  rewrite !char_val_low by assumption.
  pose proof (byte_val_range p0). pose proof (byte_val_range p1).
  unfold int_shl, int_add, int_ok, int_min, int_max, bind.
  change (2 ^ 8) with 256.
  destruct (Z.leb_spec (- 2 ^ 31) (byte_val p1 * 256)); [| lia].
  destruct (Z.leb_spec (byte_val p1 * 256) (2 ^ 31 - 1)); [| lia].
  cbn [andb].
  destruct (Z.leb_spec (- 2 ^ 31) (byte_val p0 + byte_val p1 * 256)); [| lia].
  destruct (Z.leb_spec (byte_val p0 + byte_val p1 * 256) (2 ^ 31 - 1)); [| lia].
  cbn [andb]. unfold to_size_t, size_max.
  rewrite Z.mod_small by lia.
  now rewrite (Z.mul_comm (byte_val p1) 256).
Qed.

(** C3: the version-1 header length is meant to be the unsigned
    little-endian number [byte0 + 256 * byte1].  Where plain [char] is
    signed, a length byte with the high bit set is sign-extended: for the
    bytes [0x80 0x00] the decoded length is [2^64 - 128], not [128]. *)
Theorem prelude_v1_high_bit_sign_extended (a : npio_Array) :
  npio_load_header_prelude_ true
    (magic ++ [ascii_of_nat 1; zero; ascii_of_nat 128; zero]) a
  = Ret (0, set_header_len (set_version a 1 0) (2 ^ 64 - 128), [])
  /\ 2 ^ 64 - 128 <> byte_val (ascii_of_nat 128) + 256 * byte_val zero.
Proof.
  split.
  - reflexivity.
  - vm_compute. discriminate.
Qed.

(** ** The shape tuple: [npio_ph_parse_shape_] *)

(** C4: the tuple parser is meant to fail on anything that is not a tuple
    of integers.  It treats a missing integer before any comma as the
    trailing-comma case, so ["(1,,2)"] is accepted and yields the shape
    [[1; 2]]. *)
Theorem parse_shape_accepts_empty_element (cs hle : bool) (a : npio_Array) :
  exists a',
    npio_ph_parse_shape_ cs stale_words (npio_init_array hle a)
      (chars "(1,,2)")
    = Ret (0, a', [])
    /\ dim a' = 2%nat
    /\ firstn (dim a') (shape a') = [1; 2]
    /\ size a' = 2.
Proof.
  destruct cs; (eexists; split; [vm_compute; reflexivity | repeat split]).
Qed.

(** ** The dictionary: [npio_ph_parse_dict_] *)

(** A later ['descr'] or ['fortran_order'] replaces the earlier value. *)
Lemma parse_dict_second_descr_and_order_win (cs hle : bool)
  (a : npio_Array) :
  exists a',
    npio_ph_parse_dict_ cs stale_words (npio_init_array hle a)
      (chars "{'descr': '<f4', 'fortran_order': True, 'descr': '>u2', 'fortran_order': False, } ")
    = Ret (0, a')
    /\ dtype a' = Some (chars ">u2")
    /\ (little_endian a', is_signed a', floating_point a', bit_width a')
       = (0, 0, 0, 16)
    /\ fortran_order a' = 0.
Proof.
  destruct cs; (eexists; split; [vm_compute; reflexivity | repeat split]).
Qed.

(** C5: a later occurrence of a key is meant to replace the earlier one.
    For ['shape'] the parser allocates a new buffer but keeps counting from
    the old [dim]: after two one-element tuples [dim] is 2, [shape[0]] is
    whatever the fresh allocation held (here 1000) and [shape[1]] is the
    second tuple's entry; the second tuple alone gives [dim = 1]. *)
Theorem parse_dict_second_shape_accumulates (cs hle : bool)
  (a : npio_Array) :
  (exists a',
     npio_ph_parse_dict_ cs stale_words (npio_init_array hle a)
       (chars "{'shape': (3,), 'shape': (4,), 'descr': '<f4'} ")
     = Ret (0, a')
     /\ dim a' = 2%nat
     /\ firstn (dim a') (shape a') = [stale_words 0; 4]
     /\ size a' = 4000)
  /\ (exists a',
        npio_ph_parse_dict_ cs stale_words (npio_init_array hle a)
          (chars "{'shape': (4,), 'descr': '<f4'} ")
        = Ret (0, a')
        /\ dim a' = 1%nat
        /\ firstn (dim a') (shape a') = [4]
        /\ size a' = 4).
Proof.
  destruct cs;
    (split; eexists; (split; [vm_compute; reflexivity | repeat split])).
Qed.

(** ** The size check of the mapped strategy *)

(** C6: the mapped branch of [npio_load_data2] is meant to accept a file
    only when the payload the header announces ends exactly at the end of
    the mapping.  The payload size is computed as [size * bit_width / 8] in
    64-bit arithmetic, and the product wraps: a 96-byte file that is all
    header and announces [2^61] one-byte elements passes the check, with
    [data] left pointing at the end of the mapping. *)
Theorem load_data2_mapped_accepts_missing_payload (cs hle : bool) :
  let bytes :=
    npy_v1 "{'descr': '<i1', 'fortran_order': False, 'shape': (2305843009213693952,), }"
      10 [] in
  exists a w a',
    npio_load_header_fd3 cs stale_words (one_file 3 (regular_file bytes)) 3
      (npio_init_array hle zeroed) NPIO_DEFAULT_MAX_DIM
    = Ret (0, a, w)
    /\ _mmapped a = 1 /\ _buf_size a = 96
    /\ dim a = 1%nat /\ firstn (dim a) (shape a) = [2 ^ 61]
    /\ size a = 2 ^ 61 /\ bit_width a = 8
    /\ npio_load_data2 hle stale_words w a 1 = Ret (0, a', w)
    /\ data a' = BufPtr 96
    /\ data_region a' = [].
Proof.
  intros bytes.
  destruct cs, hle;
    (do 3 eexists; split; [vm_compute; reflexivity |];
     repeat split; vm_compute; reflexivity).
Qed.

(** ** The buffered strategy *)

(** C7: the buffered branch of [npio_load_data2] is meant to fail unless
    [read] delivers the whole payload.  On a short read it returns
    [errno], which a short read does not set: with [errno = 0] the call
    reports success.  Here a header announcing four one-byte elements was
    loaded from memory and descriptor 0 delivers two bytes. *)
Theorem load_data2_buffered_short_read_succeeds (cs hle : bool) :
  let bytes :=
    npy_v1 "{'descr': '<i1', 'fortran_order': False, 'shape': (4,), }" 12 [] in
  let w := one_file 0 (pipe (chars "ab")) in
  exists a a' w',
    npio_load_header_mem4 cs stale_words bytes 80 (npio_init_array hle zeroed)
      NPIO_DEFAULT_MAX_DIM
    = Ret (0, a)
    /\ _mmapped a = 0 /\ size a = 4 /\ bit_width a = 8
    /\ npio_load_data2 hle stale_words w a 1 = Ret (0, a', w')
    /\ data a' = OwnPtr (chars "ab" ++ fresh_bytes stale_words 2 2)
    /\ errno w' = 0.
Proof.
  intros bytes w.
  destruct cs, hle;
    (do 3 eexists; split; [vm_compute; reflexivity |];
     repeat split; vm_compute; reflexivity).
Qed.

(** ** The [max_dim] argument of the in-memory path *)

(** C10: [npio_load_header_mem4] and [npio_load_mem4] never consult
    [max_dim]: any two values give the same result, and a header with 33
    dimensions is accepted under the default limit of 32. *)
Theorem load_header_mem4_ignores_max_dim (cs hle : bool) (junk : nat -> Z)
  (w : world) (p : list ascii) (sz : Z) (a : npio_Array) (d1 d2 : Z) :
  npio_load_header_mem4 cs junk p sz a d1
  = npio_load_header_mem4 cs junk p sz a d2
  /\ npio_load_mem4 cs hle junk w p sz a d1
     = npio_load_mem4 cs hle junk w p sz a d2
  /\ exists a',
       npio_load_header_mem4 cs stale_words
         (npy_v1 "{'descr': '<i1', 'fortran_order': False, 'shape': (1, 1, 1, 1, 1, 1, 1, 1, 1, 1, 1, 1, 1, 1, 1, 1, 1, 1, 1, 1, 1, 1, 1, 1, 1, 1, 1, 1, 1, 1, 1, 1, 1, ), }"
            107 [zero])
         273 (npio_init_array hle zeroed) NPIO_DEFAULT_MAX_DIM
       = Ret (0, a')
       /\ dim a' = 33%nat
       /\ firstn (dim a') (shape a') = repeat 1 33.
Proof.
  split; [reflexivity | split; [reflexivity |]].
  destruct cs; (eexists; split; [vm_compute; reflexivity | repeat split]).
Qed.

(** ** Saving, then loading from memory *)

(** C1: the round trip through [npio_load_mem4] does not reproduce the
    payload.  On a little-endian host a 2 x 3 array of [<f4] is saved with
    [npio_save_fd], and the 104 bytes it writes are handed to
    [npio_load_mem4].  The header is parsed from the buffer, but
    [npio_load_header_mem4] leaves [_mmapped] at 0, so [npio_load_data2]
    takes its buffered branch and reads the payload with [read] from
    [array->_fd], which is descriptor 0.  With descriptor 0 closed the load
    fails with [EBADF]; with 24 other bytes waiting on descriptor 0 it
    succeeds and those bytes, not the saved ones, are the payload. *)
Theorem load_mem4_round_trip_reads_descriptor_0 :
  let payload := chars "0123456789abcdefghijklmn" in
  let other := chars "ZYXWVUTSRQPONMLKJIHGFEDC" in
  let src :=
    set_data
      (set_bit_width
         (set_kind (set_shape (npio_init_array true zeroed) 2 [2; 3] 2) 1 1)
         32)
      (OwnPtr payload) in
  exists w bytes,
    npio_save_fd (one_file 3 (regular_file [])) 3 src = Ret (0, w)
    /\ bytes = file_bytes w 3
    /\ List.length bytes = 104%nat
    /\ skipn 80 bytes = payload
    /\ (exists a1 w1,
          npio_load_mem4 true true stale_words w bytes 104
            (npio_init_array true zeroed) NPIO_DEFAULT_MAX_DIM
          = Ret (EBADF, a1, w1))
    /\ (exists a2 w2,
          npio_load_mem4 true true stale_words (one_file 0 (pipe other))
            bytes 104 (npio_init_array true zeroed) NPIO_DEFAULT_MAX_DIM
          = Ret (0, a2, w2)
          /\ loaded_view a2 = (2%nat, [2; 3], (1, 1, 1, 32), 0, other)).
Proof.
  intros payload other src. do 2 eexists.
  split; [vm_compute; reflexivity |].
  split; [reflexivity |].
  split; [vm_compute; reflexivity |].
  split; [vm_compute; reflexivity |].
  split.
  - do 2 eexists. vm_compute. reflexivity.
  - do 2 eexists. split; vm_compute; reflexivity.
Qed.

(** On a little-endian host a big-endian descriptor ([>i4], payload
    ["abcd"]) is saved as it is, and loading the file reverses the payload
    and changes the endianness flag: [npio_load_data] converts to the
    order of the host. *)
Lemma round_trip_fails_for_foreign_endianness :
  let a := one_element 0 0 1 32 (chars "abcd") in
  exists w a' w',
    npio_save_fd (one_file 3 (regular_file [])) 3 a = Ret (0, w)
    /\ npio_load_fd3 true true stale_words
         (one_file 4 (regular_file (file_bytes w 3))) 4
         (npio_init_array true zeroed) NPIO_DEFAULT_MAX_DIM
       = Ret (0, a', w')
    /\ loaded_view a = (1%nat, [1], (0, 0, 1, 32), 0, chars "abcd")
    /\ loaded_view a' = (1%nat, [1], (1, 0, 1, 32), 0, chars "dcba").
Proof.
  intros a. do 3 eexists.
  split; [vm_compute; reflexivity |].
  split; [vm_compute; reflexivity |].
  split; reflexivity.
Qed.

(** ** The header limit of the two strategies *)

(** C2: the two strategies part on a well-formed file whose header is
    longer than the limit.  The file is a version-1 file with a header of
    1798 bytes and the 24 bytes of a 2 x 3 array of [<f4]; the limit for
    [max_dim = 32] is [1024 + 20 * 32 = 1664].  Through a descriptor that
    can be mapped [npio_load_fd3] loads it: [npio_load_header_mem4] never
    looks at [max_dim].  Through a descriptor that cannot be mapped
    [npio_load_header_fd_read_] answers [ERANGE], as the documentation of
    [npio_load_header_fd3] says it will for a header above the limit. *)
Theorem strategies_differ_on_long_header :
  let payload := chars "0123456789abcdefghijklmn" in
  let bytes :=
    npy_v1 "{'descr': '<f4', 'fortran_order': False, 'shape': (2, 3), }" 1738
      payload in
  let a := npio_init_array true zeroed in
  to_size_t (1024 + to_size_t NPIO_DEFAULT_MAX_DIM * 20) = 1664
  /\ exists a1 w1 a2 w2,
    npio_load_fd3 true true stale_words (one_file 3 (regular_file bytes)) 3 a
      NPIO_DEFAULT_MAX_DIM
    = Ret (0, a1, w1)
    /\ header_len a1 = 1798 /\ _mmapped a1 = 1
    /\ loaded_view a1 = (2%nat, [2; 3], (1, 1, 1, 32), 0, payload)
    /\ npio_load_fd3 true true stale_words (one_file 3 (pipe bytes)) 3 a
         NPIO_DEFAULT_MAX_DIM
       = Ret (ERANGE, a2, w2)
    /\ header_len a2 = 1798 /\ _mmapped a2 = 0 /\ data a2 = NullPtr.
Proof.
  intros payload bytes a. split; [reflexivity |].
  do 4 eexists.
  split; [vm_compute; reflexivity |].
  split; [reflexivity |].
  split; [reflexivity |].
  split; [vm_compute; reflexivity |].
  split; [vm_compute; reflexivity |].
  split; [reflexivity |].
  split; reflexivity.
Qed.

(** The buffered strategy on a version-1 file below the limit.  The first
    [read] takes twelve bytes, two more than the prelude of version 1, and
    the second [read] asks for [header_len] bytes after them: the header is
    parsed, and the first two bytes of the payload are consumed with it.
    [npio_load_data2] then gets two bytes fewer than it asks for and
    returns [errno], which is the [ESPIPE] that [lseek] has left.  The
    load fails where the mapped strategy succeeds. *)
Lemma buffered_strategy_consumes_payload :
  let payload := chars "0123456789abcdefghijklmn" in
  let bytes :=
    npy_v1 "{'descr': '<f4', 'fortran_order': False, 'shape': (2, 3), }" 10
      payload in
  let a := npio_init_array true zeroed in
  exists a1 w1 a2 w2 a3 w3,
    npio_load_fd3 true true stale_words (one_file 3 (regular_file bytes)) 3 a
      NPIO_DEFAULT_MAX_DIM
    = Ret (0, a1, w1)
    /\ loaded_view a1 = (2%nat, [2; 3], (1, 1, 1, 32), 0, payload)
    /\ npio_load_header_fd3 true stale_words (one_file 3 (pipe bytes)) 3 a
         NPIO_DEFAULT_MAX_DIM
       = Ret (0, a2, w2)
    /\ loaded_view a2 = (2%nat, [2; 3], (1, 1, 1, 32), 0, [])
    /\ header_len a2 = 70
    /\ npio_load_fd3 true true stale_words (one_file 3 (pipe bytes)) 3 a
         NPIO_DEFAULT_MAX_DIM
       = Ret (ESPIPE, a3, w3)
    /\ data_region a3 = skipn 2 payload ++ fresh_bytes stale_words 22 2.
Proof.
  intros payload bytes a. do 6 eexists.
  split; [vm_compute; reflexivity |].
  split; [vm_compute; reflexivity |].
  split; [vm_compute; reflexivity |].
  split; [vm_compute; reflexivity |].
  split; [reflexivity |].
  split; [vm_compute; reflexivity |].
  vm_compute. reflexivity.
Qed.

(** ** Counterexamples to the claims as stated *)

(** C8 as stated fails: into a buffer of 70 bytes the header of a scalar
    is written with success and ends at offset 70, which is not a multiple
    of 16. *)
Lemma save_header_unaligned_in_odd_buffer :
  exists out,
    npio_save_header_mem 70 (npio_init_array true zeroed) = Ret (0, out)
    /\ List.length out = 70%nat
    /\ Z.of_nat (List.length out) mod 16 <> 0.
Proof.
  eexists. split; [vm_compute; reflexivity |].
  split; [reflexivity | vm_compute; discriminate].
Qed.

(** C9 as stated fails: the endianness character is taken from the
    descriptor, not from the host.  On a little-endian host a descriptor
    marked big-endian is saved with ['>'], and loading that file on the
    same host swaps its bytes. *)
Lemma save_tags_descriptor_not_host :
  let a := one_element 0 0 0 16 (chars "ab") in
  exists hdr w a' w',
    npio_save_header_mem 65536 a = Ret (0, hdr)
    /\ nth_error hdr 21 = Some ">"%char
    /\ npio_save_fd (one_file 3 (regular_file [])) 3 a = Ret (0, w)
    /\ npio_load_fd3 true true stale_words
         (one_file 4 (regular_file (file_bytes w 3))) 4
         (npio_init_array true zeroed) NPIO_DEFAULT_MAX_DIM
       = Ret (0, a', w')
    /\ data_region a' = chars "ba".
Proof.
  intros a. do 4 eexists.
  split; [vm_compute; reflexivity |].
  split; [reflexivity |].
  split; [vm_compute; reflexivity |].
  split; [vm_compute; reflexivity | reflexivity].
Qed.

(** ** Decimal numbers: what [printf] writes, the parser reads back *)

Lemma char_val_digit (cs : bool) (d : Z) :
  0 <= d <= 9 -> char_val cs (digit_char d) = 48 + d.
Proof.
  intros H.
  assert (d = 0 \/ d = 1 \/ d = 2 \/ d = 3 \/ d = 4 \/ d = 5 \/ d = 6
          \/ d = 7 \/ d = 8 \/ d = 9) as C by lia.
  destruct cs; repeat (destruct C as [-> | C]; [reflexivity |]);
    subst; reflexivity.
Qed.

Lemma is_digit_digit_char (cs : bool) (d : Z) :
  0 <= d <= 9 -> is_digit cs (digit_char d) = true.
Proof.
  intros H. unfold is_digit. rewrite char_val_digit by assumption.
  apply andb_true_intro. split; apply Z.leb_le; lia.
Qed.

Lemma print_digits_app (fuel : nat) :
  forall n acc, print_digits fuel n acc = print_digits fuel n [] ++ acc.
Proof.
  induction fuel as [| fuel IH]; intros n acc; cbn [print_digits].
  - reflexivity.
  - destruct (n <? 10); [reflexivity |].
    rewrite (IH (n / 10) (digit_char (n mod 10) :: acc)).
    rewrite (IH (n / 10) [digit_char (n mod 10)]).
    now rewrite <- app_assoc.
Qed.

Lemma print_digits_all_digits (cs : bool) (fuel : nat) :
  forall n, 0 <= n ->
    Forall (fun c => is_digit cs c = true) (print_digits fuel n []).
Proof.
  induction fuel as [| fuel IH]; intros n Hn; cbn [print_digits].
  - constructor.
  - assert (Hd : is_digit cs (digit_char (n mod 10)) = true).
    { apply is_digit_digit_char.
      pose proof (Z.mod_pos_bound n 10 ltac:(lia)). lia. }
    destruct (n <? 10).
    + constructor; [assumption | constructor].
    + rewrite print_digits_app. apply Forall_app. split.
      * apply IH. apply Z.div_pos; lia.
      * constructor; [assumption | constructor].
Qed.

Lemma print_digits_nonempty (fuel : nat) (n : Z) :
  print_digits (S fuel) n [] <> [].
Proof.
  cbn [print_digits]. destruct (n <? 10); [discriminate |].
  rewrite print_digits_app. intros H. apply app_eq_nil in H.
  destruct H as [_ H]. discriminate.
Qed.

Lemma print_digits_length (fuel : nat) :
  forall n, (List.length (print_digits fuel n []) <= fuel)%nat.
Proof.
  induction fuel as [| fuel IH]; intros n; cbn [print_digits].
  - apply Nat.le_refl.
  - destruct (n <? 10); cbn [List.length]; [lia |].
    rewrite print_digits_app, length_app. cbn [List.length].
    specialize (IH (n / 10)). lia.
Qed.

Lemma digits_val_app (cs : bool) (l1 l2 : list ascii) :
  forall v, digits_val cs (l1 ++ l2) v = digits_val cs l2 (digits_val cs l1 v).
Proof.
  induction l1 as [| c l1 IH]; intros v; cbn [digits_val app].
  - reflexivity.
  - apply IH.
Qed.

(** Reading back the digits of [n] gives [n]. *)
Lemma digits_val_print (cs : bool) (fuel : nat) :
  forall n, 0 <= n < 10 ^ Z.of_nat fuel -> n < size_max ->
    digits_val cs (print_digits fuel n []) 0 = n.
Proof.
  induction fuel as [| fuel IH]; intros n Hn Hmax.
  - cbn [print_digits digits_val]. change (10 ^ Z.of_nat 0) with 1 in Hn. lia.
  - cbn [print_digits].
    pose proof (Z.mod_pos_bound n 10 ltac:(lia)) as Hm.
    destruct (Z.ltb_spec n 10) as [Hlt | Hge].
    + cbn [digits_val]. rewrite char_val_digit by lia.
      rewrite Z.mod_small by lia.
      unfold to_size_t. rewrite Z.mod_small; unfold size_max in *; lia.
    + rewrite print_digits_app, digits_val_app.
      rewrite IH.
      * cbn [digits_val]. rewrite char_val_digit by lia.
        unfold to_size_t.
        replace (48 + n mod 10 - 48 + n / 10 * 10) with n
          by (pose proof (Z.div_mod n 10 ltac:(lia)); lia).
        apply Z.mod_small. lia.
      * split; [apply Z.div_pos; lia |].
        apply Z.div_lt_upper_bound; [lia |].
        rewrite Nat2Z.inj_succ, Z.pow_succ_r in Hn by lia. lia.
      * assert (n / 10 <= n) by (apply Z.div_le_upper_bound; lia). lia.
Qed.

Lemma scan_digits_all (cs : bool) (l rest : list ascii) :
  Forall (fun c => is_digit cs c = true) l ->
  match rest with [] => True | c :: _ => is_digit cs c = false end ->
  scan_digits cs (l ++ rest) = (l, rest).
Proof.
  intros Hl Hrest. induction Hl as [| c l Hc Hl IH]; cbn [app scan_digits].
  - destruct rest as [| c rest]; [reflexivity |].
    cbn [scan_digits]. unfold is_digit in Hrest. now rewrite Hrest.
  - unfold is_digit in Hc. rewrite Hc, IH. reflexivity.
Qed.

Lemma skip_spaces_nonspace (cs : bool) (c : ascii) (l : list ascii) :
  isspace (char_val cs c) = false ->
  npio_ph_skip_spaces_ cs (c :: l) = c :: l.
Proof. intros H. cbn [npio_ph_skip_spaces_]. now rewrite H. Qed.

Lemma is_digit_not_space (cs : bool) (c : ascii) :
  is_digit cs c = true -> isspace (char_val cs c) = false.
Proof.
  unfold is_digit, isspace. intros H. apply andb_prop in H.
  destruct H as [H1 H2]. apply Z.leb_le in H1, H2.
  apply orb_false_intro.
  - apply Z.eqb_neq. lia.
  - apply andb_false_intro2. apply Z.leb_gt. lia.
Qed.

(** The text of a dimension below [2^63], as [%ld] prints it. *)
Lemma print_dec_small (d : Z) :
  0 <= d < 2 ^ 63 -> print_dec (to_ssize_t d) = print_digits 20 d [].
Proof.
  intros H. unfold to_ssize_t, size_max.
  rewrite Z.mod_small by lia.
  destruct (Z.ltb_spec d (2 ^ 63)); [| lia].
  unfold print_dec. destruct (Z.ltb_spec d 0); [lia | reflexivity].
Qed.

(** ** The shape buffer *)

Lemma store_word_lt (sh : list Z) :
  forall i v, (i < List.length sh)%nat ->
    store_word sh i v = Some (firstn i sh ++ v :: skipn (S i) sh).
Proof.
  induction sh as [| x sh IH]; intros i v Hi; cbn [List.length] in Hi.
  - lia.
  - destruct i as [| i]; cbn [store_word firstn skipn app].
    + reflexivity.
    + rewrite IH by lia. reflexivity.
Qed.

Lemma to_size_t_mul_l (m d : Z) :
  to_size_t (to_size_t m * d) = to_size_t (m * d).
Proof. unfold to_size_t. apply Z.mul_mod_idemp_l. discriminate. Qed.

Lemma array_size_loop_spec (sh : list Z) :
  forall count i m, (i + count <= List.length sh)%nat ->
    array_size_loop sh i count (to_size_t m)
    = Ret (to_size_t (m * product (firstn count (skipn i sh)))).
Proof.
  induction count as [| count IH]; intros i m Hi; cbn [array_size_loop].
  - cbn [firstn product fold_right]. now rewrite Z.mul_1_r.
  - destruct (nth_error sh i) as [d |] eqn:E.
    + rewrite to_size_t_mul_l, IH by lia.
      apply nth_error_split in E. destruct E as (l1 & l2 & -> & <-).
      assert (E1 : skipn (List.length l1) (l1 ++ d :: l2) = d :: l2).
      { rewrite skipn_app, skipn_all, Nat.sub_diag. reflexivity. }
      assert (E2 : skipn (S (List.length l1)) (l1 ++ d :: l2) = l2).
      { rewrite skipn_app, skipn_all2 by lia.
        replace (S (List.length l1) - List.length l1)%nat with 1%nat by lia.
        reflexivity. }
      rewrite E1, E2. cbn [firstn product fold_right].
      now rewrite Z.mul_assoc.
    + apply nth_error_None in E. lia.
Qed.

Lemma npio_array_size_spec (a : npio_Array) :
  (dim a <= List.length (shape a))%nat ->
  npio_array_size a = Ret (to_size_t (product (firstn (dim a) (shape a)))).
Proof.
  intros H. unfold npio_array_size.
  change 1 with (to_size_t 1) at 1.
  rewrite array_size_loop_spec by lia.
  cbn [skipn]. now rewrite Z.mul_1_l.
Qed.

(** The append when the heap grants the [realloc], or none is made. *)
Lemma shape_append_granted {heap : Heap} (junk : nat -> Z) (a : npio_Array)
  (v : Z) :
  (dim a = _shape_capacity a ->
   grants shape_growth (to_size_t (8 * Z.of_nat (_shape_capacity a * 2)))
   = true) ->
  npio_ph_shape_append_ junk a v
  = let a1 :=
      if Nat.eqb (dim a) (_shape_capacity a)
      then let cap := (_shape_capacity a * 2)%nat in
           set_shape a (dim a)
             (firstn cap (shape a) ++
              fresh_words junk (List.length (shape a))
                (cap - List.length (shape a)))
             cap
      else a in
    match store_word (shape a1) (dim a1) v with
    | Some sh => Ret (0, set_shape a1 (S (dim a1)) sh (_shape_capacity a1))
    | None => Undef
    end.
Proof.
  intros H. unfold npio_ph_shape_append_.
  destruct (Nat.eqb_spec (dim a) (_shape_capacity a)) as [E | NE].
  - cbv zeta. rewrite (H E). reflexivity.
  - reflexivity.
Qed.

Lemma shape_append_ok_granted {heap : Heap} (junk : nat -> Z)
  (a : npio_Array) (v : Z) :
  shape_inv a ->
  (dim a = _shape_capacity a ->
   grants shape_growth (to_size_t (8 * Z.of_nat (_shape_capacity a * 2)))
   = true) ->
  exists sh cap,
    npio_ph_shape_append_ junk a v = Ret (0, set_shape a (S (dim a)) sh cap)
    /\ firstn (S (dim a)) sh = firstn (dim a) (shape a) ++ [v]
    /\ shape_inv (set_shape a (S (dim a)) sh cap).
Proof.
  intros (Hlen & Hdim & Hcap) Hg.
  rewrite shape_append_granted by exact Hg. cbv zeta.
  destruct (Nat.eqb_spec (dim a) (_shape_capacity a)) as [E | NE].
  - cbn [shape dim set_shape _shape_capacity].
    rewrite firstn_all2 by lia.
    rewrite store_word_lt by (rewrite length_app; unfold fresh_words;
                              rewrite length_map, length_seq; lia).
    do 2 eexists. split; [reflexivity |]. split.
    + rewrite firstn_app, firstn_firstn.
      replace (Nat.min (S (dim a)) (dim a)) with (dim a) by lia.
      rewrite length_firstn, length_app.
      replace (S (dim a) - Nat.min (dim a) (List.length (shape a) + _))%nat
        with 1%nat by lia.
      cbn [firstn]. rewrite firstn_app.
      replace (dim a - List.length (shape a))%nat with 0%nat by lia.
      cbn [firstn]. now rewrite app_nil_r.
    + unfold shape_inv. cbn [shape dim set_shape _shape_capacity].
      repeat split; try lia.
      rewrite length_app, length_firstn. cbn [List.length].
      rewrite length_skipn, !length_app. unfold fresh_words.
      rewrite length_map, length_seq. lia.
  - rewrite store_word_lt by lia.
    do 2 eexists. split; [reflexivity |]. split.
    + rewrite firstn_app, firstn_firstn.
      replace (Nat.min (S (dim a)) (dim a)) with (dim a) by lia.
      rewrite length_firstn.
      replace (S (dim a) - Nat.min (dim a) (List.length (shape a)))%nat
        with 1%nat by lia.
      reflexivity.
    + unfold shape_inv. cbn [shape dim set_shape _shape_capacity].
      repeat split; try lia.
      rewrite length_app, length_firstn. cbn [List.length].
      rewrite length_skipn. lia.
Qed.

Lemma shape_append_ok (junk : nat -> Z) (a : npio_Array) (v : Z) :
  shape_inv a ->
  exists sh cap,
    npio_ph_shape_append_ junk a v = Ret (0, set_shape a (S (dim a)) sh cap)
    /\ firstn (S (dim a)) sh = firstn (dim a) (shape a) ++ [v]
    /\ shape_inv (set_shape a (S (dim a)) sh cap).
Proof.
  intros Hinv. apply shape_append_ok_granted; [exact Hinv | reflexivity].
Qed.

(** The append when the buffer is full and the heap refuses to grow it. *)
Lemma shape_append_refused {heap : Heap} (junk : nat -> Z) (a : npio_Array)
  (v : Z) :
  dim a = _shape_capacity a ->
  grants shape_growth (to_size_t (8 * Z.of_nat (_shape_capacity a * 2)))
  = false ->
  npio_ph_shape_append_ junk a v
  = Ret (ENOMEM, set_shape a (dim a) (shape a) (_shape_capacity a * 2)).
Proof.
  intros E Hg. unfold npio_ph_shape_append_.
  rewrite E, Nat.eqb_refl. cbv zeta. rewrite Hg. reflexivity.
Qed.

(** ** Parsing the tuple that [save] writes *)

Lemma parse_shape_loop_unfold {heap : Heap} (cs : bool) (junk : nat -> Z) (fuel : nat)
  (a : npio_Array) (p : list ascii) :
  parse_shape_loop cs junk (S fuel) a p
  = let (ds, p) := scan_digits cs (npio_ph_skip_spaces_ cs p) in
    match p with
    | [] => Ret (EINVAL, a, p)
    | _ =>
        '(err, a) <-
           match ds with
           | [] => Ret (0, a)
           | _ => npio_ph_shape_append_ junk a (digits_val cs ds 0)
           end ;;
        if negb (err =? 0) then Ret (err, a, p) else
        match npio_ph_skip_spaces_ cs p with
        | [] => Ret (EINVAL, a, [])
        | c :: p' =>
            if Ascii.eqb c ","%char then parse_shape_loop cs junk fuel a p'
            else if Ascii.eqb c ")"%char then
              n <- npio_array_size a ;;
              Ret (0, set_size a n, p')
            else Ret (EINVAL, a, c :: p')
        end
    end.
Proof. reflexivity. Qed.

Lemma dims_text_cons (d : Z) (ds : list Z) :
  dims_text (d :: ds)
  = print_dec (to_ssize_t d) ++ ","%char :: " "%char :: dims_text ds.
Proof.
  unfold dims_text. cbn [flat_map]. now rewrite <- app_assoc.
Qed.

(** The dimensions' text, and the parenthesis after it, start with a
    character that is not a space. *)
Lemma skip_spaces_dims (cs : bool) (ds : list Z) (rest : list ascii) :
  Forall (fun d => 0 <= d < 2 ^ 63) ds ->
  npio_ph_skip_spaces_ cs (dims_text ds ++ ")"%char :: rest)
  = dims_text ds ++ ")"%char :: rest.
Proof.
  intros H. destruct H as [| d ds Hd Hds].
  - apply skip_spaces_nonspace. now destruct cs.
  - rewrite dims_text_cons, print_dec_small by assumption.
    pose proof (print_digits_all_digits cs 20 d ltac:(lia)) as Hall.
    pose proof (print_digits_nonempty 19 d) as Hne.
    destruct (print_digits 20 d []) as [| c l]; [contradiction |].
    inversion Hall; subst. cbn [app].
    apply skip_spaces_nonspace. now apply is_digit_not_space.
Qed.

Lemma set_shape_set_shape (a : npio_Array) (d d' : nat) (s s' : list Z)
  (c c' : nat) :
  set_shape (set_shape a d s c) d' s' c' = set_shape a d' s' c'.
Proof. reflexivity. Qed.

Lemma parse_shape_loop_dims (cs : bool) (junk : nat -> Z) (ds : list Z) :
  forall fuel a p rest,
    shape_inv a -> (List.length ds < fuel)%nat ->
    Forall (fun d => 0 <= d < 2 ^ 63) ds ->
    npio_ph_skip_spaces_ cs p = dims_text ds ++ ")"%char :: rest ->
    exists sh cap,
      parse_shape_loop cs junk fuel a p
      = Ret (0,
             set_size (set_shape a (dim a + List.length ds) sh cap)
               (to_size_t (product (firstn (dim a) (shape a) ++ ds))),
             rest)
      /\ firstn (dim a + List.length ds) sh = firstn (dim a) (shape a) ++ ds
      /\ shape_inv (set_shape a (dim a + List.length ds) sh cap).
Proof.
  induction ds as [| d ds IH]; intros fuel a p rest Hinv Hfuel Hds Hp;
    (destruct fuel as [| fuel]; [cbn [List.length] in Hfuel; lia |]);
    rewrite parse_shape_loop_unfold, Hp.
  - cbn [dims_text flat_map app].
    assert (Hs : scan_digits cs (")"%char :: rest) = ([], ")"%char :: rest)).
    { apply (scan_digits_all cs [] (")"%char :: rest));
        [constructor | now destruct cs]. }
    rewrite Hs.
    cbn [bind]. change (negb (0 =? 0)) with false. cbv iota.
    rewrite skip_spaces_nonspace by (now destruct cs).
    change (Ascii.eqb ")" ",") with false.
    change (Ascii.eqb ")" ")") with true. cbv iota.
    destruct Hinv as (Hlen & Hdim & Hcap).
    rewrite npio_array_size_spec by lia. cbn [bind].
    exists (shape a), (_shape_capacity a).
    cbn [List.length]. rewrite Nat.add_0_r, app_nil_r.
    split; [| split].
    + destruct a; reflexivity.
    + reflexivity.
    + destruct a; cbn in *. repeat split; assumption.
  - inversion Hds as [| d' ds' Hd Hds']; subst.
    rewrite dims_text_cons, print_dec_small by assumption.
    rewrite <- app_assoc. cbn [app].
    rewrite scan_digits_all;
      [| apply print_digits_all_digits; lia | now destruct cs].
    pose proof (print_digits_nonempty 19 d) as Hne.
    pose proof (digits_val_print cs 20 d
                  ltac:(change (10 ^ Z.of_nat 20) with 100000000000000000000; lia)
                  ltac:(unfold size_max; lia)) as Hval.
    destruct (print_digits 20 d []) as [| c l] eqn:E; [contradiction |].
    rewrite Hval.
    destruct (shape_append_ok junk a d Hinv) as (sh1 & cap1 & Happ & Hfirst & Hinv1).
    rewrite Happ. cbn [bind]. change (negb (0 =? 0)) with false. cbv iota.
    rewrite skip_spaces_nonspace by (now destruct cs).
    change (Ascii.eqb "," ",") with true. cbv iota.
    destruct (IH fuel (set_shape a (S (dim a)) sh1 cap1)
                (" "%char :: dims_text ds ++ ")"%char :: rest) rest Hinv1)
      as (sh & cap & Hrun & Hsh & Hinv2).
    + cbn [List.length] in Hfuel. lia.
    + assumption.
    + cbn [npio_ph_skip_spaces_].
      replace (isspace (char_val cs " ")) with true by (now destruct cs).
      now apply skip_spaces_dims.
    + exists sh, cap.
      cbn [dim shape set_shape] in Hrun, Hsh, Hinv2.
      rewrite set_shape_set_shape in Hrun, Hinv2.
      rewrite Hfirst, <- app_assoc in Hrun, Hsh. cbn [app] in Hrun, Hsh.
      cbn [List.length].
      replace (dim a + S (List.length ds))%nat
        with (S (dim a) + List.length ds)%nat by lia.
      auto.
Qed.

Lemma dims_text_length (ds : list Z) :
  (List.length ds <= List.length (dims_text ds))%nat.
Proof.
  induction ds as [| d ds IH]; [apply Nat.le_refl |].
  rewrite dims_text_cons, length_app. cbn [List.length]. lia.
Qed.

(** [npio_ph_parse_shape_] on the tuple that [save] writes: the entries
    are appended after the [dim] entries the array is already assumed to
    have, in a fresh buffer. *)
Lemma parse_shape_dims (cs : bool) (junk : nat -> Z) (ds : list Z)
  (a : npio_Array) (rest : list ascii) :
  (dim a <= 8)%nat ->
  Forall (fun d => 0 <= d < 2 ^ 63) ds ->
  exists sh cap,
    npio_ph_parse_shape_ cs junk a
      ("("%char :: dims_text ds ++ ")"%char :: rest)
    = Ret (0,
           set_size (set_shape a (dim a + List.length ds) sh cap)
             (to_size_t
                (product (firstn (dim a) (fresh_words junk 0 8) ++ ds))),
           rest)
    /\ firstn (dim a + List.length ds) sh
       = firstn (dim a) (fresh_words junk 0 8) ++ ds
    /\ (dim a + List.length ds <= List.length sh)%nat.
Proof.
  intros Hdim Hds. unfold npio_ph_parse_shape_.
  change (negb (Ascii.eqb "(" "(")) with false. cbv iota.
  destruct (parse_shape_loop_dims cs junk ds
              (S (List.length (dims_text ds ++ ")"%char :: rest)))
              (set_shape a (dim a) (fresh_words junk 0 8) 8)
              (dims_text ds ++ ")"%char :: rest) rest)
    as (sh & cap & Hrun & Hsh & Hinv).
  - unfold shape_inv. cbn [shape dim set_shape _shape_capacity].
    unfold fresh_words. rewrite length_map, length_seq. lia.
  - rewrite length_app. pose proof (dims_text_length ds). lia.
  - assumption.
  - now apply skip_spaces_dims.
  - exists sh, cap. cbn [dim shape set_shape] in Hrun, Hsh, Hinv.
    rewrite set_shape_set_shape in Hrun, Hinv.
    split; [exact Hrun | split; [exact Hsh |]].
    destruct Hinv as (Hlen & Hd & _). cbn [shape dim set_shape _shape_capacity] in Hlen, Hd.
    lia.
Qed.

(** ** Parsing the dictionary that [save] writes *)

Lemma parse_dict_loop_unfold {heap : Heap} (cs : bool) (junk : nat -> Z) (fuel : nat)
  (a : npio_Array) (p : list ascii) :
  parse_dict_loop cs junk (S fuel) a p
  = match npio_ph_skip_spaces_ cs p with
    | [] => Ret (EINVAL, a)
    | open_quote :: p =>
        if Ascii.eqb open_quote "}"%char then Ret (0, a) else
        if negb (npio_ph_is_quote_ open_quote) then Ret (EINVAL, a) else
        match parse_key p with
        | None => Ret (EINVAL, a)
        | Some (key, p) =>
            match p with
            | [] => Ret (EINVAL, a)
            | c :: p =>
                if negb (Ascii.eqb c open_quote) then Ret (EINVAL, a) else
                match npio_ph_skip_spaces_ cs p with
                | [] => Ret (EINVAL, a)
                | c :: p =>
                    if negb (Ascii.eqb c ":"%char) then Ret (EINVAL, a) else
                    match npio_ph_skip_spaces_ cs p with
                    | [] => Ret (EINVAL, a)
                    | p => after_value cs junk fuel (parse_value cs junk key a p)
                    end
                end
            end
        end
    end.
Proof. reflexivity. Qed.

(** One [key: value] pair whose key is in double quotes and is followed
    by a colon, a space, and a value that starts with [c]. *)
Lemma parse_dict_loop_pair (cs : bool) (junk : nat -> Z) (fuel : nat)
  (a : npio_Array) (p kname v : list ascii) (key : dict_key) (c : ascii) :
  npio_ph_skip_spaces_ cs p
  = dquote :: kname ++ dquote :: ":"%char :: " "%char :: c :: v ->
  parse_key (kname ++ dquote :: ":"%char :: " "%char :: c :: v)
  = Some (key, dquote :: ":"%char :: " "%char :: c :: v) ->
  isspace (char_val cs c) = false ->
  parse_dict_loop cs junk (S fuel) a p
  = after_value cs junk fuel (parse_value cs junk key a (c :: v)).
Proof.
  intros Hp Hkey Hc.
  rewrite parse_dict_loop_unfold, Hp.
  change (Ascii.eqb dquote "}") with false.
  change (npio_ph_is_quote_ dquote) with true.
  cbv iota. change (negb true) with false. cbv iota.
  rewrite Hkey. cbv iota beta.
  rewrite Ascii.eqb_refl. change (negb true) with false. cbv iota.
  rewrite skip_spaces_nonspace by (now destruct cs).
  change (Ascii.eqb ":" ":") with true. change (negb true) with false.
  cbv iota.
  assert (Hs : npio_ph_skip_spaces_ cs (" "%char :: c :: v) = c :: v).
  { cbn [npio_ph_skip_spaces_].
    replace (isspace (char_val cs " ")) with true by (now destruct cs).
    now rewrite Hc. }
  rewrite Hs. reflexivity.
Qed.

Lemma scan_until_stop (q : ascii) (s rest : list ascii) :
  Forall (fun c => Ascii.eqb c q = false) s ->
  scan_until q (s ++ q :: rest) = (s, q :: rest).
Proof.
  intros H. induction H as [| c s Hc Hs IH]; cbn [app scan_until].
  - now rewrite Ascii.eqb_refl.
  - now rewrite Hc, IH.
Qed.

Lemma parse_value_descr (cs : bool) (junk : nat -> Z) (a : npio_Array)
  (s rest : list ascii) :
  Forall (fun c => Ascii.eqb c dquote = false) s ->
  parse_value cs junk k_descr a (dquote :: s ++ dquote :: rest)
  = Ret (0, set_dtype a (Some s), rest).
Proof.
  intros H. cbn [parse_value].
  change (npio_ph_is_quote_ dquote) with true.
  change (negb true) with false. cbv iota.
  now rewrite scan_until_stop.
Qed.

Lemma after_value_comma (cs : bool) (junk : nat -> Z) (fuel : nat)
  (a : npio_Array) (p : list ascii) :
  after_value cs junk fuel (Ret (0, a, ","%char :: p))
  = parse_dict_loop cs junk fuel a p.
Proof.
  unfold after_value. cbn [bind].
  change (negb (0 =? 0)) with false. cbv iota.
  rewrite skip_spaces_nonspace by (now destruct cs).
  reflexivity.
Qed.

Lemma after_value_close (cs : bool) (junk : nat -> Z) (fuel : nat)
  (a : npio_Array) (p : list ascii) :
  after_value cs junk (S fuel) (Ret (0, a, "}"%char :: p)) = Ret (0, a).
Proof.
  unfold after_value. cbn [bind].
  change (negb (0 =? 0)) with false. cbv iota.
  rewrite skip_spaces_nonspace by (now destruct cs).
  change (Ascii.eqb "}" ",") with false. cbv iota.
  rewrite parse_dict_loop_unfold.
  rewrite skip_spaces_nonspace by (now destruct cs).
  reflexivity.
Qed.

(** The first pair: ["descr": "c0c1c2",]. *)
Lemma parse_dict_loop_descr (cs : bool) (junk : nat -> Z) (fuel : nat)
  (a : npio_Array) (s rest : list ascii) :
  Forall (fun c => Ascii.eqb c dquote = false) s ->
  parse_dict_loop cs junk (S fuel) a
    (dquote :: chars "descr" ++ dquote :: ":"%char :: " "%char :: dquote
     :: s ++ dquote :: ","%char :: rest)
  = parse_dict_loop cs junk fuel (set_dtype a (Some s)) rest.
Proof.
  intros Hs.
  rewrite (parse_dict_loop_pair cs junk fuel a _ (chars "descr")
             (s ++ dquote :: ","%char :: rest) k_descr dquote).
  - now rewrite parse_value_descr, after_value_comma.
  - apply skip_spaces_nonspace. now destruct cs.
  - reflexivity.
  - now destruct cs.
Qed.

(** The second pair: [ "fortran_order": True,] or [False]. *)
Lemma parse_dict_loop_fortran (cs : bool) (junk : nat -> Z) (fuel : nat)
  (a : npio_Array) (b : bool) (rest : list ascii) :
  parse_dict_loop cs junk (S fuel) a
    (" "%char :: dquote :: chars "fortran_order" ++ dquote :: ":"%char
     :: " "%char :: (if b then chars "True" else chars "False")
     ++ ","%char :: rest)
  = parse_dict_loop cs junk fuel
      (set_fortran_order a (if b then 1 else 0)) rest.
Proof.
  destruct b.
  - rewrite (parse_dict_loop_pair cs junk fuel a _ (chars "fortran_order")
               (chars "rue" ++ ","%char :: rest) k_fortran_order "T"%char).
    + change (parse_value cs junk k_fortran_order a
                ("T"%char :: chars "rue" ++ ","%char :: rest))
        with (Ret (0, set_fortran_order a 1, ","%char :: rest)).
      apply after_value_comma.
    + cbn [npio_ph_skip_spaces_].
      replace (isspace (char_val cs " ")) with true by (now destruct cs).
      apply skip_spaces_nonspace. now destruct cs.
    + reflexivity.
    + now destruct cs.
  - rewrite (parse_dict_loop_pair cs junk fuel a _ (chars "fortran_order")
               (chars "alse" ++ ","%char :: rest) k_fortran_order "F"%char).
    + change (parse_value cs junk k_fortran_order a
                ("F"%char :: chars "alse" ++ ","%char :: rest))
        with (Ret (0, set_fortran_order a 0, ","%char :: rest)).
      apply after_value_comma.
    + cbn [npio_ph_skip_spaces_].
      replace (isspace (char_val cs " ")) with true by (now destruct cs).
      apply skip_spaces_nonspace. now destruct cs.
    + reflexivity.
    + now destruct cs.
Qed.

(** The third pair: [ "shape": (...)] followed by the closing brace. *)
Lemma parse_dict_loop_shape (cs : bool) (junk : nat -> Z)
  (a : npio_Array) (ds : list Z) (tail : list ascii) :
  (dim a <= 8)%nat ->
  Forall (fun d => 0 <= d < 2 ^ 63) ds ->
  exists sh cap,
    (forall fuel,
       parse_dict_loop cs junk (S (S fuel)) a
         (" "%char :: dquote :: chars "shape" ++ dquote :: ":"%char
          :: " "%char :: "("%char
          :: dims_text ds ++ ")"%char :: "}"%char :: tail)
       = Ret (0,
              set_size (set_shape a (dim a + List.length ds) sh cap)
                (to_size_t
                   (product (firstn (dim a) (fresh_words junk 0 8) ++ ds)))))
    /\ firstn (dim a + List.length ds) sh
       = firstn (dim a) (fresh_words junk 0 8) ++ ds
    /\ (dim a + List.length ds <= List.length sh)%nat.
Proof.
  intros Hdim Hds.
  destruct (parse_shape_dims cs junk ds a ("}"%char :: tail) Hdim Hds)
    as (sh & cap & Hrun & Hsh & Hlen).
  exists sh, cap. split; [| split; assumption].
  intros fuel.
  rewrite (parse_dict_loop_pair cs junk (S fuel) a _ (chars "shape")
             (dims_text ds ++ ")"%char :: "}"%char :: tail) k_shape "("%char).
  - cbn [parse_value]. rewrite Hrun. apply after_value_close.
  - cbn [npio_ph_skip_spaces_].
    replace (isspace (char_val cs " ")) with true by (now destruct cs).
    apply skip_spaces_nonspace. now destruct cs.
  - reflexivity.
  - now destruct cs.
Qed.

(** The whole dictionary, with the three characters of the dtype and the
    order flag as parameters: the parse ends in the dtype parser applied
    to the array with the fields of the three keys stored. *)
Lemma parse_dict_text (cs : bool) (junk : nat -> Z) (a : npio_Array)
  (c0 c1 c2 : ascii) (b : bool) (ds : list Z) (tail : list ascii) :
  Ascii.eqb c0 dquote = false -> Ascii.eqb c1 dquote = false ->
  Ascii.eqb c2 dquote = false ->
  dim a = 0%nat ->
  Forall (fun d => 0 <= d < 2 ^ 63) ds ->
  exists sh cap,
    npio_ph_parse_dict_ cs junk a
      ("{"%char :: dquote :: chars "descr" ++ dquote :: ":"%char :: " "%char
       :: dquote :: [c0; c1; c2] ++ dquote :: ","%char
       :: " "%char :: dquote :: chars "fortran_order" ++ dquote :: ":"%char
       :: " "%char :: (if b then chars "True" else chars "False")
       ++ ","%char
       :: " "%char :: dquote :: chars "shape" ++ dquote :: ":"%char
       :: " "%char :: "("%char :: dims_text ds ++ ")"%char :: "}"%char :: tail)
    = npio_ph_parse_dtype_
        (set_size
           (set_shape
              (set_fortran_order (set_dtype a (Some [c0; c1; c2]))
                 (if b then 1 else 0))
              (List.length ds) sh cap)
           (to_size_t (product ds)))
    /\ firstn (List.length ds) sh = ds
    /\ (List.length ds <= List.length sh)%nat.
Proof.
  intros H0 H1 H2 Hdim Hds.
  destruct (parse_dict_loop_shape cs junk
              (set_fortran_order (set_dtype a (Some [c0; c1; c2]))
                 (if b then 1 else 0))
              ds tail)
    as (sh & cap & Hrun & Hsh & Hlen).
  { cbn [dim set_fortran_order set_dtype]. lia. }
  { assumption. }
  cbn [dim set_fortran_order set_dtype] in Hrun, Hsh, Hlen.
  rewrite Hdim in Hrun, Hsh, Hlen. cbn [Nat.add firstn app] in Hrun, Hsh, Hlen.
  exists sh, cap. split; [| split; assumption].
  unfold npio_ph_parse_dict_.
  change (negb (Ascii.eqb "{" "{")) with false. cbv iota.
  cbn [List.length app chars list_ascii_of_string].
  pose proof (fun fuel a rest =>
    parse_dict_loop_descr cs junk fuel a [c0; c1; c2] rest
      ltac:(repeat constructor; assumption)) as Ed.
  pose proof (fun fuel a rest =>
    parse_dict_loop_fortran cs junk fuel a b rest) as Ef.
  cbn [List.length app chars list_ascii_of_string] in Ed, Ef, Hrun.
  rewrite Ed, Ef, Hrun.
  reflexivity.
Qed.

Lemma print_dec_width (w : Z) :
  supported_width w ->
  exists c, print_dec (Z.quot w 8) = [c]
            /\ (c = "1"%char \/ c = "2"%char \/ c = "4"%char \/ c = "8"%char)
            /\ w = 8 * (byte_val c - 48).
Proof.
  intros [-> | [-> | [-> | ->]]]; eexists; (split; [reflexivity |]);
    (split; [tauto | reflexivity]).
Qed.

(** [npio_ph_parse_dict_] on the dictionary that [npio_save_header_mem]
    writes for the descriptor [src], followed by anything. *)
Lemma parse_dict_saved (cs : bool) (junk : nat -> Z) (src a : npio_Array)
  (ds : list Z) (tail : list ascii) :
  supported_width (bit_width src) ->
  dim a = 0%nat ->
  Forall (fun d => 0 <= d < 2 ^ 63) ds ->
  exists a',
    npio_ph_parse_dict_ cs junk a
      (descr_field src ++ fortran_field src ++ shape_open
       ++ dims_text ds ++ ")"%char :: "}"%char :: tail)
    = Ret (0, a')
    /\ dim a' = List.length ds
    /\ firstn (dim a') (shape a') = ds
    /\ (dim a' <= List.length (shape a'))%nat
    /\ size a' = to_size_t (product ds)
    /\ little_endian a' = (if little_endian src =? 0 then 0 else 1)
    /\ floating_point a' = (if floating_point src =? 0 then 0 else 1)
    /\ is_signed a'
       = (if floating_point src =? 0
          then if is_signed src =? 0 then 0 else 1 else 1)
    /\ bit_width a' = bit_width src
    /\ fortran_order a' = (if fortran_order src =? 0 then 0 else 1)
    /\ major_version a' = major_version a
    /\ header_len a' = header_len a
    /\ _mmapped a' = _mmapped a
    /\ _buf a' = _buf a
    /\ _buf_size a' = _buf_size a
    /\ data a' = data a.
Proof.
  intros Hw Hdim Hds.
  destruct (print_dec_width _ Hw) as (c2 & Hc2 & Hcase & Hbw).
  unfold descr_field, fortran_field, shape_open. rewrite Hc2.
  set (c0 := if negb (little_endian src =? 0) then "<"%char else ">"%char).
  set (c1 := if negb (floating_point src =? 0) then "f"%char
             else if negb (is_signed src =? 0) then "i"%char else "u"%char).
  rewrite <- !app_assoc.
  destruct (parse_dict_text cs junk a c0 c1 c2 (negb (fortran_order src =? 0))
              ds tail) as (sh & cap & Hrun & Hsh & Hlen);
    try assumption.
  { subst c0. now destruct (little_endian src =? 0). }
  { subst c1. now destruct (floating_point src =? 0), (is_signed src =? 0). }
  { now destruct Hcase as [-> | [-> | [-> | ->]]]. }
  cbn [app chars list_ascii_of_string] in Hrun |- *.
  rewrite Hrun. clear Hrun.
  rewrite Hbw. subst c0 c1.
  destruct (little_endian src =? 0), (floating_point src =? 0),
    (is_signed src =? 0), (fortran_order src =? 0);
    destruct Hcase as [-> | [-> | [-> | ->]]];
    (eexists; split; [reflexivity |]);
    cbn [dim shape size set_size set_shape set_bit_width set_kind
         set_little_endian set_fortran_order set_dtype little_endian
         floating_point is_signed bit_width fortran_order major_version
         header_len _mmapped _buf _buf_size data _fd negb];
    repeat split; assumption.
Qed.

(** ** What [npio_save_header_mem] writes *)

Lemma firstn_skipn_cons (A : Type) (sh : list A) (i count : nat) (d : A) :
  nth_error sh i = Some d ->
  firstn (S count) (skipn i sh) = d :: firstn count (skipn (S i) sh).
Proof.
  intros E. apply nth_error_split in E. destruct E as (l1 & l2 & -> & <-).
  assert (E1 : skipn (List.length l1) (l1 ++ d :: l2) = d :: l2).
  { rewrite skipn_app, skipn_all, Nat.sub_diag. reflexivity. }
  assert (E2 : skipn (S (List.length l1)) (l1 ++ d :: l2) = l2).
  { rewrite skipn_app, skipn_all2 by lia.
    replace (S (List.length l1) - List.length l1)%nat with 1%nat by lia.
    reflexivity. }
  now rewrite E1, E2.
Qed.

Lemma dims_text_cons_app (d : Z) (ds : list Z) :
  dims_text (d :: ds)
  = (print_dec (to_ssize_t d) ++ chars ", ") ++ dims_text ds.
Proof. reflexivity. Qed.

Lemma save_shape_loop_inv (sz : Z) (sh : list Z) :
  forall count i body b,
    (i <= List.length sh)%nat ->
    save_shape_loop sz sh i count body = Ret (0, b) ->
    (i + count <= List.length sh)%nat
    /\ b = body ++ dims_text (firstn count (skipn i sh))
    /\ (count <> 0%nat -> 10 + Z.of_nat (List.length b) < sz - 3).
Proof.
  induction count as [| count IH]; intros i body b Hi0 H;
    cbn [save_shape_loop] in H.
  - injection H as <-. cbn [firstn dims_text flat_map].
    rewrite app_nil_r. repeat split; [lia | congruence].
  - destruct (nth_error sh i) as [d |] eqn:E; [| discriminate].
    destruct (Z.leb_spec (sz - 3)
                (10 + Z.of_nat
                        (List.length
                           (body ++ print_dec (to_ssize_t d) ++ chars ", "))))
      as [Hge | Hlt].
    + discriminate.
    + assert (Hi : (i < List.length sh)%nat)
        by (apply nth_error_Some; congruence).
      apply IH in H; [| lia]. destruct H as (Hlen & -> & Hb).
      rewrite (firstn_skipn_cons _ sh i count d E), dims_text_cons_app.
      rewrite <- !app_assoc.
      repeat split; [lia |].
      intros _. destruct count as [| count'].
      * cbn [firstn dims_text flat_map] in *.
        rewrite !app_nil_r in *. lia.
      * rewrite <- !app_assoc in Hb. apply Hb. discriminate.
Qed.

Lemma save_shape_loop_ok (sz : Z) (sh : list Z) :
  forall count i body,
    (i + count <= List.length sh)%nat ->
    10 + Z.of_nat
           (List.length (body ++ dims_text (firstn count (skipn i sh))))
    < sz - 3 ->
    save_shape_loop sz sh i count body
    = Ret (0, body ++ dims_text (firstn count (skipn i sh))).
Proof.
  induction count as [| count IH]; intros i body Hlen Hfit;
    cbn [save_shape_loop].
  - cbn [firstn dims_text flat_map]. now rewrite app_nil_r.
  - destruct (nth_error sh i) as [d |] eqn:E.
    + rewrite (firstn_skipn_cons _ sh i count d E), dims_text_cons_app in *.
      rewrite app_assoc in Hfit.
      destruct (Z.leb_spec (sz - 3)
                  (10 + Z.of_nat
                          (List.length
                             (body ++ print_dec (to_ssize_t d) ++ chars ", "))))
        as [Hge | Hlt].
      * rewrite length_app in Hfit. lia.
      * rewrite IH by (try lia; assumption).
        now rewrite <- !app_assoc.
    + apply nth_error_None in E. lia.
Qed.

Lemma save_shape_loop_erange (sz : Z) (sh : list Z) :
  forall count i body,
    (i + count <= List.length sh)%nat -> count <> 0%nat ->
    sz - 3
    <= 10 + Z.of_nat
              (List.length (body ++ dims_text (firstn count (skipn i sh)))) ->
    exists b, save_shape_loop sz sh i count body = Ret (ERANGE, b).
Proof.
  induction count as [| count IH]; intros i body Hlen Hne Hbig;
    [congruence |].
  cbn [save_shape_loop].
  destruct (nth_error sh i) as [d |] eqn:E.
  - rewrite (firstn_skipn_cons _ sh i count d E), dims_text_cons_app in Hbig.
    destruct (Z.leb_spec (sz - 3)
                (10 + Z.of_nat
                        (List.length
                           (body ++ print_dec (to_ssize_t d) ++ chars ", "))))
      as [Hge | Hlt].
    + eexists. reflexivity.
    + destruct count as [| count'].
      * cbn [firstn dims_text flat_map] in Hbig.
        rewrite app_nil_r in Hbig. lia.
      * apply IH; [lia | discriminate |].
        now rewrite <- app_assoc.
  - apply nth_error_None in E. lia.
Qed.

Lemma pad_loop_spec (room : nat) :
  forall body,
    pad_loop room body
    = body ++ repeat " "%char (Z.to_nat (Z.of_nat room mod 16)).
Proof.
  induction room as [| room IH]; intros body.
  - cbn. now rewrite app_nil_r.
  - cbn [pad_loop].
    rewrite Z.rem_opp_l, Z.rem_mod_nonneg by lia.
    pose proof (Z.mod_pos_bound (Z.of_nat (S room)) 16 ltac:(lia)) as B1.
    pose proof (Z.mod_pos_bound (Z.of_nat room) 16 ltac:(lia)) as B2.
    pose proof (Z.div_mod (Z.of_nat (S room)) 16 ltac:(lia)) as D1.
    pose proof (Z.div_mod (Z.of_nat room) 16 ltac:(lia)) as D2.
    destruct (Z.eqb_spec (- (Z.of_nat (S room) mod 16)) 0) as [E | NE];
      cbn [negb].
    + replace (Z.of_nat (S room) mod 16) with 0 by lia.
      cbn. now rewrite app_nil_r.
    + rewrite IH, <- app_assoc. f_equal.
      replace (Z.to_nat (Z.of_nat (S room) mod 16))
        with (S (Z.to_nat (Z.of_nat room mod 16))) by lia.
      reflexivity.
Qed.

Lemma repeat_snoc (A : Type) (x : A) (n : nat) :
  x :: repeat x n = repeat x n ++ [x].
Proof.
  induction n as [| n IH]; [reflexivity |].
  cbn [repeat app]. now rewrite <- IH.
Qed.

(** The end of [npio_save_header_mem]: padding, the alignment test, and
    the newline, applied to the text [pre ++ ")} "]. *)
Lemma save_finish (sz : Z) (pre : list ascii) :
  10 + Z.of_nat (List.length (pre ++ chars ")} ")) <= sz ->
  let room := sz - 10 - Z.of_nat (List.length (pre ++ chars ")} ")) in
  let body := pad_loop (Z.to_nat room) (pre ++ chars ")} ") in
  Z.rem (10 + Z.of_nat (List.length body) - sz) 16 = 0
  /\ removelast body ++ [newline]
     = pre ++ ")"%char :: "}"%char
           :: repeat " "%char (Z.to_nat (room mod 16)) ++ [newline].
Proof.
  intros Hfit room body. subst body.
  rewrite pad_loop_spec, Z2Nat.id by (subst room; lia).
  pose proof (Z.mod_pos_bound room 16 ltac:(lia)) as B.
  pose proof (Z.div_mod room 16 ltac:(lia)) as D.
  split.
  - rewrite length_app, repeat_length, Nat2Z.inj_add, Z2Nat.id by lia.
    replace (10 + (Z.of_nat (List.length (pre ++ chars ")} "))
                   + room mod 16) - sz)
      with ((- (room / 16)) * 16) by (subst room; lia).
    apply Z.rem_mul. discriminate.
  - rewrite <- app_assoc.
    change (chars ")} " ++ repeat " "%char (Z.to_nat (room mod 16)))
      with (")"%char :: "}"%char
            :: " "%char :: repeat " "%char (Z.to_nat (room mod 16))).
    rewrite repeat_snoc.
    change (pre ++ ")"%char :: "}"%char
            :: repeat " "%char (Z.to_nat (room mod 16)) ++ [" "%char])
      with (pre ++ (")"%char :: "}"%char
                    :: repeat " "%char (Z.to_nat (room mod 16)))
                ++ [" "%char]).
    rewrite app_assoc, removelast_last, <- app_assoc.
    reflexivity.
Qed.

Lemma header_text_flat (a : npio_Array) :
  ((descr_field a ++ fortran_field a) ++ shape_open)
  ++ dims_text (firstn (dim a) (shape a))
  = descr_field a ++ fortran_field a ++ shape_open
    ++ dims_text (firstn (dim a) (shape a)).
Proof. now rewrite <- !app_assoc. Qed.

(** When [npio_save_header_mem] succeeds, what it wrote is
    [saved_header], and the text fitted with room for the terminating NUL
    of the last [sprintf]. *)
Lemma save_header_mem_inv (sz : Z) (a : npio_Array) (out : list ascii) :
  npio_save_header_mem sz a = Ret (0, out) ->
  64 <= sz
  /\ (dim a <= List.length (shape a))%nat
  /\ 10 + Z.of_nat (List.length (header_text a)) < sz
  /\ out = saved_header sz a.
Proof.
  unfold npio_save_header_mem, emit, ERANGE. cbn [app List.length].
  destruct (Z.ltb_spec sz 64) as [| Hsz]; [absurd_ret |].
  do 3 (leb_case sz; cbn [bind]; [| absurd_ret]).
  destruct (save_shape_loop sz (shape a) 0 (dim a)
              ((descr_field a ++ fortran_field a) ++ shape_open))
    as [[err b] | |] eqn:EL; cbn [bind]; try absurd_ret.
  destruct (Z.eqb_spec err 0) as [-> | NE]; cbn [negb];
    [| intros Hret; injection Hret as Hret _; congruence].
  apply save_shape_loop_inv in EL; [| lia].
  destruct EL as (Hdim & -> & _). cbn [skipn] in *.
  rewrite header_text_flat.
  set (pre := descr_field a ++ fortran_field a ++ shape_open
              ++ dims_text (firstn (dim a) (shape a))).
  leb_case sz; cbn [bind]; [| absurd_ret].
  assert (Htext : header_text a = pre ++ chars ")} ").
  { unfold header_text, pre. now rewrite <- !app_assoc. }
  assert (Hfit' : 10 + Z.of_nat (List.length (pre ++ chars ")} ")) <= sz).
  { rewrite length_app, Nat2Z.inj_add. lia. }
  destruct (save_finish sz pre Hfit') as (Hrem & Hbody).
  change (ascii_of_nat 10) with newline.
  rewrite Hrem, Hbody. cbn [Z.eqb negb].
  intros Hret.
  apply (f_equal (fun r => match r with Ret (_, o) => o | _ => [] end)) in Hret.
  cbv beta iota in Hret. subst out.
  repeat split; try lia.
  - rewrite Htext, length_app, Nat2Z.inj_add. lia.
  - unfold saved_header, saved_body, pad_count. rewrite Htext.
    unfold pre. rewrite <- !app_assoc. reflexivity.
Qed.

Lemma save_header_mem_ok (sz : Z) (a : npio_Array) :
  64 <= sz ->
  (dim a <= List.length (shape a))%nat ->
  10 + Z.of_nat (List.length (header_text a)) < sz ->
  npio_save_header_mem sz a = Ret (0, saved_header sz a).
Proof.
  intros Hsz Hdim Hfit.
  set (pre := descr_field a ++ fortran_field a ++ shape_open
              ++ dims_text (firstn (dim a) (shape a))).
  assert (Htext : header_text a = pre ++ chars ")} ").
  { unfold header_text, pre. now rewrite <- !app_assoc. }
  assert (Hlen : Z.of_nat (List.length (header_text a))
                 = Z.of_nat (List.length (descr_field a))
                   + Z.of_nat (List.length (fortran_field a))
                   + Z.of_nat (List.length shape_open)
                   + Z.of_nat (List.length
                                 (dims_text (firstn (dim a) (shape a))))
                   + 3).
  { unfold header_text. rewrite !length_app. cbn [List.length chars list_ascii_of_string]. lia. }
  unfold npio_save_header_mem, emit. cbn [app List.length].
  destruct (Z.ltb_spec sz 64); [lia |].
  do 3 (leb_case sz; cbn [bind]; [| rewrite ?length_app in *; lia]).
  rewrite save_shape_loop_ok; cbn [skipn].
  - cbn [bind]. change (negb (0 =? 0)) with false. cbv iota.
    rewrite header_text_flat. fold pre.
    assert (Hpre : Z.of_nat (List.length (header_text a))
                   = Z.of_nat (List.length pre) + 3).
    { rewrite Htext, length_app. cbn [List.length chars list_ascii_of_string]. lia. }
    leb_case sz; cbn [bind];
      [| cbn [List.length chars list_ascii_of_string] in *; lia].
    assert (Hfit' : 10 + Z.of_nat (List.length (pre ++ chars ")} ")) <= sz).
    { rewrite <- Htext. lia. }
    destruct (save_finish sz pre Hfit') as (Hrem & Hbody).
    change (ascii_of_nat 10) with newline.
    rewrite Hrem, Hbody. cbn [Z.eqb negb].
    unfold saved_header, saved_body, pad_count. rewrite Htext.
    unfold pre. rewrite <- !app_assoc. reflexivity.
  - lia.
  - rewrite header_text_flat. fold pre.
    rewrite Htext, length_app in Hfit.
    cbn [List.length chars list_ascii_of_string] in Hfit. lia.
Qed.

(** ** Lengths of the pieces of the header *)

Lemma descr_field_length (a : npio_Array) :
  supported_width (bit_width a) -> List.length (descr_field a) = 17%nat.
Proof.
  intros Hw. destruct (print_dec_width _ Hw) as (c & Hc & _).
  unfold descr_field. rewrite Hc. reflexivity.
Qed.

Lemma fortran_field_length (a : npio_Array) :
  (23 <= List.length (fortran_field a) <= 24)%nat.
Proof.
  unfold fortran_field.
  destruct (negb (fortran_order a =? 0)); cbn; lia.
Qed.

Lemma shape_open_length : List.length shape_open = 10%nat.
Proof. reflexivity. Qed.

Lemma header_text_length (a : npio_Array) :
  List.length (header_text a)
  = (List.length (descr_field a) + List.length (fortran_field a) + 10
     + List.length (dims_text (firstn (dim a) (shape a))) + 3)%nat.
Proof.
  unfold header_text. rewrite !length_app, shape_open_length.
  cbn [List.length chars list_ascii_of_string]. lia.
Qed.

Lemma dims_text_bound (ds : list Z) :
  Forall (fun d => 0 <= d < 2 ^ 63) ds ->
  (List.length (dims_text ds) <= 22 * List.length ds)%nat.
Proof.
  induction 1 as [| d ds Hd Hds IH]; [cbn; lia |].
  rewrite dims_text_cons_app, !length_app, print_dec_small by assumption.
  pose proof (print_digits_length 20 d).
  cbn [List.length chars list_ascii_of_string]. lia.
Qed.

Lemma saved_header_length (sz : Z) (a : npio_Array) :
  10 + Z.of_nat (List.length (header_text a)) <= sz ->
  Z.of_nat (List.length (saved_header sz a))
  = sz - 16 * ((sz - 10 - Z.of_nat (List.length (header_text a))) / 16).
Proof.
  intros Hfit. unfold saved_header, saved_body, pad_count.
  set (room := sz - 10 - Z.of_nat (List.length (header_text a))).
  pose proof (Z.mod_pos_bound room 16 ltac:(lia)) as B.
  pose proof (Z.div_mod room 16 ltac:(lia)) as D.
  assert (Hh := header_text_length a).
  cbn [List.length app]. unfold magic.
  cbn [List.length app chars list_ascii_of_string].
  rewrite !length_app. cbn [List.length].
  rewrite length_app, repeat_length. cbn [List.length].
  rewrite shape_open_length.
  subst room. lia.
Qed.

Lemma saved_header_ends_with_newline (sz : Z) (a : npio_Array) :
  exists front, saved_header sz a = front ++ [newline].
Proof.
  unfold saved_header, saved_body.
  eexists (magic ++ [ascii_of_nat 1; zero] ++ [_; _] ++ descr_field a
           ++ fortran_field a ++ shape_open
           ++ dims_text (firstn (dim a) (shape a))
           ++ ")"%char :: "}"%char :: repeat " "%char (pad_count sz a)).
  rewrite <- !app_assoc. reflexivity.
Qed.

(** ** Alignment of the serialised header *)

(** C8, amended: when the destination size is a multiple of 16, a
    successful [npio_save_header_mem] has written [saved_header]: the
    prelude with the header length in bytes 8 and 9, the dictionary,
    spaces, and a final newline, ending at a multiple of 16 within the
    buffer.  For a descriptor with a supported width and [dim] shape
    entries, a buffer smaller than the padded header gives [ERANGE]. *)
Theorem save_header_aligned (sz : Z) (a : npio_Array) :
  sz mod 16 = 0 ->
  (forall out,
     npio_save_header_mem sz a = Ret (0, out) ->
     out = saved_header sz a
     /\ Z.of_nat (List.length out) mod 16 = 0
     /\ Z.of_nat (List.length out) <= sz
     /\ Z.of_nat (List.length out) = header_need a
     /\ exists front, out = front ++ [newline])
  /\ (supported_width (bit_width a) ->
      (dim a <= List.length (shape a))%nat ->
      sz < header_need a ->
      npio_save_header_mem sz a = Ret (ERANGE, [])).
Proof.
  intros Hsz.
  pose proof (Z.div_mod sz 16 ltac:(lia)) as Dsz.
  set (L := 10 + Z.of_nat (List.length (header_text a))).
  pose proof (Z.mod_pos_bound (L + 15) 16 ltac:(lia)) as BL.
  pose proof (Z.div_mod (L + 15) 16 ltac:(lia)) as DL.
  split.
  - intros out H. apply save_header_mem_inv in H.
    destruct H as (H64 & Hdim & Hfit & ->).
    assert (Hlen := saved_header_length sz a ltac:(lia)).
    set (room := sz - 10 - Z.of_nat (List.length (header_text a))) in *.
    pose proof (Z.mod_pos_bound room 16 ltac:(lia)) as B.
    pose proof (Z.div_mod room 16 ltac:(lia)) as D.
    split; [reflexivity |]. rewrite Hlen.
    split; [| split; [| split]].
    + replace (sz - 16 * (room / 16)) with ((sz / 16 - room / 16) * 16)
        by lia.
      apply Z.mod_mul. discriminate.
    + assert (0 <= room / 16) by (apply Z.div_pos; subst room; lia). lia.
    + unfold header_need. fold L.
      assert (sz - 16 * (room / 16) = L + (room mod 16))
        by (subst room L; lia).
      assert (E : (L + 15) / 16 = sz / 16 - room / 16).
      { symmetry. apply Z.div_unique with (r := 15 - room mod 16); lia. }
      rewrite E. lia.
    + apply saved_header_ends_with_newline.
  - intros Hw Hdim Hneed. unfold header_need in Hneed. fold L in Hneed.
    unfold npio_save_header_mem.
    destruct (Z.ltb_spec sz 64) as [| H64]; [reflexivity |].
    assert (HL : sz < L) by lia.
    assert (Hd := descr_field_length a Hw).
    assert (Hf := fortran_field_length a).
    assert (Hh := header_text_length a).
    assert (Hne : dim a <> 0%nat).
    { intros E. rewrite E in Hh. cbn [firstn dims_text flat_map List.length] in Hh.
      subst L. lia. }
    unfold emit. cbn [app List.length].
    do 3 (leb_case sz; cbn [bind];
          [| rewrite ?length_app, ?shape_open_length in *; lia]).
    destruct (save_shape_loop_erange sz (shape a) (dim a) 0
                ((descr_field a ++ fortran_field a) ++ shape_open))
      as (b & Hb); [lia | assumption | |].
    + cbn [skipn]. rewrite !length_app, shape_open_length. subst L. lia.
    + rewrite Hb. reflexivity.
Qed.

(** [save_header_aligned] at a buffer of 128 bytes and a 2 x 3 array. *)
Lemma save_header_aligned_witness :
  let a := set_shape (npio_init_array true zeroed) 2 [2; 3] 2 in
  128 mod 16 = 0
  /\ (forall out,
        npio_save_header_mem 128 a = Ret (0, out) ->
        out = saved_header 128 a
        /\ Z.of_nat (List.length out) mod 16 = 0
        /\ Z.of_nat (List.length out) <= 128
        /\ Z.of_nat (List.length out) = header_need a
        /\ exists front, out = front ++ [newline]).
Proof.
  intros a. split; [reflexivity |].
  exact (proj1 (save_header_aligned 128 a eq_refl)).
Defined.

(** ** Writing to a descriptor *)

(** A [write] at the end of a file whose script is empty appends all the
    bytes. *)
Lemma sys_write_all (w : world) (fd : Z) (f : file) (bytes : list ascii) :
  fds w fd = Some f -> f_script f = [] ->
  f_pos f = List.length (f_bytes f) ->
  sys_write w fd bytes
  = (Z.of_nat (List.length bytes),
     set_file w fd
       (mkFile (f_bytes f ++ bytes) (List.length (f_bytes f ++ bytes))
          (f_seekable f) (f_mappable f) [])).
Proof.
  intros Hfd Hs Hp. unfold sys_write. rewrite Hfd, Hs, Hp.
  rewrite firstn_all, Nat.sub_diag, skipn_all2 by lia.
  cbn [repeat app tl]. rewrite app_nil_r, length_app. reflexivity.
Qed.

Lemma fds_set_file (w : world) (fd : Z) (f : file) :
  fds (set_file w fd f) fd = Some f.
Proof. cbn [fds set_file]. now rewrite Z.eqb_refl. Qed.

Lemma to_size_t_range (z : Z) : 0 <= to_size_t z < 2 ^ 64.
Proof. unfold to_size_t, size_max. apply Z.mod_pos_bound. lia. Qed.

Lemma memsize_range (a : npio_Array) (sz : Z) :
  npio_array_memsize a = Ret sz -> 0 <= sz < 2 ^ 61.
Proof.
  unfold npio_array_memsize.
  destruct (npio_array_size a) as [n | |]; cbn [bind]; try discriminate.
  intros H. injection H as <-.
  pose proof (to_size_t_range (n * to_size_t (bit_width a))) as R.
  split.
  - apply Z.div_pos; lia.
  - apply Z.div_lt_upper_bound; lia.
Qed.

Lemma to_ssize_t_small (z : Z) : 0 <= z < 2 ^ 63 -> to_ssize_t z = z.
Proof.
  intros H. unfold to_ssize_t, size_max. rewrite Z.mod_small by lia.
  destruct (Z.ltb_spec z (2 ^ 63)); lia.
Qed.

(** [npio_save_fd] on a sink that accepts everything. *)
Lemma save_fd_ok (w : world) (fd : Z) (f : file) (a : npio_Array)
  (hdr : list ascii) (sz : Z) :
  fds w fd = Some f -> f_script f = [] ->
  f_pos f = List.length (f_bytes f) ->
  npio_save_header_mem 65536 a = Ret (0, hdr) ->
  npio_array_memsize a = Ret sz ->
  sz <= Z.of_nat (List.length (data_region a)) ->
  exists w' f',
    npio_save_fd w fd a = Ret (0, w')
    /\ fds w' fd = Some f'
    /\ f_bytes f' = f_bytes f ++ hdr ++ firstn (Z.to_nat sz) (data_region a).
Proof.
  intros Hfd Hs Hp Hhdr Hsz Hdata.
  pose proof (memsize_range a sz Hsz) as R.
  unfold npio_save_fd. rewrite Hhdr. cbn [bind].
  change (negb (0 =? 0)) with false. cbv iota.
  rewrite (sys_write_all w fd f hdr Hfd Hs Hp).
  rewrite Z.ltb_irrefl. rewrite Hsz. cbn [bind].
  rewrite to_ssize_t_small by lia.
  destruct (Z.ltb_spec sz 0); [lia |].
  unfold data_bytes.
  destruct (Z.leb_spec sz (Z.of_nat (List.length (data_region a)))); [| lia].
  erewrite (sys_write_all _ fd _ _ (fds_set_file w fd _));
    [| reflexivity | reflexivity].
  cbn [f_bytes f_seekable f_mappable].
  rewrite length_firstn.
  replace (Z.of_nat (Nat.min (Z.to_nat sz) (List.length (data_region a))))
    with sz by lia.
  rewrite Z.eqb_refl. cbn [negb].
  do 2 eexists. split; [reflexivity |]. split; [apply fds_set_file |].
  cbn [f_bytes]. now rewrite <- app_assoc.
Qed.

Lemma saved_header_tag (sz : Z) (a : npio_Array) :
  nth_error (saved_header sz a) 21
  = Some (if little_endian a =? 0 then ">"%char else "<"%char).
Proof.
  unfold saved_header, saved_body, descr_field.
  destruct (little_endian a =? 0); reflexivity.
Qed.

(** The branch that locates the payload changes [data] and nothing else
    of the descriptor. *)
Lemma locate_data_sets_data {heap : Heap} (junk : nat -> Z) (w : world)
  (a : npio_Array) (r : option Z) (a' : npio_Array) (w' : world) :
  locate_data junk w a = Ret (r, a', w') -> exists d, a' = set_data a d.
Proof.
  unfold locate_data.
  destruct (negb (_mmapped a =? 0)).
  - destruct (npio_array_memsize a) as [m | |]; cbn [bind]; try discriminate.
    destruct (negb (to_size_t (data_offset a + m) =? _buf_size a));
      intros H; injection H as <- <- <-.
    + exists (data a). destruct a; reflexivity.
    + eexists. reflexivity.
  - destruct (to_ssize_t (to_size_t (size a * to_size_t (bit_width a)) / 8) <? 0).
    { intros H; injection H as <- <- <-.
      exists (data a). destruct a; reflexivity. }
    destruct (negb (grants payload_buffer _)).
    { intros H; injection H as <- <- <-. eexists. reflexivity. }
    destruct (sys_read w (_fd a)
                (to_size_t (size a * to_size_t (bit_width a)) / 8))
      as [[nr got] w1].
    destruct (negb (nr =? _)); intros H; injection H as <- <- <-;
      eexists; reflexivity.
Qed.

(** When the descriptor's flag is the host's, [npio_load_data2] does the
    same with and without the request to swap. *)
Lemma load_data2_no_swap {heap : Heap} (hle : bool) (junk : nat -> Z)
  (w : world) (a : npio_Array) (swap_bytes : Z) :
  little_endian a = (if hle then 1 else 0) ->
  npio_load_data2 hle junk w a swap_bytes = npio_load_data2 hle junk w a 0.
Proof.
  intros Hle. unfold npio_load_data2.
  destruct (negb (data_offset a mod 16 =? 0)); [reflexivity |].
  destruct (locate_data junk w a) as [[[r a'] w'] | |] eqn:E; cbn [bind];
    try reflexivity.
  destruct r as [code |]; [reflexivity |].
  apply locate_data_sets_data in E. destruct E as (d & ->).
  cbn [little_endian set_data]. rewrite Hle, Z.eqb_refl.
  cbn [negb]. now rewrite !andb_false_r.
Qed.

(** ** Saving does not swap *)

(** C9, amended: [npio_save_fd] writes the header and then the payload
    bytes as they are in memory.  The endianness character of the header
    is that of the descriptor's [little_endian] field, which
    [npio_init_array] sets to the host's; for a descriptor with the host's
    endianness [npio_load_data2] does no swap. *)
Theorem save_fd_payload_unchanged (hle : bool) (w : world) (fd : Z)
  (f : file) (a : npio_Array) (hdr : list ascii) (sz : Z) :
  fds w fd = Some f -> f_script f = [] ->
  f_pos f = List.length (f_bytes f) ->
  npio_save_header_mem 65536 a = Ret (0, hdr) ->
  npio_array_memsize a = Ret sz ->
  sz <= Z.of_nat (List.length (data_region a)) ->
  (exists w' f',
     npio_save_fd w fd a = Ret (0, w')
     /\ fds w' fd = Some f'
     /\ f_bytes f' = f_bytes f ++ hdr ++ firstn (Z.to_nat sz) (data_region a))
  /\ nth_error hdr 21
     = Some (if little_endian a =? 0 then ">"%char else "<"%char)
  /\ little_endian (npio_init_array hle a) = (if hle then 1 else 0)
  /\ (forall junk w1 a1 swap_bytes,
        little_endian a1 = (if hle then 1 else 0) ->
        npio_load_data2 hle junk w1 a1 swap_bytes
        = npio_load_data2 hle junk w1 a1 0).
Proof.
  intros Hfd Hs Hp Hhdr Hsz Hdata.
  split; [now apply (save_fd_ok w fd f a hdr sz) |].
  split.
  { apply save_header_mem_inv in Hhdr.
    destruct Hhdr as (_ & _ & _ & ->). apply saved_header_tag. }
  split; [reflexivity |].
  intros junk w1 a1 swap_bytes. apply load_data2_no_swap.
Qed.

(** [save_fd_payload_unchanged] for a little-endian [<i2] element saved
    to an empty file. *)
Lemma save_fd_payload_unchanged_witness :
  let a := one_element 1 0 1 16 (chars "ab") in
  let f := regular_file [] in
  exists hdr,
    npio_save_header_mem 65536 a = Ret (0, hdr)
    /\ exists w' f',
         npio_save_fd (one_file 3 f) 3 a = Ret (0, w')
         /\ fds w' 3 = Some f'
         /\ f_bytes f' = hdr ++ chars "ab".
Proof.
  intros a f.
  assert (Hhdr : npio_save_header_mem 65536 a
                 = Ret (0, saved_header 65536 a))
    by (vm_compute; reflexivity).
  exists (saved_header 65536 a). split; [exact Hhdr |].
  exact (proj1 (save_fd_payload_unchanged true (one_file 3 f) 3 f a
                  (saved_header 65536 a) 2 eq_refl eq_refl eq_refl Hhdr
                  eq_refl ltac:(vm_compute; discriminate))).
Defined.

(** ** Loading what was saved *)

Lemma byte_val_byte_of (z : Z) : byte_val (byte_of z) = z mod 256.
Proof.
  unfold byte_val, byte_of.
  pose proof (Z.mod_pos_bound z 256 ltac:(lia)) as B.
  rewrite N_ascii_embedding by lia.
  lia.
Qed.

(** The version-1 length when both length bytes are read as they are. *)
Lemma prelude_v1_plain_bytes (cs : bool) (vmin p0 p1 : ascii)
  (rest : list ascii) (a : npio_Array) :
  char_val cs p0 = byte_val p0 -> char_val cs p1 = byte_val p1 ->
  npio_load_header_prelude_ cs
    (magic ++ ascii_of_nat 1 :: vmin :: p0 :: p1 :: rest) a
  = Ret (0,
         set_header_len (set_version a 1 (char_val cs vmin))
           (byte_val p0 + 256 * byte_val p1),
         rest).
Proof.
  intros H0 H1. unfold npio_load_header_prelude_.
  change (magic ++ ascii_of_nat 1 :: vmin :: p0 :: p1 :: rest)
    with (ascii_of_nat 147 :: "N"%char :: "U"%char :: "M"%char :: "P"%char
          :: "Y"%char :: ascii_of_nat 1 :: vmin :: p0 :: p1 :: rest).
  cbn [List.length Nat.ltb Nat.leb firstn skipn negb].
  replace (list_eqb _ magic) with true by reflexivity.
  cbn [negb major_version set_version].
  replace (char_val cs (ascii_of_nat 1)) with 1 by (now destruct cs).
  cbn [Z.eqb Pos.eqb].
  rewrite H0, H1.
  pose proof (byte_val_range p0). pose proof (byte_val_range p1).
  unfold int_shl, int_add, int_ok, int_min, int_max, bind.
  change (2 ^ 8) with 256.
  destruct (Z.leb_spec (- 2 ^ 31) (byte_val p1 * 256)); [| lia].
  destruct (Z.leb_spec (byte_val p1 * 256) (2 ^ 31 - 1)); [| lia].
  cbn [andb].
  destruct (Z.leb_spec (- 2 ^ 31) (byte_val p0 + byte_val p1 * 256)); [| lia].
  destruct (Z.leb_spec (byte_val p0 + byte_val p1 * 256) (2 ^ 31 - 1)); [| lia].
  cbn [andb]. unfold to_size_t, size_max.
  rewrite Z.mod_small by lia.
  now rewrite (Z.mul_comm (byte_val p1) 256).
Qed.

Lemma char_val_plain (cs : bool) (c : ascii) :
  cs = false \/ byte_val c < 128 -> char_val cs c = byte_val c.
Proof.
  intros [-> | H]; [reflexivity | now apply char_val_low].
Qed.

(** The prelude that [save] writes for a header of [hl] bytes. *)
Lemma prelude_saved (cs : bool) (hl : Z) (rest : list ascii)
  (a : npio_Array) :
  0 <= hl < 32768 ->
  cs = false \/ hl mod 256 < 128 ->
  npio_load_header_prelude_ cs
    (magic ++ [ascii_of_nat 1; zero]
     ++ [byte_of (Z.land hl 255); byte_of (Z.shiftr hl 8)] ++ rest) a
  = Ret (0, set_header_len (set_version a 1 0) hl, rest).
Proof.
  intros Hhl Hlow.
  change 255 with (Z.ones 8).
  rewrite Z.land_ones, Z.shiftr_div_pow2 by lia.
  change (2 ^ 8) with 256.
  pose proof (Z.mod_pos_bound hl 256 ltac:(lia)) as B.
  pose proof (Z.div_mod hl 256 ltac:(lia)) as D.
  assert (Hq : 0 <= hl / 256 < 128).
  { split; [apply Z.div_pos; lia | apply Z.div_lt_upper_bound; lia]. }
  cbn [app].
  rewrite prelude_v1_plain_bytes.
  - rewrite !byte_val_byte_of.
    rewrite Z.mod_mod by lia.
    rewrite (Z.mod_small (hl / 256)) by lia.
    replace (char_val cs zero) with 0 by (now destruct cs).
    replace (hl mod 256 + 256 * (hl / 256)) with hl by lia.
    reflexivity.
  - apply char_val_plain. rewrite byte_val_byte_of, Z.mod_mod by lia.
    assumption.
  - apply char_val_plain. right.
    rewrite byte_val_byte_of, Z.mod_small by lia. lia.
Qed.

Lemma header_text_bound (src : npio_Array) :
  savable src -> 10 + Z.of_nat (List.length (header_text src)) <= 768.
Proof.
  intros (Hd & Hlen & Hds & Hw).
  rewrite header_text_length, (descr_field_length src Hw).
  pose proof (fortran_field_length src).
  pose proof (dims_text_bound _ Hds) as B.
  rewrite length_firstn in B. lia.
Qed.

Lemma saved_header_length_aligned (sz : Z) (a : npio_Array) :
  sz mod 16 = 0 ->
  10 + Z.of_nat (List.length (header_text a)) <= sz ->
  Z.of_nat (List.length (saved_header sz a)) = header_need a.
Proof.
  intros Hsz Hfit. rewrite saved_header_length by assumption.
  unfold header_need.
  set (L := 10 + Z.of_nat (List.length (header_text a))) in *.
  set (room := sz - 10 - Z.of_nat (List.length (header_text a))).
  pose proof (Z.div_mod sz 16 ltac:(lia)) as Dsz.
  pose proof (Z.mod_pos_bound room 16 ltac:(lia)) as B.
  pose proof (Z.div_mod room 16 ltac:(lia)) as D.
  assert (E : (L + 15) / 16 = sz / 16 - room / 16).
  { symmetry. apply Z.div_unique with (r := 15 - room mod 16);
      subst room L; lia. }
  rewrite E. lia.
Qed.

Lemma saved_header_split (sz : Z) (a : npio_Array) :
  saved_header sz a
  = magic ++ [ascii_of_nat 1; zero]
    ++ [byte_of (Z.land (Z.of_nat (List.length (saved_body sz a))) 255);
        byte_of (Z.shiftr (Z.of_nat (List.length (saved_body sz a))) 8)]
    ++ saved_body sz a
  /\ Z.of_nat (List.length (saved_header sz a))
     = 10 + Z.of_nat (List.length (saved_body sz a)).
Proof.
  split; [reflexivity |].
  unfold saved_header. rewrite !length_app. cbn [List.length magic chars list_ascii_of_string]. lia.
Qed.

Lemma header_need_range (src : npio_Array) :
  savable src -> 16 <= header_need src <= 768 /\ header_need src mod 16 = 0.
Proof.
  intros H. pose proof (header_text_bound src H) as B.
  unfold header_need.
  set (L := 10 + Z.of_nat (List.length (header_text src))) in *.
  pose proof (Z.div_mod (L + 15) 16 ltac:(lia)) as D.
  pose proof (Z.mod_pos_bound (L + 15) 16 ltac:(lia)) as M.
  assert (10 <= L) by (subst L; lia).
  repeat split; try lia.
  rewrite Z.mul_comm. apply Z.mod_mul. discriminate.
Qed.

(** The window [[p, end)] that [npio_load_header_mem4] hands to the parser
    when the header is followed by the payload. *)
Lemma header_window (b p : list ascii) :
  (if Z.of_nat (List.length b) <? Z.of_nat (List.length (b ++ p))
   then firstn (Z.to_nat (Z.of_nat (List.length b))) (b ++ p)
   else b ++ p)
  = b.
Proof.
  rewrite length_app.
  destruct (Z.ltb_spec (Z.of_nat (List.length b))
              (Z.of_nat (List.length b + List.length p))) as [Hlt | Hge].
  - rewrite Nat2Z.id, firstn_app, firstn_all, Nat.sub_diag.
    cbn [firstn]. apply app_nil_r.
  - destruct p as [| c p]; [apply app_nil_r |].
    cbn [List.length] in Hge. lia.
Qed.

(** [npio_load_header_mem4] on a saved file recovers the descriptor. *)
Lemma load_header_mem4_saved (cs : bool) (junk : nat -> Z)
  (src a : npio_Array) (payload : list ascii) (max_dim : Z) :
  savable src ->
  cs = false \/ (header_need src - 10) mod 256 < 128 ->
  dim a = 0%nat -> _mmapped a <> 0 ->
  Z.of_nat (List.length payload) < 2 ^ 62 ->
  exists a',
    npio_load_header_mem4 cs junk (saved_header 65536 src ++ payload)
      (Z.of_nat (List.length (saved_header 65536 src ++ payload))) a max_dim
    = Ret (0, a')
    /\ dim a' = dim src
    /\ firstn (dim a') (shape a') = firstn (dim src) (shape src)
    /\ (dim a' <= List.length (shape a'))%nat
    /\ size a' = to_size_t (product (firstn (dim src) (shape src)))
    /\ little_endian a' = (if little_endian src =? 0 then 0 else 1)
    /\ floating_point a' = (if floating_point src =? 0 then 0 else 1)
    /\ is_signed a'
       = (if floating_point src =? 0
          then if is_signed src =? 0 then 0 else 1 else 1)
    /\ bit_width a' = bit_width src
    /\ fortran_order a' = (if fortran_order src =? 0 then 0 else 1)
    /\ major_version a' = 1
    /\ header_len a' = header_need src - 10
    /\ _mmapped a' = _mmapped a
    /\ _buf a' = _buf a
    /\ _buf_size a' = _buf_size a.
Proof.
  intros Hsrc Hlow Hdim Hmm Hpay.
  pose proof (header_text_bound src Hsrc) as HL.
  pose proof (header_need_range src Hsrc) as (Hneed & _).
  pose proof (saved_header_length_aligned 65536 src eq_refl ltac:(lia)) as Hlen.
  destruct (saved_header_split 65536 src) as (Hsplit & Hlen2).
  assert (Hhl : Z.of_nat (List.length (saved_body 65536 src))
                = header_need src - 10) by lia.
  destruct Hsrc as (Hd & Hsh & Hds & Hw).
  unfold npio_load_header_mem4.
  assert (Hsz : to_size_t
                  (Z.of_nat (List.length (saved_header 65536 src ++ payload)))
                = Z.of_nat (List.length (saved_header 65536 src ++ payload))).
  { unfold to_size_t, size_max. apply Z.mod_small.
    rewrite length_app, Nat2Z.inj_add. lia. }
  rewrite Hsz.
  destruct (Z.ltb_spec
              (Z.of_nat (List.length (saved_header 65536 src ++ payload))) 16)
    as [Hbad | _].
  { rewrite length_app, Nat2Z.inj_add in Hbad. lia. }
  rewrite Z.ltb_irrefl, Nat2Z.id, firstn_all.
  destruct (Z.eqb_spec (_mmapped a) 0) as [E | _]; [contradiction |].
  unfold saved_header. cbv zeta. rewrite <- !app_assoc.
  rewrite prelude_saved by (rewrite ?Hhl; lia || assumption).
  cbn [bind]. change (negb (0 =? 0)) with false. cbv iota.
  cbn [header_len set_header_len].
  destruct (Z.leb_spec (2 ^ 63) (Z.of_nat (List.length (saved_body 65536 src))))
    as [Hbad | _]; [lia |].
  rewrite header_window.
  destruct (parse_dict_saved cs junk src
              (set_header_len (set_version a 1 0)
                 (Z.of_nat (List.length (saved_body 65536 src))))
              (firstn (dim src) (shape src))
              (repeat " "%char (pad_count 65536 src) ++ [newline])
              Hw Hdim Hds)
    as (a' & Hrun & Hdim' & Hshape & Hle & Hsize & H1 & H2 & H3 & H4 & H5
        & H6 & H7 & H8 & H9 & H10 & _).
  cbn [major_version header_len _mmapped _buf _buf_size
       set_header_len set_version] in H6, H7, H8, H9, H10.
  rewrite Hhl in H7.
  exists a'. unfold saved_body in *. rewrite Hrun.
  rewrite Hdim', length_firstn, Nat.min_l by lia.
  rewrite Hdim', length_firstn, Nat.min_l in Hshape, Hle by lia.
  repeat split; assumption.
Qed.

(** [npio_load_header_fd3] on a file that can be mapped: the whole file is
    mapped and the header is loaded from the mapping. *)
Lemma load_header_fd3_mapped (cs : bool) (junk : nat -> Z) (w : world)
  (fd : Z) (f : file) (a : npio_Array) (max_dim : Z) :
  fds w fd = Some f -> f_seekable f = true -> f_mappable f = true ->
  f_bytes f <> [] ->
  npio_load_header_fd3 cs junk w fd a max_dim
  = '(err, a') <-
      npio_load_header_mem4 cs junk (f_bytes f)
        (Z.of_nat (List.length (f_bytes f)))
        (set_buf
           (set_mmapped (if _opened a =? 0 then set_fd a fd else a) 1)
           (f_bytes f) (Z.of_nat (List.length (f_bytes f))))
        max_dim ;;
    Ret (err, a',
         set_file w fd
           (mkFile (f_bytes f) (List.length (f_bytes f)) (f_seekable f)
              (f_mappable f) (f_script f))).
Proof.
  intros Hfd Hseek Hmap Hne.
  unfold npio_load_header_fd3, sys_lseek_end. rewrite Hfd, Hseek.
  destruct (Z.ltb_spec (Z.of_nat (List.length (f_bytes f))) 0); [lia |].
  unfold sys_mmap. rewrite fds_set_file. cbn [f_mappable f_bytes].
  destruct (Z.leb_spec (Z.of_nat (List.length (f_bytes f))) 0) as [Hz | _].
  { destruct (f_bytes f); [contradiction | cbn [List.length] in Hz; lia]. }
  rewrite Hmap, Nat2Z.id, firstn_all. reflexivity.
Qed.

(** The mapped branch of [npio_load_data2] when the sizes agree and the
    data has the host's endianness. *)
Lemma load_data2_mapped_ok (hle : bool) (junk : nat -> Z) (w : world)
  (a : npio_Array) (m : Z) :
  _mmapped a <> 0 -> data_offset a mod 16 = 0 ->
  npio_array_memsize a = Ret m ->
  to_size_t (data_offset a + m) = _buf_size a ->
  little_endian a = (if hle then 1 else 0) ->
  npio_load_data2 hle junk w a 1
  = Ret (0, set_data a (BufPtr (data_offset a)), w).
Proof.
  intros Hmm Hal Hm Hsz Hle. unfold npio_load_data2, locate_data.
  rewrite Hal. cbn [Z.eqb negb].
  destruct (Z.eqb_spec (_mmapped a) 0) as [E | _]; [contradiction |].
  cbn [negb]. rewrite Hm. cbn [bind]. rewrite Hsz, Z.eqb_refl.
  cbn [negb bind].
  cbn [little_endian set_data]. rewrite Hle, Z.eqb_refl.
  reflexivity.
Qed.

Lemma npio_array_memsize_spec (a : npio_Array) :
  (dim a <= List.length (shape a))%nat ->
  npio_array_memsize a
  = Ret (to_size_t
           (to_size_t (product (firstn (dim a) (shape a)))
            * to_size_t (bit_width a)) / 8).
Proof.
  intros H. unfold npio_array_memsize.
  now rewrite npio_array_size_spec.
Qed.

(** ** The loops always have enough fuel *)

Lemma skip_spaces_length (cs : bool) (l : list ascii) :
  (List.length (npio_ph_skip_spaces_ cs l) <= List.length l)%nat.
Proof.
  induction l as [| c l IH]; cbn [npio_ph_skip_spaces_ List.length].
  - apply Nat.le_refl.
  - destruct (isspace (char_val cs c)); cbn [List.length]; lia.
Qed.

Lemma scan_digits_length (cs : bool) (l : list ascii) :
  (List.length (snd (scan_digits cs l)) <= List.length l)%nat.
Proof.
  induction l as [| c l IH]; cbn [scan_digits List.length snd].
  - apply Nat.le_refl.
  - destruct ((48 <=? char_val cs c) && (char_val cs c <=? 57)).
    + destruct (scan_digits cs l) as [ds rest]. cbn [snd] in *. lia.
    + cbn [snd List.length]. lia.
Qed.

Lemma scan_until_length (q : ascii) (l : list ascii) :
  (List.length (snd (scan_until q l)) <= List.length l)%nat.
Proof.
  induction l as [| c l IH]; cbn [scan_until List.length snd].
  - apply Nat.le_refl.
  - destruct (Ascii.eqb c q).
    + cbn [snd List.length]. lia.
    + destruct (scan_until q l) as [s rest]. cbn [snd] in *. lia.
Qed.

Lemma array_size_loop_no_timeout (sh : list Z) :
  forall count i n, array_size_loop sh i count n <> Timeout.
Proof.
  induction count as [| count IH]; intros i n; cbn [array_size_loop].
  - discriminate.
  - destruct (nth_error sh i); [apply IH | discriminate].
Qed.

Lemma shape_append_no_timeout {heap : Heap} (junk : nat -> Z)
  (a : npio_Array) (v : Z) :
  npio_ph_shape_append_ junk a v <> Timeout.
Proof.
  unfold npio_ph_shape_append_, shape_store.
  destruct (Nat.eqb _ _); [destruct (grants _ _) |];
    try discriminate; destruct (store_word _ _ _); discriminate.
Qed.

(** What follows the digits of one element in [parse_shape_loop]. *)
Lemma parse_shape_loop_step_total {heap : Heap} (cs : bool) (junk : nat -> Z) (fuel : nat)
  (p p2 : list ascii) (r : outcome (Z * npio_Array)) :
  (forall a1 p',
      (List.length p' < fuel)%nat ->
      parse_shape_loop cs junk fuel a1 p' <> Timeout
      /\ forall e a' rest,
           parse_shape_loop cs junk fuel a1 p' = Ret (e, a', rest) ->
           (List.length rest <= List.length p')%nat) ->
  (List.length p2 <= List.length p)%nat ->
  (List.length p < S fuel)%nat ->
  r <> Timeout ->
  let k (x : Z * npio_Array) :=
    let (err, a1) := x in
    if negb (err =? 0) then Ret (err, a1, p2) else
    match npio_ph_skip_spaces_ cs p2 with
    | [] => Ret (EINVAL, a1, [])
    | c :: p' =>
        if Ascii.eqb c ","%char
        then parse_shape_loop cs junk fuel a1 p'
        else if Ascii.eqb c ")"%char
        then n <- npio_array_size a1 ;; Ret (0, set_size a1 n, p')
        else Ret (EINVAL, a1, c :: p')
    end in
  bind r k <> Timeout
  /\ forall e a' rest,
       bind r k = Ret (e, a', rest) ->
       (List.length rest <= List.length p)%nat.
Proof.
  intros IH H2 Hfuel Hr k. subst k.
  destruct r as [[err a1] | |]; cbn [bind];
    [| split; [discriminate | intros; discriminate] | contradiction].
  destruct (negb (err =? 0)).
  { split; [discriminate |]. intros e a' rest H. injection H as _ _ <-. lia. }
  pose proof (skip_spaces_length cs p2) as H3.
  destruct (npio_ph_skip_spaces_ cs p2) as [| c p'].
  { split; [discriminate |]. intros e a' rest H. injection H as _ _ <-.
    cbn [List.length]. lia. }
  cbn [List.length] in H3.
  destruct (Ascii.eqb c ",").
  { destruct (IH a1 p' ltac:(lia)) as (Hn & Hl). split; [exact Hn |].
    intros e a' rest H. apply Hl in H. lia. }
  destruct (Ascii.eqb c ")").
  { pose proof (array_size_loop_no_timeout (shape a1) (dim a1) 0 1) as Hs.
    unfold npio_array_size.
    destruct (array_size_loop (shape a1) 0 (dim a1) 1) as [n | |];
      cbn [bind]; [| split; [discriminate | intros; discriminate]
                   | contradiction].
    split; [discriminate |]. intros e a' rest H. injection H as _ _ <-. lia. }
  split; [discriminate |]. intros e a' rest H. injection H as _ _ <-.
  cbn [List.length]. lia.
Qed.

(** The tuple loop ends with fuel left, and what it leaves of the text is
    no longer than the text. *)
Lemma parse_shape_loop_total {heap : Heap} (cs : bool) (junk : nat -> Z) :
  forall fuel a p,
    (List.length p < fuel)%nat ->
    parse_shape_loop cs junk fuel a p <> Timeout
    /\ forall e a' rest,
         parse_shape_loop cs junk fuel a p = Ret (e, a', rest) ->
         (List.length rest <= List.length p)%nat.
Proof.
  induction fuel as [| fuel IH]; intros a p Hfuel; [lia |].
  rewrite parse_shape_loop_unfold.
  pose proof (skip_spaces_length cs p) as H1.
  pose proof (scan_digits_length cs (npio_ph_skip_spaces_ cs p)) as H2.
  destruct (scan_digits cs (npio_ph_skip_spaces_ cs p)) as [ds p2].
  cbn [snd] in H2.
  destruct p2 as [| c2 p2'].
  { split; [discriminate |]. intros e a' rest H. injection H as _ _ <-.
    cbn [List.length]. lia. }
  destruct ds as [| d ds'].
  - apply (parse_shape_loop_step_total cs junk fuel p (c2 :: p2') (Ret (0, a)));
      [exact IH | lia | lia | discriminate].
  - apply (parse_shape_loop_step_total cs junk fuel p (c2 :: p2'));
      [exact IH | lia | lia | apply shape_append_no_timeout].
Qed.

Lemma parse_shape_total {heap : Heap} (cs : bool) (junk : nat -> Z) (a : npio_Array)
  (p : list ascii) :
  npio_ph_parse_shape_ cs junk a p <> Timeout
  /\ forall e a' rest,
       npio_ph_parse_shape_ cs junk a p = Ret (e, a', rest) ->
       (List.length rest <= List.length p)%nat.
Proof.
  unfold npio_ph_parse_shape_. destruct p as [| c p].
  { split; [discriminate |]. intros e a' rest H. injection H as _ _ <-. lia. }
  destruct (negb (Ascii.eqb c "(")).
  { split; [discriminate |]. intros e a' rest H. injection H as _ _ <-. lia. }
  destruct (negb (grants shape_buffer 64)).
  { split; [discriminate |]. intros e a' rest H. injection H as _ _ <-. lia. }
  destruct (parse_shape_loop_total cs junk (S (List.length p))
              (set_shape a (dim a) (fresh_words junk 0 8) 8) p ltac:(lia))
    as (Hn & Hl).
  split; [exact Hn |]. intros e a' rest H. apply Hl in H.
  cbn [List.length]. lia.
Qed.

Lemma parse_value_total {heap : Heap} (cs : bool) (junk : nat -> Z) (key : dict_key)
  (a : npio_Array) (p : list ascii) :
  parse_value cs junk key a p <> Timeout
  /\ forall e a' rest,
       parse_value cs junk key a p = Ret (e, a', rest) ->
       (List.length rest <= List.length p)%nat.
Proof.
  destruct key; cbn [parse_value].
  - destruct p as [| q p]; [split; [discriminate | intros; discriminate] |].
    destruct (negb (npio_ph_is_quote_ q)).
    { split; [discriminate |]. intros e a' rest H. injection H as _ _ <-.
      cbn [List.length]. lia. }
    pose proof (scan_until_length q p) as Hs.
    destruct (scan_until q p) as [s p2]. cbn [snd] in Hs.
    destruct p2 as [| c p2'].
    { split; [discriminate |]. intros e a' rest H. injection H as _ _ <-.
      cbn [List.length]. lia. }
    unfold store_dtype. destruct (grants dtype_string _); cbn [bind];
      [| split; [discriminate | intros; discriminate]].
    split; [discriminate |]. intros e a' rest H. injection H as _ _ <-.
    cbn [List.length] in *. lia.
  - apply parse_shape_total.
  - destruct (room 4 p && memcmp_eq "True" p).
    { split; [discriminate |]. intros e a' rest H.
      apply (f_equal (fun r => match r with Ret (_, _, q) => List.length q
                                        | _ => O end)) in H.
      cbv beta iota in H. rewrite <- H, length_skipn. lia. }
    destruct (room 5 p && memcmp_eq "False" p).
    { split; [discriminate |]. intros e a' rest H.
      apply (f_equal (fun r => match r with Ret (_, _, q) => List.length q
                                        | _ => O end)) in H.
      cbv beta iota in H. rewrite <- H, length_skipn. lia. }
    split; [discriminate |]. intros e a' rest H. injection H as _ _ <-. lia.
Qed.

Lemma parse_key_length (p : list ascii) (key : dict_key) (p' : list ascii) :
  parse_key p = Some (key, p') -> (List.length p' <= List.length p)%nat.
Proof.
  unfold parse_key.
  destruct (room 5 p && memcmp_eq "descr" p);
    [intros H;
     apply (f_equal (fun r => match r with Some (_, q) => List.length q
                              | None => O end)) in H;
     cbv beta iota in H; rewrite <- H, length_skipn; lia |].
  destruct (room 5 p && memcmp_eq "shape" p);
    [intros H;
     apply (f_equal (fun r => match r with Some (_, q) => List.length q
                              | None => O end)) in H;
     cbv beta iota in H; rewrite <- H, length_skipn; lia |].
  destruct (room 13 p && memcmp_eq "fortran_order" p);
    [intros H;
     apply (f_equal (fun r => match r with Some (_, q) => List.length q
                              | None => O end)) in H;
     cbv beta iota in H; rewrite <- H, length_skipn; lia |].
  discriminate.
Qed.

Lemma parse_dict_loop_total {heap : Heap} (cs : bool) (junk : nat -> Z) :
  forall fuel a p,
    (List.length p < fuel)%nat ->
    parse_dict_loop cs junk fuel a p <> Timeout.
Proof.
  induction fuel as [| fuel IH]; intros a p Hfuel; [lia |].
  rewrite parse_dict_loop_unfold.
  pose proof (skip_spaces_length cs p) as H1.
  destruct (npio_ph_skip_spaces_ cs p) as [| q p1]; [discriminate |].
  cbn [List.length] in H1.
  destruct (Ascii.eqb q "}"); [discriminate |].
  destruct (negb (npio_ph_is_quote_ q)); [discriminate |].
  destruct (parse_key p1) as [[key p2] |] eqn:Ek; [| discriminate].
  apply parse_key_length in Ek.
  destruct p2 as [| c p3]; [discriminate |]. cbn [List.length] in Ek.
  destruct (negb (Ascii.eqb c q)); [discriminate |].
  pose proof (skip_spaces_length cs p3) as H3.
  destruct (npio_ph_skip_spaces_ cs p3) as [| c4 p4]; [discriminate |].
  cbn [List.length] in H3.
  destruct (negb (Ascii.eqb c4 ":")); [discriminate |].
  pose proof (skip_spaces_length cs p4) as H4.
  destruct (npio_ph_skip_spaces_ cs p4) as [| c5 p5] eqn:E5; [discriminate |].
  unfold after_value.
  destruct (parse_value_total cs junk key a (c5 :: p5)) as (Hn & Hl).
  destruct (parse_value cs junk key a (c5 :: p5)) as [[[err a1] p6] | |];
    cbn [bind]; [| discriminate | contradiction].
  specialize (Hl err a1 p6 eq_refl).
  destruct (negb (err =? 0)); [discriminate |].
  pose proof (skip_spaces_length cs p6) as H6.
  destruct (npio_ph_skip_spaces_ cs p6) as [| c7 p7]; [discriminate |].
  cbn [List.length] in H4, H6, Hl.
  apply IH. destruct (Ascii.eqb c7 ","); cbn [List.length]; lia.
Qed.

Lemma parse_dtype_no_timeout (a : npio_Array) :
  npio_ph_parse_dtype_ a <> Timeout.
Proof.
  unfold npio_ph_parse_dtype_.
  destruct (dtype a) as [s |]; [| discriminate].
  destruct (c_string s) as [| c0 [| c1 [| c2 [| c3 l]]]]; try discriminate.
  destruct (Ascii.eqb c0 "<"), (Ascii.eqb c0 ">"), (Ascii.eqb c1 "i"),
    (Ascii.eqb c1 "u"), (Ascii.eqb c1 "f"), (Ascii.eqb c2 "1"),
    (Ascii.eqb c2 "2"), (Ascii.eqb c2 "4"), (Ascii.eqb c2 "8");
    discriminate.
Qed.

Lemma parse_dict_total {heap : Heap} (cs : bool) (junk : nat -> Z) (a : npio_Array)
  (start : list ascii) :
  npio_ph_parse_dict_ cs junk a start <> Timeout.
Proof.
  unfold npio_ph_parse_dict_. destruct start as [| c p]; [discriminate |].
  destruct (negb (Ascii.eqb c "{")); [discriminate |].
  pose proof (parse_dict_loop_total cs junk (S (List.length p)) a p
                ltac:(lia)) as Hn.
  destruct (parse_dict_loop cs junk (S (List.length p)) a p)
    as [[err a1] | |]; cbn [bind]; [| discriminate | contradiction].
  destruct (negb (err =? 0)); [discriminate |].
  apply parse_dtype_no_timeout.
Qed.

Lemma prelude_no_timeout (cs : bool) (buf : list ascii) (a : npio_Array) :
  npio_load_header_prelude_ cs buf a <> Timeout.
Proof.
  unfold npio_load_header_prelude_.
  destruct (List.length buf <? 6)%nat; [discriminate |].
  destruct (negb (list_eqb (firstn 6 buf) magic)); [discriminate |].
  destruct (skipn 6 buf) as [| vmaj [| vmin q]]; try discriminate.
  cbn [major_version set_version].
  destruct (char_val cs vmaj =? 1).
  { destruct q as [| p0 [| p1 q]]; try discriminate.
    unfold int_shl, int_add, int_ok.
    repeat (match goal with
            | |- context [if ?b then _ else _] => destruct b
            end; cbn [bind]); discriminate. }
  destruct (char_val cs vmaj =? 2); [| discriminate].
  destruct q as [| p0 [| p1 [| p2 [| p3 q]]]]; try discriminate.
  unfold int_shl, int_add, int_ok.
  repeat (match goal with
          | |- context [if ?b then _ else _] => destruct b
          end; cbn [bind]); discriminate.
Qed.

(** X13: for a version-2 file whose four length bytes are below [0x80],
    [npio_load_header_prelude_] returns the 32-bit little-endian number
    they spell, on either signedness of [char]. *)
Theorem prelude_v2_low_bytes (cs : bool) (vmin p0 p1 p2 p3 : ascii)
  (rest : list ascii) (a : npio_Array) :
  byte_val p0 < 128 -> byte_val p1 < 128 ->
  byte_val p2 < 128 -> byte_val p3 < 128 ->
  npio_load_header_prelude_ cs
    (magic ++ ascii_of_nat 2 :: vmin :: p0 :: p1 :: p2 :: p3 :: rest) a
  = Ret (0,
         set_header_len (set_version a 2 (char_val cs vmin))
           (byte_val p0 + 256 * byte_val p1 + 65536 * byte_val p2
            + 16777216 * byte_val p3),
         rest).
Proof.
  intros H0 H1 H2 H3. unfold npio_load_header_prelude_.
  change (magic ++ ascii_of_nat 2 :: vmin :: p0 :: p1 :: p2 :: p3 :: rest)
    with (ascii_of_nat 147 :: "N"%char :: "U"%char :: "M"%char :: "P"%char
          :: "Y"%char :: ascii_of_nat 2 :: vmin :: p0 :: p1 :: p2 :: p3
          :: rest).
  cbn [List.length Nat.ltb Nat.leb firstn skipn negb].
  replace (list_eqb _ magic) with true by reflexivity.
  cbn [negb major_version set_version].
  replace (char_val cs (ascii_of_nat 2)) with 2 by (now destruct cs).
  cbn [Z.eqb Pos.eqb].
  rewrite !char_val_low by assumption.
  pose proof (byte_val_range p0). pose proof (byte_val_range p1).
  pose proof (byte_val_range p2). pose proof (byte_val_range p3).
  unfold int_shl, int_add, int_ok, int_min, int_max.
  change (2 ^ 8) with 256. change (2 ^ 16) with 65536.
  change (2 ^ 24) with 16777216. change (2 ^ 31) with 2147483648.
  repeat (match goal with
          | |- context [?x <=? ?y] =>
              destruct (Z.leb_spec x y); [| lia]
          end; cbn [andb bind]).
  unfold to_size_t, size_max. change (2 ^ 64) with 18446744073709551616.
  rewrite Z.mod_small by lia.
  match goal with
  | |- Ret (_, set_header_len _ ?x, _) = Ret (_, set_header_len _ ?y, _) =>
      replace x with y by lia
  end.
  reflexivity.
Qed.

Lemma prelude_v2_low_bytes_witness :
  npio_load_header_prelude_ true
    (magic ++ ascii_of_nat 2 :: zero :: ascii_of_nat 118 :: zero
     :: ascii_of_nat 1 :: zero :: chars "{}")
    zeroed
  = Ret (0, set_header_len (set_version zeroed 2 0) 65654, chars "{}").
Proof.
  apply (prelude_v2_low_bytes true zero (ascii_of_nat 118) zero
           (ascii_of_nat 1) zero (chars "{}") zeroed); cbn; lia.
Defined.

(** ** Element count and memory size *)

Lemma product_nonneg (l : list Z) :
  Forall (fun d => 0 <= d) l -> 0 <= product l.
Proof.
  induction 1 as [| d l Hd _ IH]; cbn [product fold_right]; [lia |].
  fold (product l). lia.
Qed.

(** X1: [npio_array_size] multiplies the first [dim] entries of [shape] in
    [size_t]: the result is their product modulo [2^64], and [1] for a
    scalar. *)
Theorem array_size_wrapped_product (a : npio_Array) :
  (dim a <= List.length (shape a))%nat ->
  npio_array_size a = Ret (product (firstn (dim a) (shape a)) mod 2 ^ 64)
  /\ (dim a = 0%nat -> npio_array_size a = Ret 1).
Proof.
  intros H. split.
  - now rewrite npio_array_size_spec.
  - intros E. rewrite npio_array_size_spec by assumption. now rewrite E.
Qed.

Lemma array_size_wrapped_product_witness :
  npio_array_size (set_shape zeroed 2 [4294967296; 4294967297; 7] 3)
  = Ret 4294967296.
Proof.
  refine (proj1 (array_size_wrapped_product
                   (set_shape zeroed 2 [4294967296; 4294967297; 7] 3) _)).
  cbn. lia.
Defined.

Lemma memsize_no_overflow (a : npio_Array) :
  (dim a <= List.length (shape a))%nat ->
  Forall (fun d => 0 <= d) (firstn (dim a) (shape a)) ->
  supported_width (bit_width a) ->
  product (firstn (dim a) (shape a)) * bit_width a < 2 ^ 64 ->
  npio_array_memsize a
  = Ret (product (firstn (dim a) (shape a)) * (bit_width a / 8)).
Proof.
  intros Hdim Hpos Hw Hfit.
  rewrite npio_array_memsize_spec by assumption.
  pose proof (product_nonneg _ Hpos) as HP.
  set (P := product (firstn (dim a) (shape a))) in *.
  assert (Hbw : 8 <= bit_width a <= 64) by (unfold supported_width in Hw; lia).
  unfold to_size_t, size_max.
  rewrite (Z.mod_small P) by nia.
  rewrite (Z.mod_small (bit_width a)) by lia.
  rewrite (Z.mod_small (P * bit_width a)) by nia.
  f_equal.
  destruct Hw as [E | [E | [E | E]]]; rewrite E.
  - change (8 / 8) with 1. rewrite Z.mul_1_r. apply Z.div_mul. discriminate.
  - change (16 / 8) with 2. replace (P * 16) with (P * 2 * 8) by ring.
    apply Z.div_mul. discriminate.
  - change (32 / 8) with 4. replace (P * 32) with (P * 4 * 8) by ring.
    apply Z.div_mul. discriminate.
  - change (64 / 8) with 8. replace (P * 64) with (P * 8 * 8) by ring.
    apply Z.div_mul. discriminate.
Qed.

(** X2: [npio_array_memsize] divides a 64-bit number by 8, so whatever
    it returns is below [2^61] and not negative as an [ssize_t]: the
    tests [(ssize_t) sz < 0] of [npio_save_fd] cannot fire.  When the
    element count times the width does not overflow, the result is the
    number of elements times the bytes of one element. *)
Theorem array_memsize_exact (a : npio_Array) :
  (forall sz,
      npio_array_memsize a = Ret sz ->
      0 <= sz < 2 ^ 61 /\ (to_ssize_t sz <? 0) = false)
  /\ ((dim a <= List.length (shape a))%nat ->
      Forall (fun d => 0 <= d) (firstn (dim a) (shape a)) ->
      supported_width (bit_width a) ->
      product (firstn (dim a) (shape a)) * bit_width a < 2 ^ 64 ->
      npio_array_memsize a
      = Ret (product (firstn (dim a) (shape a)) * (bit_width a / 8))).
Proof.
  split; [| exact (memsize_no_overflow a)].
  intros sz H. apply memsize_range in H. split; [exact H |].
  rewrite to_ssize_t_small by lia.
  destruct (Z.ltb_spec sz 0); [lia | reflexivity].
Qed.

Lemma array_memsize_exact_witness :
  npio_array_memsize
    (set_bit_width (set_shape zeroed 2 [10; 10] 2) 32)
  = Ret 400.
Proof.
  apply (proj2 (array_memsize_exact
                  (set_bit_width (set_shape zeroed 2 [10; 10] 2) 32))).
  - cbn. lia.
  - cbn. repeat constructor; lia.
  - unfold supported_width. cbn. lia.
  - cbn. lia.
Defined.

(** ** Skipping spaces *)

(** X3: [npio_ph_skip_spaces_] drops a prefix made of white space only and
    stops at the end of the text or at the first other character. *)
Theorem skip_spaces_spec (cs : bool) (p : list ascii) :
  exists ws,
    p = ws ++ npio_ph_skip_spaces_ cs p
    /\ Forall (fun c => isspace (char_val cs c) = true) ws
    /\ match npio_ph_skip_spaces_ cs p with
       | [] => True
       | c :: _ => isspace (char_val cs c) = false
       end.
Proof.
  induction p as [| c p (ws & Hp & Hws & Hstop)].
  - exists []. repeat split. constructor.
  - cbn [npio_ph_skip_spaces_].
    destruct (isspace (char_val cs c)) eqn:E.
    + exists (c :: ws). cbn [app]. split; [now f_equal |].
      split; [now constructor | exact Hstop].
    + exists []. repeat split; [constructor | exact E].
Qed.

(** ** Appending to the shape *)

(** X4: on a buffer of [_shape_capacity] words of which [dim] are used,
    [npio_ph_shape_append_] stores the value after the entries present and
    keeps them; when the buffer is full it first doubles it with [realloc].
    When the heap refuses that [realloc] the function returns [ENOMEM]:
    [dim] and the entries are as before, and [_shape_capacity] has been
    doubled although the buffer has not grown. *)
Theorem shape_append_grows (heap : Heap) (junk : nat -> Z) (a : npio_Array)
  (v : Z) :
  shape_inv a ->
  let full := Nat.eqb (dim a) (_shape_capacity a) in
  let cap := if full then (_shape_capacity a * 2)%nat else _shape_capacity a in
  if full && negb (grants shape_growth (to_size_t (8 * Z.of_nat cap)))
  then
    npio_ph_shape_append_ junk a v
    = Ret (ENOMEM, set_shape a (dim a) (shape a) cap)
  else
    exists sh,
      npio_ph_shape_append_ junk a v = Ret (0, set_shape a (S (dim a)) sh cap)
      /\ List.length sh = cap
      /\ firstn (dim a) sh = firstn (dim a) (shape a)
      /\ nth_error sh (dim a) = Some v.
Proof.
  intros (Hlen & Hdim & Hcap) full cap. subst full cap.
  unfold npio_ph_shape_append_, shape_store.
  destruct (Nat.eqb_spec (dim a) (_shape_capacity a)) as [E | NE].
  - cbv zeta. destruct (grants shape_growth _); cbn [andb negb];
      [| reflexivity].
    cbn [shape dim set_shape _shape_capacity].
    rewrite firstn_all2 by lia.
    assert (Hl : List.length
                   (shape a ++ fresh_words junk (List.length (shape a))
                      (_shape_capacity a * 2 - List.length (shape a)))
                 = (_shape_capacity a * 2)%nat).
    { rewrite length_app. unfold fresh_words.
      rewrite length_map, length_seq. lia. }
    rewrite store_word_lt by lia.
    eexists. split; [reflexivity |].
    split; [| split].
    + rewrite length_app, length_firstn. cbn [List.length].
      rewrite length_skipn. lia.
    + rewrite firstn_app, firstn_firstn, Nat.min_id, length_firstn.
      replace (dim a - Nat.min (dim a) _)%nat with 0%nat by lia.
      cbn [firstn]. rewrite app_nil_r, firstn_app.
      replace (dim a - List.length (shape a))%nat with 0%nat by lia.
      cbn [firstn]. now rewrite app_nil_r.
    + rewrite nth_error_app2 by (rewrite length_firstn; lia).
      rewrite length_firstn.
      replace (dim a - Nat.min (dim a) _)%nat with 0%nat by lia.
      reflexivity.
  - cbn [andb]. rewrite store_word_lt by lia.
    eexists. split; [reflexivity |].
    split; [| split].
    + rewrite length_app, length_firstn. cbn [List.length].
      rewrite length_skipn. lia.
    + rewrite firstn_app, firstn_firstn, Nat.min_id, length_firstn.
      replace (dim a - Nat.min (dim a) _)%nat with 0%nat by lia.
      cbn [firstn]. now rewrite app_nil_r.
    + rewrite nth_error_app2 by (rewrite length_firstn; lia).
      rewrite length_firstn.
      replace (dim a - Nat.min (dim a) _)%nat with 0%nat by lia.
      reflexivity.
Qed.

(** [shape_append_grows] on a full buffer of two words: with a heap that
    grants the request, and with one that refuses it. *)
Lemma shape_append_grows_witness :
  (exists sh,
     npio_ph_shape_append_ (heap := ample) stale_words
       (set_shape zeroed 2 [5; 6] 2) 7
     = Ret (0, set_shape (set_shape zeroed 2 [5; 6] 2) 3 sh 4)
     /\ List.length sh = 4%nat
     /\ firstn 2 sh = [5; 6]
     /\ nth_error sh 2 = Some 7)
  /\ npio_ph_shape_append_ (heap := exhausted) stale_words
       (set_shape zeroed 2 [5; 6] 2) 7
     = Ret (ENOMEM, set_shape zeroed 2 [5; 6] 4).
Proof.
  split.
  - apply (shape_append_grows ample stale_words (set_shape zeroed 2 [5; 6] 2) 7).
    unfold shape_inv. cbn. lia.
  - apply (shape_append_grows exhausted stale_words
             (set_shape zeroed 2 [5; 6] 2) 7).
    unfold shape_inv. cbn. lia.
Defined.

(** ** The tuple parser on any text *)

Lemma to_size_t_add_mul (x v : Z) :
  to_size_t (x + to_size_t v * 10) = to_size_t (x + v * 10).
Proof.
  unfold to_size_t.
  rewrite <- (Z.add_mod_idemp_r x (v mod size_max * 10)) by discriminate.
  rewrite Z.mul_mod_idemp_l by discriminate.
  now rewrite Z.add_mod_idemp_r by discriminate.
Qed.

Lemma is_digit_byte (cs : bool) (c : ascii) :
  is_digit cs c = true -> char_val cs c = byte_val c.
Proof.
  unfold is_digit, char_val. intros H. apply andb_prop in H.
  destruct H as (H1 & H2). apply Z.leb_le in H1, H2.
  pose proof (byte_val_range c).
  destruct cs; cbn [andb] in *; [| reflexivity].
  destruct (Z.leb_spec 128 (byte_val c)); [lia | reflexivity].
Qed.

(** The loop over the digits computes the numeral modulo [2^64]. *)
Lemma digits_val_decimal (cs : bool) (ds : list ascii) :
  Forall (fun c => is_digit cs c = true) ds ->
  forall v,
    digits_val cs ds (to_size_t v)
    = to_size_t (fold_left (fun v c => v * 10 + (byte_val c - 48)) ds v).
Proof.
  induction 1 as [| c ds Hc _ IH]; intros v; cbn [digits_val fold_left].
  - reflexivity.
  - rewrite to_size_t_add_mul, IH, (is_digit_byte cs c Hc).
    now rewrite (Z.add_comm (byte_val c - 48)).
Qed.

(** X5: a numeral of any length is read modulo [2^64]: the tuple with the
    one element [ds] gives the dimension [decimal ds mod 2^64], without an
    error when the numeral does not fit a [size_t]. *)
Theorem parse_shape_number_wraps (cs : bool) (junk : nat -> Z)
  (a : npio_Array) (ds rest : list ascii) :
  dim a = 0%nat -> ds <> [] ->
  Forall (fun c => is_digit cs c = true) ds ->
  exists a',
    npio_ph_parse_shape_ cs junk a
      ("("%char :: ds ++ ","%char :: ")"%char :: rest)
    = Ret (0, a', rest)
    /\ dim a' = 1%nat
    /\ nth_error (shape a') 0 = Some (decimal ds mod 2 ^ 64)
    /\ size a' = decimal ds mod 2 ^ 64.
Proof.
  intros Hdim Hne Hds. unfold npio_ph_parse_shape_.
  change (negb (Ascii.eqb "(" "(")) with false. cbv iota.
  rewrite length_app. cbn [List.length].
  replace (S (List.length ds + S (S (List.length rest))))
    with (S (S (List.length ds + S (List.length rest)))) by lia.
  rewrite parse_shape_loop_unfold.
  assert (Hskip : npio_ph_skip_spaces_ cs (ds ++ ","%char :: ")"%char :: rest)
                  = ds ++ ","%char :: ")"%char :: rest).
  { destruct ds as [| c l]; [contradiction |]. cbn [app].
    apply skip_spaces_nonspace, is_digit_not_space.
    now inversion Hds. }
  rewrite Hskip.
  rewrite scan_digits_all; [| assumption | now destruct cs].
  pose proof (digits_val_decimal cs ds Hds 0) as Hval.
  change (to_size_t 0) with 0 in Hval. fold (decimal ds) in Hval.
  set (a1 := set_shape a (dim a) (fresh_words junk 0 8) 8).
  assert (Hinv : shape_inv a1).
  { unfold shape_inv, a1. cbn [shape dim set_shape _shape_capacity].
    unfold fresh_words. rewrite length_map, length_seq. lia. }
  destruct (shape_append_ok junk a1 (digits_val cs ds 0) Hinv)
    as (sh1 & cap1 & Happ & Hfirst & Hinv1).
  destruct ds as [| c l] eqn:Eds; [contradiction |]. rewrite <- Eds in *.
  rewrite Happ. cbn [bind]. change (negb (0 =? 0)) with false. cbv iota.
  rewrite skip_spaces_nonspace by (now destruct cs).
  change (Ascii.eqb "," ",") with true. cbv iota.
  rewrite parse_shape_loop_unfold.
  rewrite skip_spaces_nonspace by (now destruct cs).
  assert (Hs : scan_digits cs (")"%char :: rest) = ([], ")"%char :: rest)).
  { apply (scan_digits_all cs [] (")"%char :: rest));
      [constructor | now destruct cs]. }
  rewrite Hs. cbn [bind]. change (negb (0 =? 0)) with false. cbv iota.
  rewrite skip_spaces_nonspace by (now destruct cs).
  change (Ascii.eqb ")" ",") with false.
  change (Ascii.eqb ")" ")") with true. cbv iota.
  destruct Hinv1 as (Hlen1 & Hd1 & Hc1).
  cbn [shape dim set_shape _shape_capacity] in Hlen1, Hd1, Hc1.
  rewrite npio_array_size_spec
    by (cbn [shape dim set_shape]; lia).
  cbn [bind shape dim set_shape].
  unfold a1 in Hfirst. cbn [dim set_shape shape] in Hfirst.
  unfold a1. cbn [dim set_shape]. rewrite Hdim in *.
  cbn [firstn app] in Hfirst.
  eexists. split; [reflexivity |].
  cbn [dim shape size set_size set_shape].
  destruct sh1 as [| x sh1]; [discriminate |].
  cbn [firstn] in Hfirst. injection Hfirst as ->.
  cbn [firstn nth_error product fold_right].
  rewrite Hval. unfold to_size_t, size_max.
  rewrite Z.mul_1_r, Z.mod_mod by discriminate.
  repeat split.
Qed.

Lemma parse_shape_number_wraps_witness :
  exists a',
    npio_ph_parse_shape_ true stale_words (npio_init_array true zeroed)
      ("("%char :: chars "18446744073709551617" ++ ","%char :: ")"%char :: [])
    = Ret (0, a', [])
    /\ dim a' = 1%nat
    /\ nth_error (shape a') 0
       = Some (decimal (chars "18446744073709551617") mod 2 ^ 64)
    /\ size a' = decimal (chars "18446744073709551617") mod 2 ^ 64.
Proof.
  apply (parse_shape_number_wraps true stale_words
           (npio_init_array true zeroed) (chars "18446744073709551617") []).
  - reflexivity.
  - discriminate.
  - repeat constructor.
Defined.

(** X6: the tuple parser reads back the dimensions as [save] prints them,
    however many there are: past eight the buffer is reallocated. *)
Theorem parse_shape_reads_printed_tuple (cs : bool) (junk : nat -> Z)
  (ds : list Z) (a : npio_Array) (rest : list ascii) :
  dim a = 0%nat ->
  Forall (fun d => 0 <= d < 2 ^ 63) ds ->
  exists a',
    npio_ph_parse_shape_ cs junk a
      ("("%char :: dims_text ds ++ ")"%char :: rest)
    = Ret (0, a', rest)
    /\ dim a' = List.length ds
    /\ firstn (dim a') (shape a') = ds
    /\ size a' = product ds mod 2 ^ 64.
Proof.
  intros Hdim Hds.
  destruct (parse_shape_dims cs junk ds a rest ltac:(lia) Hds)
    as (sh & cap & Hrun & Hsh & Hlen).
  rewrite Hdim in *. cbn [firstn app Nat.add] in *.
  eexists. split; [exact Hrun |].
  cbn [dim shape size set_size set_shape]. repeat split. exact Hsh.
Qed.

Lemma parse_shape_reads_printed_tuple_witness :
  exists a',
    npio_ph_parse_shape_ true stale_words (npio_init_array true zeroed)
      ("("%char :: dims_text [1; 2; 3; 4; 5; 6; 7; 8; 9; 10]
       ++ ")"%char :: chars ", }")
    = Ret (0, a', chars ", }")
    /\ dim a' = 10%nat
    /\ firstn (dim a') (shape a') = [1; 2; 3; 4; 5; 6; 7; 8; 9; 10]
    /\ size a' = product [1; 2; 3; 4; 5; 6; 7; 8; 9; 10] mod 2 ^ 64.
Proof.
  apply (parse_shape_reads_printed_tuple true stale_words
           [1; 2; 3; 4; 5; 6; 7; 8; 9; 10] (npio_init_array true zeroed)
           (chars ", }")).
  - reflexivity.
  - repeat constructor; lia.
Defined.

(** What follows the digits of one element, on a buffer in order. *)
Lemma parse_shape_loop_step_safe {heap : Heap} (cs : bool) (junk : nat -> Z)
  (fuel : nat) (p2 : list ascii) (lo : nat) (r : outcome (Z * npio_Array)) :
  (forall a1 p',
      shape_inv a1 -> (List.length p' < fuel)%nat ->
      exists e a' rest,
        parse_shape_loop cs junk fuel a1 p' = Ret (e, a', rest)
        /\ (e = 0 \/ e = EINVAL \/ e = ENOMEM)
        /\ (e = 0 ->
            shape_inv a' /\ (dim a1 <= dim a')%nat
            /\ size a' = to_size_t (product (firstn (dim a') (shape a'))))
        /\ (e = ENOMEM -> exists n, grants shape_growth n = false)) ->
  (List.length p2 <= fuel)%nat ->
  (exists a1, r = Ret (0, a1) /\ shape_inv a1 /\ (lo <= dim a1)%nat) ->
  let k (x : Z * npio_Array) :=
    let (err, a1) := x in
    if negb (err =? 0) then Ret (err, a1, p2) else
    match npio_ph_skip_spaces_ cs p2 with
    | [] => Ret (EINVAL, a1, [])
    | c :: p' =>
        if Ascii.eqb c ","%char
        then parse_shape_loop cs junk fuel a1 p'
        else if Ascii.eqb c ")"%char
        then n <- npio_array_size a1 ;; Ret (0, set_size a1 n, p')
        else Ret (EINVAL, a1, c :: p')
    end in
  exists e a' rest,
    bind r k = Ret (e, a', rest)
    /\ (e = 0 \/ e = EINVAL \/ e = ENOMEM)
    /\ (e = 0 ->
        shape_inv a' /\ (lo <= dim a')%nat
        /\ size a' = to_size_t (product (firstn (dim a') (shape a'))))
    /\ (e = ENOMEM -> exists n, grants shape_growth n = false).
Proof.
  intros IH H2 (a1 & -> & Hinv & Hlo) k. subst k. cbn [bind].
  change (negb (0 =? 0)) with false. cbv iota.
  pose proof (skip_spaces_length cs p2) as H3.
  destruct (npio_ph_skip_spaces_ cs p2) as [| c p'].
  { do 3 eexists. split; [reflexivity |]. split; [right; now left |].
    unfold EINVAL, ENOMEM. split; discriminate. }
  cbn [List.length] in H3.
  destruct (Ascii.eqb c ",").
  { destruct (IH a1 p' Hinv ltac:(lia))
      as (e & a' & rest & Hrun & He & Hok & Hno).
    exists e, a', rest. split; [exact Hrun |]. split; [exact He |].
    split; [| exact Hno].
    intros E. destruct (Hok E) as (Hi & Hd & Hs).
    split; [exact Hi | split; [lia | exact Hs]]. }
  destruct (Ascii.eqb c ")").
  { destruct Hinv as (Hlen & Hdim & Hcap).
    rewrite npio_array_size_spec by lia. cbn [bind].
    do 3 eexists. split; [reflexivity |]. split; [now left |].
    split; [| unfold ENOMEM; discriminate].
    intros _. unfold shape_inv.
    cbn [shape dim size _shape_capacity set_size].
    repeat split; assumption || reflexivity. }
  do 3 eexists. split; [reflexivity |]. split; [right; now left |].
  unfold EINVAL, ENOMEM. split; discriminate.
Qed.

Lemma parse_shape_loop_safe {heap : Heap} (cs : bool) (junk : nat -> Z) :
  forall fuel a p,
    shape_inv a -> (List.length p < fuel)%nat ->
    exists e a' rest,
      parse_shape_loop cs junk fuel a p = Ret (e, a', rest)
      /\ (e = 0 \/ e = EINVAL \/ e = ENOMEM)
      /\ (e = 0 ->
          shape_inv a' /\ (dim a <= dim a')%nat
          /\ size a' = to_size_t (product (firstn (dim a') (shape a'))))
      /\ (e = ENOMEM -> exists n, grants shape_growth n = false).
Proof.
  induction fuel as [| fuel IH]; intros a p Hinv Hfuel; [lia |].
  rewrite parse_shape_loop_unfold.
  pose proof (skip_spaces_length cs p) as H1.
  pose proof (scan_digits_length cs (npio_ph_skip_spaces_ cs p)) as H2.
  destruct (scan_digits cs (npio_ph_skip_spaces_ cs p)) as [ds p2].
  cbn [snd] in H2.
  destruct p2 as [| c2 p2'].
  { do 3 eexists. split; [reflexivity |]. split; [right; now left |].
    unfold EINVAL, ENOMEM. split; discriminate. }
  destruct ds as [| d ds'].
  - apply (parse_shape_loop_step_safe cs junk fuel (c2 :: p2') (dim a)
             (Ret (0, a))); [exact IH | lia |].
    exists a. repeat split; try apply Hinv. apply Nat.le_refl.
  - destruct (Nat.eq_dec (dim a) (_shape_capacity a)) as [E | NE];
      [destruct (grants shape_growth
                   (to_size_t (8 * Z.of_nat (_shape_capacity a * 2))))
         eqn:Hg |].
    + destruct (shape_append_ok_granted junk a (digits_val cs (d :: ds') 0)
                  Hinv (fun _ => Hg)) as (sh & cap & Happ & _ & Hinv1).
      apply (parse_shape_loop_step_safe cs junk fuel (c2 :: p2') (dim a));
        [exact IH | lia |].
      eexists. split; [exact Happ |]. split; [exact Hinv1 |].
      cbn [dim set_shape]. lia.
    + rewrite (shape_append_refused junk a _ E Hg). cbn [bind].
      change (negb (ENOMEM =? 0)) with true. cbv iota.
      do 3 eexists. split; [reflexivity |].
      split; [right; now right |].
      split; [unfold ENOMEM; discriminate |].
      intros _. eexists. exact Hg.
    + destruct (shape_append_ok_granted junk a (digits_val cs (d :: ds') 0)
                  Hinv (fun E => False_ind _ (NE E)))
        as (sh & cap & Happ & _ & Hinv1).
      apply (parse_shape_loop_step_safe cs junk fuel (c2 :: p2') (dim a));
        [exact IH | lia |].
      eexists. split; [exact Happ |]. split; [exact Hinv1 |].
      cbn [dim set_shape]. lia.
Qed.

(** X7: entered with at most eight dimensions already counted,
    [npio_ph_parse_shape_] stays inside its buffer on every text and with
    every heap: it returns [0], [EINVAL] or [ENOMEM], the last only when
    the heap has refused a request; on success the buffer holds the [dim]
    entries and [size] is their product modulo [2^64]. *)
Theorem parse_shape_safe (heap : Heap) (cs : bool) (junk : nat -> Z)
  (a : npio_Array) (p : list ascii) :
  (dim a <= 8)%nat ->
  exists e a' rest,
    npio_ph_parse_shape_ cs junk a p = Ret (e, a', rest)
    /\ (e = 0 \/ e = EINVAL \/ e = ENOMEM)
    /\ (e = 0 ->
        (dim a <= dim a' <= List.length (shape a'))%nat
        /\ size a' = product (firstn (dim a') (shape a')) mod 2 ^ 64)
    /\ (e = ENOMEM -> exists site n, grants site n = false).
Proof.
  intros Hdim. unfold npio_ph_parse_shape_.
  destruct p as [| c p].
  { do 3 eexists. split; [reflexivity |]. split; [right; now left |].
    unfold EINVAL, ENOMEM. split; discriminate. }
  destruct (negb (Ascii.eqb c "(")).
  { do 3 eexists. split; [reflexivity |]. split; [right; now left |].
    unfold EINVAL, ENOMEM. split; discriminate. }
  destruct (grants shape_buffer 64) eqn:Hg; cbn [negb].
  2:{ do 3 eexists. split; [reflexivity |]. split; [right; now right |].
      split; [unfold ENOMEM; discriminate |].
      intros _. do 2 eexists. exact Hg. }
  destruct (parse_shape_loop_safe cs junk (S (List.length p))
              (set_shape a (dim a) (fresh_words junk 0 8) 8) p)
    as (e & a' & rest & Hrun & He & Hok & Hno).
  - unfold shape_inv. cbn [shape dim set_shape _shape_capacity].
    unfold fresh_words. rewrite length_map, length_seq. lia.
  - lia.
  - exists e, a', rest. split; [exact Hrun |]. split; [exact He |].
    split.
    + intros E. destruct (Hok E) as ((Hlen & Hd & _) & Hlo & Hsize).
      cbn [dim set_shape] in Hlo. repeat split; try lia. exact Hsize.
    + intros E. destruct (Hno E) as (n & Hn). do 2 eexists. exact Hn.
Qed.

(** [parse_shape_safe] on a tuple of nine elements, which needs the buffer
    to grow: with a heap that grants every request, and with one that
    grants the first buffer and refuses to grow it. *)
Lemma parse_shape_safe_witness :
  let text := chars "(1,2,3,4,5,6,7,8,9)x" in
  let a := npio_init_array true zeroed in
  (exists e a' rest,
     npio_ph_parse_shape_ (heap := ample) true stale_words a text
     = Ret (e, a', rest)
     /\ (e = 0 \/ e = EINVAL \/ e = ENOMEM)
     /\ (e = 0 ->
         (0 <= dim a' <= List.length (shape a'))%nat
         /\ size a' = product (firstn (dim a') (shape a')) mod 2 ^ 64)
     /\ (e = ENOMEM -> exists site n, grants (Heap := ample) site n = false))
  /\ (exists e a' rest,
        npio_ph_parse_shape_ (heap := fixed_buffers) true stale_words a text
        = Ret (e, a', rest)
        /\ (e = 0 \/ e = EINVAL \/ e = ENOMEM)
        /\ (e = 0 ->
            (0 <= dim a' <= List.length (shape a'))%nat
            /\ size a' = product (firstn (dim a') (shape a')) mod 2 ^ 64)
        /\ (e = ENOMEM ->
            exists site n, grants (Heap := fixed_buffers) site n = false)).
Proof.
  intros text a. split.
  - apply (parse_shape_safe ample true stale_words a text). cbn. lia.
  - apply (parse_shape_safe fixed_buffers true stale_words a text). cbn. lia.
Defined.

(** X8: the bound is needed.  The function allocates eight words and keeps
    the [dim] it finds; entered with more than eight dimensions counted,
    its first element is stored past the end of the new buffer. *)
Theorem parse_shape_writes_past_buffer (cs : bool) (junk : nat -> Z)
  (a : npio_Array) (ds : list ascii) (c : ascii) (rest : list ascii) :
  (8 < dim a)%nat ->
  ds <> [] -> Forall (fun d => is_digit cs d = true) ds ->
  is_digit cs c = false ->
  npio_ph_parse_shape_ cs junk a ("("%char :: ds ++ c :: rest) = Undef.
Proof.
  intros Hdim Hne Hds Hc. unfold npio_ph_parse_shape_.
  change (negb (Ascii.eqb "(" "(")) with false. cbv iota.
  rewrite parse_shape_loop_unfold.
  assert (Hskip : npio_ph_skip_spaces_ cs (ds ++ c :: rest) = ds ++ c :: rest).
  { destruct ds as [| d l]; [contradiction |]. cbn [app].
    apply skip_spaces_nonspace, is_digit_not_space.
    now inversion Hds. }
  rewrite Hskip, scan_digits_all by assumption.
  destruct ds as [| d l] eqn:Eds; [contradiction |]. rewrite <- Eds.
  unfold npio_ph_shape_append_, shape_store.
  cbn [dim shape _shape_capacity set_shape].
  destruct (Nat.eqb_spec (dim a) 8) as [E | _]; [lia |].
  cbn [dim shape _shape_capacity set_shape].
  assert (Hst : forall (sh : list Z) i v,
             (List.length sh <= i)%nat -> store_word sh i v = None).
  { induction sh as [| x sh IH]; intros i v Hi; [now destruct i |].
    destruct i as [| i]; cbn [List.length] in Hi; [lia |].
    cbn [store_word]. now rewrite IH by lia. }
  rewrite Hst; [reflexivity |].
  unfold fresh_words. rewrite length_map, length_seq. lia.
Qed.

Lemma parse_shape_writes_past_buffer_witness :
  npio_ph_parse_shape_ true stale_words
    (set_shape (npio_init_array true zeroed) 9 (repeat 1 16) 16)
    (chars "(4,)")
  = Undef.
Proof.
  apply (parse_shape_writes_past_buffer true stale_words
           (set_shape (npio_init_array true zeroed) 9 (repeat 1 16) 16)
           (chars "4") ","%char (chars ")")).
  - cbn. lia.
  - discriminate.
  - repeat constructor.
  - reflexivity.
Defined.

(** ** What the dictionary parser leaves alone *)

Section ParserInvariant.

Variable P : npio_Array -> Prop.
Hypothesis P_dtype : forall a v, P a -> P (set_dtype a v).
Hypothesis P_shape : forall a d s c, P a -> P (set_shape a d s c).
Hypothesis P_size : forall a v, P a -> P (set_size a v).
Hypothesis P_fortran : forall a v, P a -> P (set_fortran_order a v).
Hypothesis P_endian : forall a v, P a -> P (set_little_endian a v).
Hypothesis P_kind : forall a s f, P a -> P (set_kind a s f).
Hypothesis P_width : forall a v, P a -> P (set_bit_width a v).

Context {heap : Heap}.
Variable cs : bool.
Variable junk : nat -> Z.

Lemma shape_append_keeps (a : npio_Array) (v e : Z) (a' : npio_Array) :
  P a -> npio_ph_shape_append_ junk a v = Ret (e, a') -> P a'.
Proof.
  intros HP. unfold npio_ph_shape_append_, shape_store.
  destruct (Nat.eqb (dim a) (_shape_capacity a));
    [destruct (grants shape_growth _) |];
    try (intros H; injection H as _ <-; auto; fail);
    (destruct (store_word _ _ _); [| discriminate]);
    intros H; injection H as _ <-; auto.
Qed.

Lemma parse_shape_loop_keeps :
  forall fuel a p e a' rest,
    P a -> parse_shape_loop cs junk fuel a p = Ret (e, a', rest) -> P a'.
Proof.
  induction fuel as [| fuel IH]; intros a p e a' rest HP; [discriminate |].
  rewrite parse_shape_loop_unfold.
  destruct (scan_digits cs (npio_ph_skip_spaces_ cs p)) as [ds p2].
  destruct p2 as [| c2 p2'].
  { intros H. injection H as _ <- _. exact HP. }
  assert (Hk : forall r : outcome (Z * npio_Array),
             (forall e1 a1, r = Ret (e1, a1) -> P a1) ->
             bind r (fun x => let (err, a1) := x in
               if negb (err =? 0) then Ret (err, a1, c2 :: p2') else
               match npio_ph_skip_spaces_ cs (c2 :: p2') with
               | [] => Ret (EINVAL, a1, [])
               | c :: p' =>
                   if Ascii.eqb c ","%char
                   then parse_shape_loop cs junk fuel a1 p'
                   else if Ascii.eqb c ")"%char
                   then n <- npio_array_size a1 ;; Ret (0, set_size a1 n, p')
                   else Ret (EINVAL, a1, c :: p')
               end) = Ret (e, a', rest) -> P a').
  { intros r Hr. destruct r as [[e1 a1] | |]; cbn [bind]; try discriminate.
    specialize (Hr e1 a1 eq_refl).
    destruct (negb (e1 =? 0)).
    { intros H. injection H as _ <- _. exact Hr. }
    destruct (npio_ph_skip_spaces_ cs (c2 :: p2')) as [| c p'].
    { intros H. injection H as _ <- _. exact Hr. }
    destruct (Ascii.eqb c ","); [apply IH; exact Hr |].
    destruct (Ascii.eqb c ")").
    { destruct (npio_array_size a1) as [n | |]; cbn [bind]; try discriminate.
      intros H. injection H as _ <- _. auto. }
    intros H. injection H as _ <- _. exact Hr. }
  destruct ds as [| d ds'].
  - apply Hk. intros e1 a1 H. injection H as _ <-. exact HP.
  - apply Hk. intros e1 a1 H. eapply shape_append_keeps; eauto.
Qed.

Lemma parse_shape_keeps (a : npio_Array) (p : list ascii) (e : Z)
  (a' : npio_Array) (rest : list ascii) :
  P a -> npio_ph_parse_shape_ cs junk a p = Ret (e, a', rest) -> P a'.
Proof.
  intros HP. unfold npio_ph_parse_shape_.
  destruct p as [| c p]; [intros H; injection H as _ <- _; exact HP |].
  destruct (negb (Ascii.eqb c "("));
    [intros H; injection H as _ <- _; exact HP |].
  destruct (negb (grants shape_buffer 64));
    [intros H; injection H as _ <- _; auto |].
  apply parse_shape_loop_keeps. auto.
Qed.

Lemma parse_value_keeps (key : dict_key) (a : npio_Array) (p : list ascii)
  (e : Z) (a' : npio_Array) (rest : list ascii) :
  P a -> parse_value cs junk key a p = Ret (e, a', rest) -> P a'.
Proof.
  intros HP. destruct key; cbn [parse_value].
  - destruct p as [| q p]; [discriminate |].
    destruct (negb (npio_ph_is_quote_ q));
      [intros H; injection H as _ <- _; exact HP |].
    destruct (scan_until q p) as [s p2].
    destruct p2 as [| c p2'];
      [intros H; injection H as _ <- _; exact HP |].
    unfold store_dtype. destruct (grants dtype_string _); cbn [bind];
      [| discriminate].
    intros H; injection H as _ <- _; auto.
  - apply parse_shape_keeps. exact HP.
  - destruct (room 4 p && memcmp_eq "True" p).
    { intros H.
      apply (f_equal (fun r => match r with Ret (_, x, _) => x
                                        | _ => a end)) in H.
      cbv beta iota in H. subst a'. auto. }
    destruct (room 5 p && memcmp_eq "False" p).
    { intros H.
      apply (f_equal (fun r => match r with Ret (_, x, _) => x
                                        | _ => a end)) in H.
      cbv beta iota in H. subst a'. auto. }
    intros H. injection H as _ <- _. exact HP.
Qed.

Lemma parse_dict_loop_keeps :
  forall fuel a p e a',
    P a -> parse_dict_loop cs junk fuel a p = Ret (e, a') -> P a'.
Proof.
  induction fuel as [| fuel IH]; intros a p e a' HP; [discriminate |].
  rewrite parse_dict_loop_unfold.
  destruct (npio_ph_skip_spaces_ cs p) as [| q p1];
    [intros H; injection H as _ <-; exact HP |].
  destruct (Ascii.eqb q "}"); [intros H; injection H as _ <-; exact HP |].
  destruct (negb (npio_ph_is_quote_ q));
    [intros H; injection H as _ <-; exact HP |].
  destruct (parse_key p1) as [[key p2] |];
    [| intros H; injection H as _ <-; exact HP].
  destruct p2 as [| c p3]; [intros H; injection H as _ <-; exact HP |].
  destruct (negb (Ascii.eqb c q)); [intros H; injection H as _ <-; exact HP |].
  destruct (npio_ph_skip_spaces_ cs p3) as [| c4 p4];
    [intros H; injection H as _ <-; exact HP |].
  destruct (negb (Ascii.eqb c4 ":"));
    [intros H; injection H as _ <-; exact HP |].
  destruct (npio_ph_skip_spaces_ cs p4) as [| c5 p5];
    [intros H; injection H as _ <-; exact HP |].
  unfold after_value.
  destruct (parse_value cs junk key a (c5 :: p5)) as [[[e1 a1] p6] | |] eqn:Ev;
    cbn [bind]; try discriminate.
  pose proof (parse_value_keeps key a (c5 :: p5) e1 a1 p6 HP Ev) as HP1.
  destruct (negb (e1 =? 0)); [intros H; injection H as _ <-; exact HP1 |].
  destruct (npio_ph_skip_spaces_ cs p6) as [| c7 p7];
    [intros H; injection H as _ <-; exact HP1 |].
  apply IH. exact HP1.
Qed.

Lemma parse_dtype_keeps (a : npio_Array) (e : Z) (a' : npio_Array) :
  P a -> npio_ph_parse_dtype_ a = Ret (e, a') -> P a'.
Proof.
  intros HP. unfold npio_ph_parse_dtype_.
  destruct (dtype a) as [s |]; [| discriminate].
  destruct (c_string s) as [| c0 [| c1 [| c2 [| c3 l]]]];
    try (intros H; injection H as _ <-; exact HP).
  destruct (Ascii.eqb c0 "<"), (Ascii.eqb c0 ">"), (Ascii.eqb c1 "i"),
    (Ascii.eqb c1 "u"), (Ascii.eqb c1 "f"), (Ascii.eqb c2 "1"),
    (Ascii.eqb c2 "2"), (Ascii.eqb c2 "4"), (Ascii.eqb c2 "8");
    intros H; injection H as _ <-; auto.
Qed.

Lemma parse_dict_keeps (a : npio_Array) (text : list ascii) (e : Z)
  (a' : npio_Array) :
  P a -> npio_ph_parse_dict_ cs junk a text = Ret (e, a') -> P a'.
Proof.
  intros HP. unfold npio_ph_parse_dict_.
  destruct text as [| c p]; [intros H; injection H as _ <-; exact HP |].
  destruct (negb (Ascii.eqb c "{"));
    [intros H; injection H as _ <-; exact HP |].
  destruct (parse_dict_loop cs junk (S (List.length p)) a p)
    as [[e1 a1] | |] eqn:El; cbn [bind]; try discriminate.
  pose proof (parse_dict_loop_keeps _ _ _ _ _ HP El) as HP1.
  destruct (negb (e1 =? 0)); [intros H; injection H as _ <-; exact HP1 |].
  apply parse_dtype_keeps. exact HP1.
Qed.

End ParserInvariant.

Lemma parse_dict_transport {heap : Heap} (cs : bool) (junk : nat -> Z)
  (a : npio_Array) (text : list ascii) (e : Z) (a' : npio_Array) :
  npio_ph_parse_dict_ cs junk a text = Ret (e, a') ->
  transport a' = transport a.
Proof.
  apply (parse_dict_keeps (fun x => transport x = transport a));
    try (intros; assumption); reflexivity.
Qed.

(** X10: whatever the text and whatever the result, [npio_ph_parse_dict_]
    changes only the fields a dictionary describes: the version, the
    header length, the data pointer, the descriptor number, the buffers
    and the flags of the transport are those it was given. *)
Theorem parse_dict_keeps_transport (cs : bool) (junk : nat -> Z)
  (a : npio_Array) (text : list ascii) (e : Z) (a' : npio_Array) :
  npio_ph_parse_dict_ cs junk a text = Ret (e, a') ->
  major_version a' = major_version a
  /\ minor_version a' = minor_version a
  /\ header_len a' = header_len a
  /\ data a' = data a
  /\ _fd a' = _fd a
  /\ _buf a' = _buf a
  /\ _buf_size a' = _buf_size a
  /\ _hdr_buf a' = _hdr_buf a
  /\ _mmapped a' = _mmapped a
  /\ _malloced a' = _malloced a
  /\ _opened a' = _opened a.
Proof.
  intros H. apply parse_dict_transport in H. unfold transport in H.
  injection H as -> -> -> -> -> -> -> -> -> -> ->.
  repeat split.
Qed.

Lemma parse_dict_keeps_transport_witness :
  exists e a',
    npio_ph_parse_dict_ true stale_words
      (set_fd (npio_init_array true zeroed) 5)
      (chars "{'shape': (3, 4), 'descr': '>u2', 'fortran_order': True, }")
    = Ret (e, a')
    /\ _fd a' = 5 /\ major_version a' = 1 /\ data a' = NullPtr.
Proof.
  do 2 eexists. split; [vm_compute; reflexivity |].
  match goal with
  | |- _fd ?x = _ /\ _ =>
      pose proof (parse_dict_keeps_transport true stale_words
                    (set_fd (npio_init_array true zeroed) 5)
                    (chars "{'shape': (3, 4), 'descr': '>u2', 'fortran_order': True, }")
                    0 x ltac:(vm_compute; reflexivity)) as H
  end.
  destruct H as (H1 & _ & _ & H4 & H5 & _).
  split; [exact H5 | split; [exact H1 | exact H4]].
Defined.

(** ** Termination *)

(** X11: the loops of the parser end on every input.  Each turn of the
    loop over the dictionary and of the loop over the tuple consumes at
    least one character, so [npio_load_header_mem4], [npio_ph_parse_dict_]
    and [npio_ph_parse_shape_] always come back, with a code or with
    undefined behaviour, and never run the loops out. *)
Theorem header_parser_terminates (cs : bool) (junk : nat -> Z)
  (p : list ascii) (sz : Z) (a : npio_Array) (max_dim : Z) :
  npio_load_header_mem4 cs junk p sz a max_dim <> Timeout
  /\ npio_ph_parse_dict_ cs junk a p <> Timeout
  /\ npio_ph_parse_shape_ cs junk a p <> Timeout.
Proof.
  split; [| split; [apply parse_dict_total | apply parse_shape_total]].
  unfold npio_load_header_mem4.
  destruct (to_size_t sz <? 16); [discriminate |].
  destruct (Z.of_nat (List.length p) <? to_size_t sz); [discriminate |].
  set (a1 := if _mmapped a =? 0 then set_buf a p (to_size_t sz) else a).
  set (buf := firstn (Z.to_nat (to_size_t sz)) p).
  pose proof (prelude_no_timeout cs buf a1) as Hpre.
  destruct (npio_load_header_prelude_ cs buf a1) as [[[err a2] q] | |];
    cbn [bind]; [| discriminate | contradiction].
  destruct (negb (err =? 0)); [discriminate |].
  destruct (2 ^ 63 <=? header_len a2); [discriminate |].
  apply parse_dict_total.
Qed.

(** ** The type string *)

Lemma list_eqb_true (l m : list ascii) : list_eqb l m = true -> l = m.
Proof. unfold list_eqb. now destruct (list_eq_dec ascii_dec l m). Qed.

Lemma list_eqb_3 (c0 c1 c2 d0 d1 d2 : ascii) :
  list_eqb [c0; c1; c2] [d0; d1; d2]
  = Ascii.eqb c0 d0 && Ascii.eqb c1 d1 && Ascii.eqb c2 d2.
Proof.
  unfold list_eqb.
  destruct (list_eq_dec ascii_dec [c0; c1; c2] [d0; d1; d2]) as [E | NE].
  - injection E as -> -> ->. now rewrite !Ascii.eqb_refl.
  - destruct (Ascii.eqb_spec c0 d0) as [-> |]; [| reflexivity].
    destruct (Ascii.eqb_spec c1 d1) as [-> |]; [| reflexivity].
    destruct (Ascii.eqb_spec c2 d2) as [-> |]; [| reflexivity].
    now contradiction NE.
Qed.

Lemma is_supported_dtype_length (s : list ascii) :
  List.length s <> 3%nat -> is_supported_dtype s = false.
Proof.
  intros Hlen. unfold is_supported_dtype.
  destruct (existsb _ supported_dtypes) eqn:E; [| reflexivity].
  apply existsb_exists in E. destruct E as (t & Hin & Heq).
  apply list_eqb_true in Heq. subst s. exfalso. apply Hlen.
  unfold supported_dtypes in Hin. cbn [In] in Hin.
  repeat (destruct Hin as [<- | Hin]; [reflexivity |]). contradiction.
Qed.

(** X9: [npio_ph_parse_dtype_] accepts the 24 strings made of [<] or [>],
    of [i], [u] or [f], and of [1], [2], [4] or [8], and answers [ENOTSUP]
    to every other string. *)
Theorem parse_dtype_accepts_exactly (a : npio_Array) (s : list ascii) :
  dtype a = Some s ->
  exists a',
    npio_ph_parse_dtype_ a
    = Ret (if is_supported_dtype (c_string s) then 0 else ENOTSUP, a').
Proof.
  intros Hs. unfold npio_ph_parse_dtype_. rewrite Hs.
  destruct (c_string s) as [| c0 [| c1 [| c2 [| c3 l]]]];
    try (rewrite is_supported_dtype_length by (cbn [List.length]; lia);
         eexists; reflexivity).
  unfold is_supported_dtype, supported_dtypes.
  cbn [existsb chars list_ascii_of_string].
  rewrite !list_eqb_3.
  destruct (Ascii.eqb c0 "<"), (Ascii.eqb c0 ">"), (Ascii.eqb c1 "i"),
    (Ascii.eqb c1 "u"), (Ascii.eqb c1 "f"), (Ascii.eqb c2 "1"),
    (Ascii.eqb c2 "2"), (Ascii.eqb c2 "4"), (Ascii.eqb c2 "8");
    eexists; reflexivity.
Qed.

Lemma parse_dtype_accepts_exactly_witness :
  exists a',
    npio_ph_parse_dtype_
      (set_dtype (npio_init_array true zeroed) (Some (chars "|b1")))
    = Ret (ENOTSUP, a').
Proof.
  apply (parse_dtype_accepts_exactly
           (set_dtype (npio_init_array true zeroed) (Some (chars "|b1")))
           (chars "|b1")).
  reflexivity.
Defined.

(** The fields after a successful [npio_ph_parse_dtype_]. *)
Lemma parse_dtype_success (a a' : npio_Array) :
  npio_ph_parse_dtype_ a = Ret (0, a') ->
  supported_width (bit_width a')
  /\ (little_endian a' = 0 \/ little_endian a' = 1)
  /\ ((is_signed a' = 1 /\ floating_point a' = 0)
      \/ (is_signed a' = 0 /\ floating_point a' = 0)
      \/ (is_signed a' = 1 /\ floating_point a' = 1))
  /\ exists s, dtype a' = Some s /\ List.length (c_string s) = 3%nat.
Proof.
  unfold npio_ph_parse_dtype_.
  destruct (dtype a) as [s |] eqn:Hs; [| discriminate].
  destruct (c_string s) as [| c0 [| c1 [| c2 [| c3 l]]]] eqn:Hc;
    try discriminate.
  unfold supported_width, ENOTSUP.
  destruct (Ascii.eqb c0 "<"), (Ascii.eqb c0 ">"), (Ascii.eqb c1 "i"),
    (Ascii.eqb c1 "u"), (Ascii.eqb c1 "f"), (Ascii.eqb c2 "1"),
    (Ascii.eqb c2 "2"), (Ascii.eqb c2 "4"), (Ascii.eqb c2 "8");
    intros H; try discriminate H; injection H as <-;
    cbn [bit_width little_endian is_signed floating_point dtype
         set_bit_width set_kind set_little_endian];
    (split; [lia |]); (split; [lia |]); (split; [lia |]);
    exists s; rewrite Hs, Hc; split; reflexivity.
Qed.

Lemma parse_dict_success (cs : bool) (junk : nat -> Z) (a a' : npio_Array)
  (text : list ascii) :
  npio_ph_parse_dict_ cs junk a text = Ret (0, a') ->
  exists a1, npio_ph_parse_dtype_ a1 = Ret (0, a').
Proof.
  unfold npio_ph_parse_dict_, EINVAL.
  destruct text as [| c p]; [discriminate |].
  destruct (negb (Ascii.eqb c "{")); [discriminate |].
  destruct (parse_dict_loop cs junk (S (List.length p)) a p)
    as [[e1 a1] | |]; cbn [bind]; try discriminate.
  destruct (Z.eqb_spec e1 0) as [-> | NE]; cbn [negb].
  - intros H. now exists a1.
  - intros H. injection H as E _. contradiction.
Qed.

Lemma load_header_mem4_success (cs : bool) (junk : nat -> Z)
  (p : list ascii) (sz : Z) (a : npio_Array) (max_dim : Z)
  (a' : npio_Array) :
  npio_load_header_mem4 cs junk p sz a max_dim = Ret (0, a') ->
  exists a1 text, npio_ph_parse_dict_ cs junk a1 text = Ret (0, a').
Proof.
  unfold npio_load_header_mem4, EINVAL.
  destruct (to_size_t sz <? 16); [discriminate |].
  destruct (Z.of_nat (List.length p) <? to_size_t sz); [discriminate |].
  destruct (npio_load_header_prelude_ cs _ _) as [[[e1 a1] q] | |];
    cbn [bind]; try discriminate.
  destruct (Z.eqb_spec e1 0) as [-> | NE]; cbn [negb].
  - destruct (2 ^ 63 <=? header_len a1); [discriminate |].
    intros H. eauto.
  - intros H. injection H as E _. contradiction.
Qed.

(** X12: after every successful [npio_load_header_mem4] the descriptor
    carries one of the supported types: a width of 8, 16, 32 or 64 bits,
    an endianness flag of 0 or 1, one of the three kinds, and a type
    string of three characters. *)
Theorem load_header_mem4_dtype_supported (cs : bool) (junk : nat -> Z)
  (p : list ascii) (sz : Z) (a : npio_Array) (max_dim : Z)
  (a' : npio_Array) :
  npio_load_header_mem4 cs junk p sz a max_dim = Ret (0, a') ->
  supported_width (bit_width a')
  /\ (little_endian a' = 0 \/ little_endian a' = 1)
  /\ ((is_signed a' = 1 /\ floating_point a' = 0)
      \/ (is_signed a' = 0 /\ floating_point a' = 0)
      \/ (is_signed a' = 1 /\ floating_point a' = 1))
  /\ exists s, dtype a' = Some s /\ List.length (c_string s) = 3%nat.
Proof.
  intros H. apply load_header_mem4_success in H.
  destruct H as (a1 & text & H). apply parse_dict_success in H.
  destruct H as (a2 & H). now apply parse_dtype_success in H.
Qed.

Lemma load_header_mem4_dtype_supported_witness :
  exists a',
    npio_load_header_mem4 true stale_words
      (npy_v1 "{'descr': '>u2', 'fortran_order': False, 'shape': (4,), }" 12
         [])
      80 (npio_init_array true zeroed) NPIO_DEFAULT_MAX_DIM
    = Ret (0, a')
    /\ supported_width (bit_width a')
    /\ (little_endian a' = 0 \/ little_endian a' = 1).
Proof.
  eexists. split; [vm_compute; reflexivity |].
  match goal with
  | |- supported_width (bit_width ?x) /\ _ =>
      pose proof (load_header_mem4_dtype_supported true stale_words
                    (npy_v1 "{'descr': '>u2', 'fortran_order': False, 'shape': (4,), }"
                       12 [])
                    80 (npio_init_array true zeroed) NPIO_DEFAULT_MAX_DIM x
                    ltac:(vm_compute; reflexivity)) as H
  end.
  destruct H as (H1 & H2 & _). split; [exact H1 | exact H2].
Defined.

(** ** Byte swapping *)

Lemma swap_loop16_unfold (n : Z) (b0 b1 : ascii) (r : list ascii) :
  swap_loop16 n (b0 :: b1 :: r)
  = if n <=? 0 then Some (b0 :: b1 :: r)
    else option_map (fun t => b1 :: b0 :: t) (swap_loop16 (n - 1) r).
Proof. reflexivity. Qed.

Lemma swap_loop32_unfold (n : Z) (b0 b1 b2 b3 : ascii) (r : list ascii) :
  swap_loop32 n (b0 :: b1 :: b2 :: b3 :: r)
  = if n <=? 0 then Some (b0 :: b1 :: b2 :: b3 :: r)
    else option_map (fun t => b3 :: b2 :: b1 :: b0 :: t)
           (swap_loop32 (n - 1) r).
Proof. reflexivity. Qed.

Lemma swap_loop64_unfold (n : Z) (b0 b1 b2 b3 b4 b5 b6 b7 : ascii)
  (r : list ascii) :
  swap_loop64 n (b0 :: b1 :: b2 :: b3 :: b4 :: b5 :: b6 :: b7 :: r)
  = if n <=? 0
    then Some (b0 :: b1 :: b2 :: b3 :: b4 :: b5 :: b6 :: b7 :: r)
    else option_map
           (fun t => b7 :: b6 :: b5 :: b4 :: b3 :: b2 :: b1 :: b0 :: t)
           (swap_loop64 (n - 1) r).
Proof. reflexivity. Qed.

Lemma swap_loop16_done (n : Z) (l : list ascii) :
  n <= 0 -> swap_loop16 n l = Some l.
Proof.
  intros H. destruct l as [| b0 l]; cbn [swap_loop16];
    destruct (Z.leb_spec n 0); (reflexivity || lia).
Qed.

Lemma swap_loop32_done (n : Z) (l : list ascii) :
  n <= 0 -> swap_loop32 n l = Some l.
Proof.
  intros H. destruct l as [| b0 l]; cbn [swap_loop32];
    destruct (Z.leb_spec n 0); (reflexivity || lia).
Qed.

Lemma swap_loop64_done (n : Z) (l : list ascii) :
  n <= 0 -> swap_loop64 n l = Some l.
Proof.
  intros H. destruct l as [| b0 l]; cbn [swap_loop64];
    destruct (Z.leb_spec n 0); (reflexivity || lia).
Qed.

Lemma swap_loop16_spec :
  forall (n : nat) (l : list ascii),
    (n * 2 <= List.length l)%nat ->
    swap_loop16 (Z.of_nat n) l = Some (reverse_elements 2 n l).
Proof.
  induction n as [| n IH]; intros l Hl.
  - now apply swap_loop16_done.
  - destruct l as [| b0 [| b1 r]]; cbn [List.length] in Hl; try lia.
    rewrite swap_loop16_unfold.
    destruct (Z.leb_spec (Z.of_nat (S n)) 0) as [Hle | Hgt]; [lia | clear Hgt].
    replace (Z.of_nat (S n) - 1) with (Z.of_nat n) by lia.
    rewrite IH by lia. reflexivity.
Qed.

Lemma swap_loop32_spec :
  forall (n : nat) (l : list ascii),
    (n * 4 <= List.length l)%nat ->
    swap_loop32 (Z.of_nat n) l = Some (reverse_elements 4 n l).
Proof.
  induction n as [| n IH]; intros l Hl.
  - now apply swap_loop32_done.
  - destruct l as [| b0 [| b1 [| b2 [| b3 r]]]]; cbn [List.length] in Hl;
      try lia.
    rewrite swap_loop32_unfold.
    destruct (Z.leb_spec (Z.of_nat (S n)) 0) as [Hle | Hgt]; [lia | clear Hgt].
    replace (Z.of_nat (S n) - 1) with (Z.of_nat n) by lia.
    rewrite IH by lia. reflexivity.
Qed.

Lemma swap_loop64_spec :
  forall (n : nat) (l : list ascii),
    (n * 8 <= List.length l)%nat ->
    swap_loop64 (Z.of_nat n) l = Some (reverse_elements 8 n l).
Proof.
  induction n as [| n IH]; intros l Hl.
  - now apply swap_loop64_done.
  - destruct l as [| b0 [| b1 [| b2 [| b3 [| b4 [| b5 [| b6 [| b7 r]]]]]]]];
      cbn [List.length] in Hl; try lia.
    rewrite swap_loop64_unfold.
    destruct (Z.leb_spec (Z.of_nat (S n)) 0) as [Hle | Hgt]; [lia | clear Hgt].
    replace (Z.of_nat (S n) - 1) with (Z.of_nat n) by lia.
    rewrite IH by lia. reflexivity.
Qed.

Lemma reverse_elements_one :
  forall (n : nat) (l : list ascii), reverse_elements 1 n l = l.
Proof.
  induction n as [| n IH]; intros l; [reflexivity |].
  cbn [reverse_elements]. rewrite IH.
  destruct l as [| b l]; reflexivity.
Qed.

Lemma swap_bytes_spec (n k : nat) (mem : list ascii) :
  k = 1%nat \/ k = 2%nat \/ k = 4%nat \/ k = 8%nat ->
  (n * k <= List.length mem)%nat ->
  npio_swap_bytes (Z.of_nat n) (Z.of_nat (8 * k)) mem
  = Ret (0, reverse_elements k n mem).
Proof.
  intros Hk Hlen. unfold npio_swap_bytes.
  destruct Hk as [-> | [-> | [-> | ->]]].
  - now rewrite reverse_elements_one.
  - change (Z.of_nat (8 * 2)) with 16. cbn [Z.eqb Pos.eqb].
    now rewrite swap_loop16_spec.
  - change (Z.of_nat (8 * 4)) with 32. cbn [Z.eqb Pos.eqb].
    now rewrite swap_loop32_spec.
  - change (Z.of_nat (8 * 8)) with 64. cbn [Z.eqb Pos.eqb].
    now rewrite swap_loop64_spec.
Qed.

(** X16: [npio_swap_bytes] on [n] elements of 1, 2, 4 or 8 bytes that lie
    inside the object reverses the bytes of each of them, in place, and
    leaves what follows them; for any other width it returns [ENOTSUP]
    and leaves the data as it is. *)
Theorem swap_bytes_reverses_elements (n k : nat) (mem : list ascii) :
  (k = 1%nat \/ k = 2%nat \/ k = 4%nat \/ k = 8%nat ->
   (n * k <= List.length mem)%nat ->
   npio_swap_bytes (Z.of_nat n) (Z.of_nat (8 * k)) mem
   = Ret (0, reverse_elements k n mem))
  /\ forall count w,
       w <> 8 -> w <> 16 -> w <> 32 -> w <> 64 ->
       npio_swap_bytes count w mem = Ret (ENOTSUP, mem).
Proof.
  split; [exact (swap_bytes_spec n k mem) |].
  intros count w H8 H16 H32 H64. unfold npio_swap_bytes.
  apply Z.eqb_neq in H8, H16, H32, H64.
  now rewrite H8, H16, H32, H64.
Qed.

Lemma swap_bytes_reverses_elements_witness :
  npio_swap_bytes 2 32 (chars "abcdefghij")
  = Ret (0, chars "dcbahgfeij").
Proof.
  apply (proj1 (swap_bytes_reverses_elements 2 4 (chars "abcdefghij"))).
  - right. right. left. reflexivity.
  - cbn. lia.
Defined.

Lemma swap_loop16_twice :
  forall (k : nat) (l : list ascii) (n : Z) (m : list ascii),
    (List.length l <= k)%nat ->
    swap_loop16 n l = Some m -> swap_loop16 n m = Some l.
Proof.
  induction k as [| k IH]; intros l n m Hk.
  - destruct l; [| cbn [List.length] in Hk; lia].
    cbn [swap_loop16]. destruct (n <=? 0) eqn:E; [| discriminate].
    intros H. injection H as <-. cbn [swap_loop16]. now rewrite E.
  - destruct (Z.leb_spec n 0) as [Hn | Hn].
    { rewrite swap_loop16_done by assumption. intros H. injection H as <-.
      now apply swap_loop16_done. }
    destruct l as [| b0 [| b1 r]];
      try (cbn [swap_loop16]; destruct (Z.leb_spec n 0); [lia | discriminate]).
    rewrite swap_loop16_unfold.
    destruct (Z.leb_spec n 0) as [Hle | Hgt]; [lia | clear Hgt].
    destruct (swap_loop16 (n - 1) r) as [t |] eqn:E; [| discriminate].
    cbn [option_map]. intros H. injection H as <-.
    rewrite swap_loop16_unfold.
    destruct (Z.leb_spec n 0) as [Hle | Hgt]; [lia | clear Hgt].
    rewrite (IH r (n - 1) t) by (cbn [List.length] in Hk; lia || exact E).
    reflexivity.
Qed.

Lemma swap_loop32_twice :
  forall (k : nat) (l : list ascii) (n : Z) (m : list ascii),
    (List.length l <= k)%nat ->
    swap_loop32 n l = Some m -> swap_loop32 n m = Some l.
Proof.
  induction k as [| k IH]; intros l n m Hk.
  - destruct l; [| cbn [List.length] in Hk; lia].
    cbn [swap_loop32]. destruct (n <=? 0) eqn:E; [| discriminate].
    intros H. injection H as <-. cbn [swap_loop32]. now rewrite E.
  - destruct (Z.leb_spec n 0) as [Hn | Hn].
    { rewrite swap_loop32_done by assumption. intros H. injection H as <-.
      now apply swap_loop32_done. }
    destruct l as [| b0 [| b1 [| b2 [| b3 r]]]];
      try (cbn [swap_loop32]; destruct (Z.leb_spec n 0); [lia | discriminate]).
    rewrite swap_loop32_unfold.
    destruct (Z.leb_spec n 0) as [Hle | Hgt]; [lia | clear Hgt].
    destruct (swap_loop32 (n - 1) r) as [t |] eqn:E; [| discriminate].
    cbn [option_map]. intros H. injection H as <-.
    rewrite swap_loop32_unfold.
    destruct (Z.leb_spec n 0) as [Hle | Hgt]; [lia | clear Hgt].
    rewrite (IH r (n - 1) t) by (cbn [List.length] in Hk; lia || exact E).
    reflexivity.
Qed.

Lemma swap_loop64_twice :
  forall (k : nat) (l : list ascii) (n : Z) (m : list ascii),
    (List.length l <= k)%nat ->
    swap_loop64 n l = Some m -> swap_loop64 n m = Some l.
Proof.
  induction k as [| k IH]; intros l n m Hk.
  - destruct l; [| cbn [List.length] in Hk; lia].
    cbn [swap_loop64]. destruct (n <=? 0) eqn:E; [| discriminate].
    intros H. injection H as <-. cbn [swap_loop64]. now rewrite E.
  - destruct (Z.leb_spec n 0) as [Hn | Hn].
    { rewrite swap_loop64_done by assumption. intros H. injection H as <-.
      now apply swap_loop64_done. }
    destruct l as [| b0 [| b1 [| b2 [| b3 [| b4 [| b5 [| b6 [| b7 r]]]]]]]];
      try (cbn [swap_loop64]; destruct (Z.leb_spec n 0); [lia | discriminate]).
    rewrite swap_loop64_unfold.
    destruct (Z.leb_spec n 0) as [Hle | Hgt]; [lia | clear Hgt].
    destruct (swap_loop64 (n - 1) r) as [t |] eqn:E; [| discriminate].
    cbn [option_map]. intros H. injection H as <-.
    rewrite swap_loop64_unfold.
    destruct (Z.leb_spec n 0) as [Hle | Hgt]; [lia | clear Hgt].
    rewrite (IH r (n - 1) t) by (cbn [List.length] in Hk; lia || exact E).
    reflexivity.
Qed.

Lemma swap_bytes_twice (n w : Z) (mem m1 : list ascii) :
  npio_swap_bytes n w mem = Ret (0, m1) ->
  npio_swap_bytes n w m1 = Ret (0, mem).
Proof.
  unfold npio_swap_bytes, ENOTSUP.
  destruct (w =? 8); [intros H; injection H as <-; reflexivity |].
  destruct (w =? 16).
  { destruct (swap_loop16 n mem) as [t |] eqn:E; [| discriminate].
    intros H. injection H as <-.
    now rewrite (swap_loop16_twice _ mem n t (Nat.le_refl _) E). }
  destruct (w =? 32).
  { destruct (swap_loop32 n mem) as [t |] eqn:E; [| discriminate].
    intros H. injection H as <-.
    now rewrite (swap_loop32_twice _ mem n t (Nat.le_refl _) E). }
  destruct (w =? 64).
  { destruct (swap_loop64 n mem) as [t |] eqn:E; [| discriminate].
    intros H. injection H as <-.
    now rewrite (swap_loop64_twice _ mem n t (Nat.le_refl _) E). }
  discriminate.
Qed.

(** X15: [npio_swap_bytes] undoes itself: whenever a call succeeds, the
    same call on its result gives back the bytes it started from. *)
Theorem swap_bytes_involution (n w : Z) (mem m1 : list ascii) :
  npio_swap_bytes n w mem = Ret (0, m1) ->
  npio_swap_bytes n w m1 = Ret (0, mem)
  /\ List.length m1 = List.length mem.
Proof.
  intros H. split; [now apply swap_bytes_twice |].
  revert H. unfold npio_swap_bytes, ENOTSUP.
  assert (L16 : forall k l n0 m,
             (List.length l <= k)%nat -> swap_loop16 n0 l = Some m ->
             List.length m = List.length l).
  { induction k as [| k IH]; intros l n0 m Hk.
    - destruct l; [| cbn [List.length] in Hk; lia].
      cbn [swap_loop16]. destruct (n0 <=? 0); [| discriminate].
      now intros H; injection H as <-.
    - destruct (Z.leb_spec n0 0) as [Hn | Hn].
      { rewrite swap_loop16_done by assumption.
        now intros H; injection H as <-. }
      destruct l as [| b0 [| b1 r]];
        try (cbn [swap_loop16]; destruct (Z.leb_spec n0 0);
             [lia | discriminate]).
      rewrite swap_loop16_unfold. destruct (Z.leb_spec n0 0) as [Hle | Hgt]; [lia | clear Hgt].
      destruct (swap_loop16 (n0 - 1) r) as [t |] eqn:E; [| discriminate].
      cbn [option_map]. intros H. injection H as <-. cbn [List.length].
      rewrite (IH r (n0 - 1) t) by (cbn [List.length] in Hk; lia || exact E).
      reflexivity. }
  assert (L32 : forall k l n0 m,
             (List.length l <= k)%nat -> swap_loop32 n0 l = Some m ->
             List.length m = List.length l).
  { induction k as [| k IH]; intros l n0 m Hk.
    - destruct l; [| cbn [List.length] in Hk; lia].
      cbn [swap_loop32]. destruct (n0 <=? 0); [| discriminate].
      now intros H; injection H as <-.
    - destruct (Z.leb_spec n0 0) as [Hn | Hn].
      { rewrite swap_loop32_done by assumption.
        now intros H; injection H as <-. }
      destruct l as [| b0 [| b1 [| b2 [| b3 r]]]];
        try (cbn [swap_loop32]; destruct (Z.leb_spec n0 0);
             [lia | discriminate]).
      rewrite swap_loop32_unfold. destruct (Z.leb_spec n0 0) as [Hle | Hgt]; [lia | clear Hgt].
      destruct (swap_loop32 (n0 - 1) r) as [t |] eqn:E; [| discriminate].
      cbn [option_map]. intros H. injection H as <-. cbn [List.length].
      rewrite (IH r (n0 - 1) t) by (cbn [List.length] in Hk; lia || exact E).
      reflexivity. }
  assert (L64 : forall k l n0 m,
             (List.length l <= k)%nat -> swap_loop64 n0 l = Some m ->
             List.length m = List.length l).
  { induction k as [| k IH]; intros l n0 m Hk.
    - destruct l; [| cbn [List.length] in Hk; lia].
      cbn [swap_loop64]. destruct (n0 <=? 0); [| discriminate].
      now intros H; injection H as <-.
    - destruct (Z.leb_spec n0 0) as [Hn | Hn].
      { rewrite swap_loop64_done by assumption.
        now intros H; injection H as <-. }
      destruct l as [| b0 [| b1 [| b2 [| b3 [| b4 [| b5 [| b6 [| b7 r]]]]]]]];
        try (cbn [swap_loop64]; destruct (Z.leb_spec n0 0);
             [lia | discriminate]).
      rewrite swap_loop64_unfold. destruct (Z.leb_spec n0 0) as [Hle | Hgt]; [lia | clear Hgt].
      destruct (swap_loop64 (n0 - 1) r) as [t |] eqn:E; [| discriminate].
      cbn [option_map]. intros H. injection H as <-. cbn [List.length].
      rewrite (IH r (n0 - 1) t) by (cbn [List.length] in Hk; lia || exact E).
      reflexivity. }
  destruct (w =? 8); [now intros H; injection H as <- |].
  destruct (w =? 16).
  { destruct (swap_loop16 n mem) as [t |] eqn:E; [| discriminate].
    intros H. injection H as <-. exact (L16 _ mem n t (Nat.le_refl _) E). }
  destruct (w =? 32).
  { destruct (swap_loop32 n mem) as [t |] eqn:E; [| discriminate].
    intros H. injection H as <-. exact (L32 _ mem n t (Nat.le_refl _) E). }
  destruct (w =? 64).
  { destruct (swap_loop64 n mem) as [t |] eqn:E; [| discriminate].
    intros H. injection H as <-. exact (L64 _ mem n t (Nat.le_refl _) E). }
  discriminate.
Qed.

Lemma swap_bytes_involution_witness :
  npio_swap_bytes 3 16 (chars "badcfe") = Ret (0, chars "abcdef")
  /\ List.length (chars "badcfe") = List.length (chars "abcdef").
Proof.
  apply (swap_bytes_involution 3 16 (chars "abcdef") (chars "badcfe")).
  reflexivity.
Defined.

(** ** Loading the data *)

Lemma set_data_region_endian (a : npio_Array) (m : list ascii) :
  little_endian (set_data_region a m) = little_endian a.
Proof. unfold set_data_region. now destruct (data a). Qed.

(** X17: [npio_load_data] returns 0 in two ways.  When the payload has
    been located in full (the descriptor is mapped, or [read] has delivered
    every byte asked for) the descriptor says afterwards that the data is
    in the byte order of the host, whatever the file said.  When [read] has
    delivered fewer bytes and [errno] is 0, the function has returned
    before the conversion: [little_endian] is as the header set it, and the
    payload is the bytes read followed by what [malloc] left there. *)
Theorem load_data_host_order (heap : Heap) (hle : bool) (junk : nat -> Z)
  (w : world) (a a' : npio_Array) (w' : world) :
  npio_load_data hle junk w a = Ret (0, a', w') ->
  let sz := to_size_t (size a * to_size_t (bit_width a)) / 8 in
  let '(nr, got, w1) := sys_read w (_fd a) sz in
  if negb (_mmapped a =? 0) || (nr =? to_ssize_t sz)
  then little_endian a' = (if hle then 1 else 0)
  else
    little_endian a' = little_endian a /\ w' = w1 /\ errno w' = 0
    /\ data a'
       = OwnPtr (got ++ fresh_bytes junk (List.length got)
                          (Z.to_nat sz - List.length got)).
Proof.
  cbv zeta. unfold npio_load_data, npio_load_data2.
  destruct (negb (data_offset a mod 16 =? 0));
    [intros H; discriminate H |].
  assert (Hk : forall a1 w1,
             little_endian a1 = little_endian a ->
             (if negb (1 =? 0)
                 && negb ((if hle then 1 else 0) =? little_endian a1)
              then
                '(err, m) <-
                  npio_swap_bytes
                    (size (set_little_endian a1 (if hle then 1 else 0)))
                    (to_size_t
                       (bit_width
                          (set_little_endian a1 (if hle then 1 else 0))))
                    (data_region
                       (set_little_endian a1 (if hle then 1 else 0))) ;;
                Ret (err,
                     set_data_region
                       (set_little_endian a1 (if hle then 1 else 0)) m, w1)
              else Ret (0, a1, w1)) = Ret (0, a', w') ->
             little_endian a' = (if hle then 1 else 0)).
  { intros a1 w1 _.
    change (negb (1 =? 0)) with true. cbn [andb].
    destruct (Z.eqb_spec (if hle then 1 else 0) (little_endian a1))
      as [E | NE]; cbn [negb].
    - intros H. injection H as <- _. now symmetry.
    - destruct (npio_swap_bytes _ _ _) as [[e2 m] | |]; cbn [bind];
        try discriminate.
      intros H. injection H as _ <- _.
      now rewrite set_data_region_endian. }
  unfold locate_data.
  destruct (sys_read w (_fd a)
              (to_size_t (size a * to_size_t (bit_width a)) / 8))
    as [[nr got] w1].
  destruct (Z.eqb_spec (_mmapped a) 0) as [Hm | Hm]; cbn [negb orb].
  - destruct (to_ssize_t _ <? 0); [intros H; discriminate H |].
    destruct (negb (grants payload_buffer _)); [intros H; discriminate H |].
    destruct (nr =? to_ssize_t _); cbn [negb bind].
    + apply Hk. reflexivity.
    + intros H. injection H as He <- <-.
      split; [reflexivity |]. split; [reflexivity |].
      split; [exact He | reflexivity].
  - destruct (npio_array_memsize a) as [m | |]; cbn [bind];
      try (intros H; discriminate H).
    destruct (negb (to_size_t (data_offset a + m) =? _buf_size a));
      [intros H; discriminate H |].
    apply Hk. reflexivity.
Qed.

(** [load_data_host_order] on a big-endian descriptor of two 16-bit
    elements, on a little-endian host: with the four bytes on descriptor 0
    the data is converted; with two bytes only, it is not. *)
Lemma load_data_host_order_witness :
  let a :=
    set_little_endian
      (set_bit_width
         (set_size (set_header_len (npio_init_array true zeroed) 118) 2) 16)
      0 in
  (exists a' w',
     npio_load_data true stale_words (one_file 0 (pipe (chars "abcd"))) a
     = Ret (0, a', w')
     /\ little_endian a' = 1
     /\ data a' = OwnPtr (chars "badc"))
  /\ (exists a' w',
        npio_load_data true stale_words (one_file 0 (pipe (chars "ab"))) a
        = Ret (0, a', w')
        /\ little_endian a' = 0
        /\ data a' = OwnPtr (chars "ab" ++ fresh_bytes stale_words 2 2)).
Proof.
  intros a. split.
  - do 2 eexists. split; [vm_compute; reflexivity |].
    split; [| reflexivity].
    match goal with
    | |- little_endian ?x = _ =>
        exact (load_data_host_order ample true stale_words
                 (one_file 0 (pipe (chars "abcd"))) a x _
                 ltac:(vm_compute; reflexivity))
    end.
  - do 2 eexists. split; [vm_compute; reflexivity |].
    match goal with
    | |- little_endian ?x = _ /\ _ =>
        pose proof (load_data_host_order ample true stale_words
                      (one_file 0 (pipe (chars "ab"))) a x _
                      ltac:(vm_compute; reflexivity)) as H
    end.
    cbv in H. destruct H as (H1 & _ & _ & H4).
    split; [exact H1 | reflexivity].
Defined.

(** ** The buffered header on short input *)

(** X21: when the first [read] of [npio_load_header_fd_read_] delivers
    fewer than twelve bytes, the function returns [errno] as it stands:
    that is [0], the code of success, when no call has failed before, and
    the descriptor is as it was. *)
Theorem header_fd_read_short_input (cs : bool) (junk : nat -> Z) (w : world)
  (fd : Z) (f : file) (a : npio_Array) (max_dim : Z) :
  fds w fd = Some f -> f_script f = [] ->
  (List.length (skipn (f_pos f) (f_bytes f)) < 12)%nat ->
  exists w',
    npio_load_header_fd_read_ cs junk w fd a max_dim = Ret (errno w, a, w')
    /\ errno w' = errno w.
Proof.
  intros Hfd Hs Hlen. unfold npio_load_header_fd_read_, sys_read.
  rewrite Hfd, Hs.
  destruct (Z.ltb_spec
              (Z.of_nat
                 (List.length
                    (firstn (Z.to_nat 12) (skipn (f_pos f) (f_bytes f))))) 12)
    as [_ | Hbad].
  - eexists. split; reflexivity.
  - rewrite length_firstn in Hbad. lia.
Qed.

Lemma header_fd_read_short_input_witness :
  exists w',
    npio_load_header_fd_read_ true stale_words
      (one_file 3 (pipe (magic ++ [ascii_of_nat 1; zero]))) 3
      (npio_init_array true zeroed) NPIO_DEFAULT_MAX_DIM
    = Ret (0, npio_init_array true zeroed, w')
    /\ errno w' = 0.
Proof.
  apply (header_fd_read_short_input true stale_words
           (one_file 3 (pipe (magic ++ [ascii_of_nat 1; zero]))) 3
           (pipe (magic ++ [ascii_of_nat 1; zero]))
           (npio_init_array true zeroed) NPIO_DEFAULT_MAX_DIM).
  - reflexivity.
  - reflexivity.
  - cbn. lia.
Defined.

(** ** An empty file *)

(** X22: [npio_load_header_fd3] on an empty regular file fails with
    [EINVAL]: [lseek] reports the size 0, [mmap] refuses a mapping of
    length 0 and sets [errno], and the [read] the function falls back on
    delivers nothing, so that [errno] is returned. *)
Theorem load_header_fd3_empty_file (cs : bool) (junk : nat -> Z) (w : world)
  (fd : Z) (f : file) (a : npio_Array) (max_dim : Z) :
  fds w fd = Some f -> f_bytes f = [] -> f_seekable f = true ->
  f_script f = [] ->
  exists w',
    npio_load_header_fd3 cs junk w fd a max_dim
    = Ret (EINVAL, (if _opened a =? 0 then set_fd a fd else a), w').
Proof.
  intros Hfd Hb Hseek Hs.
  unfold npio_load_header_fd3, sys_lseek_end. rewrite Hfd, Hseek, Hb.
  cbn [List.length Z.of_nat Z.ltb Z.compare].
  unfold sys_mmap. rewrite fds_set_file.
  cbn [Z.leb Z.compare].
  unfold npio_load_header_fd_read_, sys_read.
  cbn [fds set_errno set_file]. rewrite Z.eqb_refl.
  cbn [f_script f_bytes f_pos]. rewrite Hs.
  cbn [skipn firstn List.length Z.of_nat Z.ltb Z.compare errno set_file].
  rewrite firstn_nil. cbn [List.length Z.of_nat Z.ltb Z.compare].
  eexists. reflexivity.
Qed.

Lemma load_header_fd3_empty_file_witness :
  exists w',
    npio_load_header_fd3 true stale_words (one_file 3 (regular_file [])) 3
      (npio_init_array true zeroed) NPIO_DEFAULT_MAX_DIM
    = Ret (EINVAL, set_fd (npio_init_array true zeroed) 3, w').
Proof.
  apply (load_header_fd3_empty_file true stale_words
           (one_file 3 (regular_file [])) 3 (regular_file [])
           (npio_init_array true zeroed) NPIO_DEFAULT_MAX_DIM);
    reflexivity.
Defined.

(** ** Loading from memory *)

Lemma prelude_keeps_handles (cs : bool) (buf : list ascii)
  (a : npio_Array) (e : Z) (a' : npio_Array) (rest : list ascii) :
  npio_load_header_prelude_ cs buf a = Ret (e, a', rest) ->
  data a' = data a /\ _fd a' = _fd a /\ _mmapped a' = _mmapped a
  /\ _opened a' = _opened a /\ _buf a' = _buf a
  /\ _buf_size a' = _buf_size a.
Proof.
  unfold npio_load_header_prelude_.
  destruct (List.length buf <? 6)%nat; [discriminate |].
  destruct (negb (list_eqb (firstn 6 buf) magic)).
  { intros H. injection H as _ <- _. repeat split. }
  destruct (skipn 6 buf) as [| vmaj [| vmin q]]; try discriminate.
  cbn [major_version set_version].
  destruct (char_val cs vmaj =? 1).
  { destruct q as [| p0 [| p1 q]]; try discriminate.
    destruct (int_shl (char_val cs p1) 8) as [s1 | |]; cbn [bind];
      try discriminate.
    destruct (int_add (char_val cs p0) s1) as [r | |]; cbn [bind];
      try discriminate.
    intros H. injection H as _ <- _. repeat split. }
  destruct (char_val cs vmaj =? 2).
  { destruct q as [| p0 [| p1 [| p2 [| p3 q]]]]; try discriminate.
    destruct (int_shl (char_val cs p1) 8) as [s1 | |]; cbn [bind];
      try discriminate.
    destruct (int_add (char_val cs p0) s1) as [r | |]; cbn [bind];
      try discriminate.
    destruct (int_shl (char_val cs p2) 16) as [s2 | |]; cbn [bind];
      try discriminate.
    destruct (int_add r s2) as [r2 | |]; cbn [bind]; try discriminate.
    destruct (int_shl (char_val cs p3) 24) as [s3 | |]; cbn [bind];
      try discriminate.
    destruct (int_add r2 s3) as [r3 | |]; cbn [bind]; try discriminate.
    intros H. injection H as _ <- _. repeat split. }
  intros H. injection H as _ <- _. repeat split.
Qed.

(** [npio_load_header_mem4] keeps the data pointer, the descriptor number
    and the flags of the transport. *)
Lemma load_header_mem4_keeps_handles (cs : bool) (junk : nat -> Z)
  (p : list ascii) (sz : Z) (a : npio_Array) (max_dim : Z) (e : Z)
  (a' : npio_Array) :
  npio_load_header_mem4 cs junk p sz a max_dim = Ret (e, a') ->
  data a' = data a /\ _fd a' = _fd a /\ _mmapped a' = _mmapped a
  /\ _opened a' = _opened a.
Proof.
  unfold npio_load_header_mem4.
  destruct (to_size_t sz <? 16); [intros H; injection H as _ <-;
                                  repeat split |].
  destruct (Z.of_nat (List.length p) <? to_size_t sz); [discriminate |].
  set (a1 := if _mmapped a =? 0 then set_buf a p (to_size_t sz) else a).
  assert (H1 : data a1 = data a /\ _fd a1 = _fd a
               /\ _mmapped a1 = _mmapped a /\ _opened a1 = _opened a).
  { subst a1. destruct (_mmapped a =? 0); repeat split. }
  destruct (npio_load_header_prelude_ cs _ a1) as [[[e1 a2] q] | |] eqn:Ep;
    cbn [bind]; try discriminate.
  apply prelude_keeps_handles in Ep.
  destruct Ep as (E1 & E2 & E3 & E4 & _).
  destruct H1 as (F1 & F2 & F3 & F4).
  destruct (negb (e1 =? 0)).
  { intros H. injection H as _ <-. repeat split; congruence. }
  destruct (2 ^ 63 <=? header_len a2); [discriminate |].
  intros H. apply parse_dict_transport in H. unfold transport in H.
  injection H as _ _ _ G1 G2 _ _ _ G3 _ G4.
  repeat split; congruence.
Qed.

(** The branch of [npio_load_data2] for a descriptor that is not mapped. *)
Lemma load_data2_buffered_result {heap : Heap} (hle : bool) (junk : nat -> Z)
  (w : world) (a : npio_Array) (swap_bytes : Z) (a' : npio_Array)
  (w' : world) :
  _mmapped a = 0 ->
  npio_load_data2 hle junk w a swap_bytes = Ret (0, a', w') ->
  _mmapped a' = 0 /\ _fd a' = _fd a
  /\ exists bytes, data a' = OwnPtr bytes.
Proof.
  intros Hmm. unfold npio_load_data2, locate_data, EINVAL, ERANGE, ENOMEM.
  destruct (negb (data_offset a mod 16 =? 0)); [discriminate |].
  rewrite Hmm. cbn [Z.eqb negb].
  destruct (to_ssize_t _ <? 0); cbn [bind]; [discriminate |].
  destruct (negb (grants payload_buffer _)); cbn [bind]; [discriminate |].
  destruct (sys_read w (_fd a) _) as [[nr got] w2].
  set (a1 := set_data a _).
  assert (H1 : _mmapped a1 = 0 /\ _fd a1 = _fd a
               /\ exists bytes, data a1 = OwnPtr bytes).
  { subst a1. cbn [_mmapped _fd data set_data]. eauto. }
  clearbody a1.
  destruct (negb (nr =? to_ssize_t _)); cbn [bind].
  { intros H. injection H as _ <- _. exact H1. }
  destruct (negb (swap_bytes =? 0)
            && negb ((if hle then 1 else 0) =? little_endian a1)).
  - destruct (npio_swap_bytes _ _ _) as [[e2 m] | |]; cbn [bind];
      try discriminate.
    intros H. injection H as _ <- _.
    destruct H1 as (F1 & F2 & bytes & F3).
    unfold set_data_region. cbn [data set_little_endian]. rewrite F3.
    cbn [_mmapped _fd data set_data set_little_endian]. eauto.
  - intros H. injection H as <- _. exact H1.
Qed.

(** X20: [npio_load_mem4] takes only the header from the buffer.  The
    descriptor it fills is not marked as mapped and its [_fd] is the [0]
    of [npio_init_array], so that the payload is allocated and read from
    descriptor 0: after a success [data] is that allocation, not a pointer
    into the buffer. *)
Theorem load_mem4_reads_descriptor (cs hle : bool) (junk : nat -> Z)
  (w : world) (p : list ascii) (sz : Z) (a0 : npio_Array) (max_dim : Z)
  (a' : npio_Array) (w' : world) :
  npio_load_mem4 cs hle junk w p sz (npio_init_array hle a0) max_dim
  = Ret (0, a', w') ->
  _mmapped a' = 0 /\ _fd a' = 0 /\ exists bytes, data a' = OwnPtr bytes.
Proof.
  unfold npio_load_mem4.
  destruct (npio_load_header_mem4 cs junk p sz (npio_init_array hle a0)
              max_dim) as [[e1 a1] | |] eqn:Eh; cbn [bind]; try discriminate.
  apply load_header_mem4_keeps_handles in Eh.
  destruct Eh as (_ & E2 & E3 & _).
  cbn [_fd _mmapped npio_init_array] in E2, E3.
  destruct (Z.eqb_spec e1 0) as [-> | NE]; cbn [negb].
  2: { intros H. injection H as E _ _. contradiction. }
  unfold npio_load_data. intros H.
  apply load_data2_buffered_result in H; [| exact E3].
  destruct H as (H1 & H2 & H3). rewrite E2 in H2. auto.
Qed.

Lemma load_mem4_reads_descriptor_witness :
  exists a' w',
    npio_load_mem4 true true stale_words (one_file 0 (pipe (chars "abcd")))
      (npy_v1 "{'descr': '<i1', 'fortran_order': False, 'shape': (4,), }" 12
         (chars "wxyz"))
      84 (npio_init_array true zeroed) NPIO_DEFAULT_MAX_DIM
    = Ret (0, a', w')
    /\ data a' = OwnPtr (chars "abcd")
    /\ _mmapped a' = 0 /\ _fd a' = 0.
Proof.
  do 2 eexists. split; [vm_compute; reflexivity |].
  split; [reflexivity |].
  match goal with
  | |- _mmapped ?x = 0 /\ _ =>
      pose proof (load_mem4_reads_descriptor true true stale_words
                    (one_file 0 (pipe (chars "abcd")))
                    (npy_v1 "{'descr': '<i1', 'fortran_order': False, 'shape': (4,), }"
                       12 (chars "wxyz"))
                    84 zeroed NPIO_DEFAULT_MAX_DIM x _
                    ltac:(vm_compute; reflexivity)) as H
  end.
  destruct H as (H1 & H2 & _). split; [exact H1 | exact H2].
Defined.

(** ** A short write *)

(** X23: when the sink accepts only part of the header, [npio_save_fd]
    returns [errno] as it stands: [write] has not failed, so that is [0],
    the code of success, unless an earlier call left another value. *)
Theorem save_fd_short_write_returns_errno (w : world) (fd : Z) (f : file)
  (src : npio_Array) (k : nat) (script : list io_step) :
  savable src ->
  fds w fd = Some f -> f_script f = Transfer k :: script ->
  Z.of_nat k < header_need src ->
  exists w',
    npio_save_fd w fd src = Ret (errno w, w') /\ errno w' = errno w.
Proof.
  intros Hsrc Hfd Hs Hk.
  pose proof (header_text_bound src Hsrc) as HL.
  pose proof (saved_header_length_aligned 65536 src eq_refl ltac:(lia)) as Hlen.
  assert (Hsave : npio_save_header_mem 65536 src
                  = Ret (0, saved_header 65536 src)).
  { destruct Hsrc as (_ & Hsh & _). apply save_header_mem_ok; lia. }
  unfold npio_save_fd. rewrite Hsave. cbn [bind].
  change (negb (0 =? 0)) with false. cbv iota.
  unfold sys_write. rewrite Hfd, Hs.
  destruct (Z.ltb_spec
              (Z.of_nat (List.length (firstn k (saved_header 65536 src))))
              (Z.of_nat (List.length (saved_header 65536 src))))
    as [_ | Hbad].
  - eexists. split; reflexivity.
  - rewrite length_firstn in Hbad. lia.
Qed.

Lemma save_fd_short_write_returns_errno_witness :
  exists w',
    npio_save_fd
      (one_file 3 (mkFile [] 0 false false [Transfer 40])) 3
      (set_data (set_shape (npio_init_array true zeroed) 1 [2] 1)
         (OwnPtr (chars "12345678")))
    = Ret (0, w')
    /\ errno w' = 0.
Proof.
  apply (save_fd_short_write_returns_errno
           (one_file 3 (mkFile [] 0 false false [Transfer 40])) 3
           (mkFile [] 0 false false [Transfer 40])
           (set_data (set_shape (npio_init_array true zeroed) 1 [2] 1)
              (OwnPtr (chars "12345678")))
           40 []).
  - unfold savable, supported_width. cbn.
    repeat split; try lia; repeat constructor; lia.
  - reflexivity.
  - reflexivity.
  - vm_compute. reflexivity.
Defined.

(** ** The header, saved and loaded in memory *)

Lemma load_header_mem4_saved_sz (cs : bool) (junk : nat -> Z)
  (src a : npio_Array) (payload : list ascii) (sz max_dim : Z) :
  savable src ->
  sz mod 16 = 0 ->
  10 + Z.of_nat (List.length (header_text src)) <= sz ->
  cs = false \/ (header_need src - 10) mod 256 < 128 ->
  dim a = 0%nat ->
  Z.of_nat (List.length payload) < 2 ^ 62 ->
  exists a',
    npio_load_header_mem4 cs junk (saved_header sz src ++ payload)
      (Z.of_nat (List.length (saved_header sz src ++ payload))) a max_dim
    = Ret (0, a')
    /\ dim a' = dim src
    /\ firstn (dim a') (shape a') = firstn (dim src) (shape src)
    /\ (dim a' <= List.length (shape a'))%nat
    /\ size a' = to_size_t (product (firstn (dim src) (shape src)))
    /\ little_endian a' = (if little_endian src =? 0 then 0 else 1)
    /\ floating_point a' = (if floating_point src =? 0 then 0 else 1)
    /\ is_signed a'
       = (if floating_point src =? 0
          then if is_signed src =? 0 then 0 else 1 else 1)
    /\ bit_width a' = bit_width src
    /\ fortran_order a' = (if fortran_order src =? 0 then 0 else 1)
    /\ major_version a' = 1
    /\ header_len a' = header_need src - 10
    /\ _buf a'
       = (if _mmapped a =? 0 then saved_header sz src ++ payload else _buf a)
    /\ _buf_size a'
       = (if _mmapped a =? 0
          then Z.of_nat (List.length (saved_header sz src ++ payload))
          else _buf_size a).
Proof.
  intros Hsrc Hmod Hfit Hlow Hdim Hpay.
  pose proof (header_text_bound src Hsrc) as HL.
  pose proof (header_need_range src Hsrc) as (Hneed & _).
  pose proof (saved_header_length_aligned sz src Hmod Hfit) as Hlen.
  destruct (saved_header_split sz src) as (Hsplit & Hlen2).
  assert (Hhl : Z.of_nat (List.length (saved_body sz src))
                = header_need src - 10) by lia.
  destruct Hsrc as (Hd & Hsh & Hds & Hw).
  unfold npio_load_header_mem4.
  assert (Hsz : to_size_t
                  (Z.of_nat (List.length (saved_header sz src ++ payload)))
                = Z.of_nat (List.length (saved_header sz src ++ payload))).
  { unfold to_size_t, size_max. apply Z.mod_small.
    rewrite length_app, Nat2Z.inj_add. lia. }
  rewrite Hsz.
  destruct (Z.ltb_spec
              (Z.of_nat (List.length (saved_header sz src ++ payload))) 16)
    as [Hbad | _].
  { rewrite length_app, Nat2Z.inj_add in Hbad. lia. }
  rewrite Z.ltb_irrefl, Nat2Z.id, firstn_all.
  set (a1 := if _mmapped a =? 0
             then set_buf a (saved_header sz src ++ payload)
                    (Z.of_nat (List.length (saved_header sz src ++ payload)))
             else a).
  assert (Hdim1 : dim a1 = 0%nat).
  { subst a1. now destruct (_mmapped a =? 0). }
  assert (Hbuf1 : _buf a1
                  = (if _mmapped a =? 0 then saved_header sz src ++ payload
                     else _buf a)
                  /\ _buf_size a1
                     = (if _mmapped a =? 0
                        then Z.of_nat
                               (List.length (saved_header sz src ++ payload))
                        else _buf_size a)).
  { subst a1. destruct (_mmapped a =? 0); split; reflexivity. }
  clearbody a1.
  unfold saved_header. cbv zeta. rewrite <- !app_assoc.
  rewrite prelude_saved by (rewrite ?Hhl; lia || assumption).
  cbn [bind]. change (negb (0 =? 0)) with false. cbv iota.
  cbn [header_len set_header_len].
  destruct (Z.leb_spec (2 ^ 63) (Z.of_nat (List.length (saved_body sz src))))
    as [Hbad | _]; [lia |].
  rewrite header_window.
  destruct (parse_dict_saved cs junk src
              (set_header_len (set_version a1 1 0)
                 (Z.of_nat (List.length (saved_body sz src))))
              (firstn (dim src) (shape src))
              (repeat " "%char (pad_count sz src) ++ [newline])
              Hw Hdim1 Hds)
    as (a' & Hrun & Hdim' & Hshape & Hle & Hsize & H1 & H2 & H3 & H4 & H5
        & H6 & H7 & H8 & H9 & H10 & _).
  cbn [major_version header_len _mmapped _buf _buf_size
       set_header_len set_version] in H6, H7, H8, H9, H10.
  rewrite Hhl in H7.
  destruct Hbuf1 as (B1 & B2). rewrite B1 in H9. rewrite B2 in H10.
  exists a'. unfold saved_body in *. rewrite Hrun.
  rewrite Hdim', length_firstn, Nat.min_l by lia.
  rewrite Hdim', length_firstn, Nat.min_l in Hshape, Hle by lia.
  repeat split; assumption.
Qed.

(** X14: the header round trip in memory.  For a descriptor with at most
    32 dimensions below [2^63] and a supported width, and a buffer whose
    size is a multiple of 16 and which the text fits, the bytes that
    [npio_save_header_mem] writes are loaded by [npio_load_header_mem]
    into a fresh descriptor with the same dimensions and the same width;
    the header length it finds is the size of what was written, less the
    ten bytes of the prelude.  The flags come back as the type string and
    the dictionary carry them: [little_endian], [floating_point] and
    [fortran_order] as 1 when they were not 0, and [is_signed] as 1 for a
    floating-point type, whatever it was, since the type string has one
    letter for the kind.  So the flags are the same when they were 0 or 1
    and the floating-point type was signed, and an unsigned floating-point
    descriptor comes back signed. *)
Theorem header_round_trip_in_memory (cs hle : bool) (junk : nat -> Z)
  (src a0 : npio_Array) (sz : Z) :
  savable src ->
  sz mod 16 = 0 -> 64 <= sz ->
  10 + Z.of_nat (List.length (header_text src)) < sz ->
  cs = false \/ (header_need src - 10) mod 256 < 128 ->
  exists hdr a',
    npio_save_header_mem sz src = Ret (0, hdr)
    /\ Z.of_nat (List.length hdr) = header_need src
    /\ npio_load_header_mem cs junk hdr (Z.of_nat (List.length hdr))
         (npio_init_array hle a0)
       = Ret (0, a')
    /\ dim a' = dim src
    /\ firstn (dim a') (shape a') = firstn (dim src) (shape src)
    /\ size a' = product (firstn (dim src) (shape src)) mod 2 ^ 64
    /\ little_endian a' = (if little_endian src =? 0 then 0 else 1)
    /\ floating_point a' = (if floating_point src =? 0 then 0 else 1)
    /\ is_signed a'
       = (if floating_point src =? 0
          then if is_signed src =? 0 then 0 else 1 else 1)
    /\ bit_width a' = bit_width src
    /\ fortran_order a' = (if fortran_order src =? 0 then 0 else 1)
    /\ header_len a' = Z.of_nat (List.length hdr) - 10
    /\ (canonical_flags src ->
        little_endian a' = little_endian src
        /\ floating_point a' = floating_point src
        /\ is_signed a' = is_signed src
        /\ fortran_order a' = fortran_order src)
    /\ (floating_point src <> 0 -> is_signed src = 0 ->
        is_signed a' <> is_signed src).
Proof.
  intros Hsrc Hmod H64 Hfit Hlow.
  pose proof (saved_header_length_aligned sz src Hmod ltac:(lia)) as Hlen.
  exists (saved_header sz src).
  destruct (load_header_mem4_saved_sz cs junk src (npio_init_array hle a0) []
              sz NPIO_DEFAULT_MAX_DIM Hsrc Hmod ltac:(lia) Hlow eq_refl
              ltac:(cbn; lia))
    as (a' & Hrun & Hdim & Hshape & _ & Hsize & H1 & H2 & H3 & H4 & H5 & _
        & Hhl & _).
  rewrite app_nil_r in Hrun.
  exists a'. split.
  { destruct Hsrc as (_ & Hsh & _). apply save_header_mem_ok; lia. }
  split; [exact Hlen |]. split; [exact Hrun |].
  rewrite Hlen.
  split; [exact Hdim |]. split; [exact Hshape |]. split; [exact Hsize |].
  split; [exact H1 |]. split; [exact H2 |]. split; [exact H3 |].
  split; [exact H4 |]. split; [exact H5 |]. split; [exact Hhl |].
  split.
  - intros (Cle & Cfo & Cfp & Csg & Cfs).
    rewrite H1, H2, H3, H5.
    destruct Cle as [-> | ->], Cfo as [-> | ->], Cfp as [Efp | Efp],
      Csg as [Esg | Esg];
      rewrite Efp, Esg in *; cbn [Z.eqb];
      try (specialize (Cfs eq_refl); discriminate Cfs);
      repeat split.
  - intros Hfp Hsg. rewrite H3, Hsg.
    destruct (Z.eqb_spec (floating_point src) 0) as [E | _];
      [contradiction | discriminate].
Qed.

(** [header_round_trip_in_memory] for a 2 x 3 array of unsigned
    floating-point elements of 32 bits. *)
Lemma header_round_trip_in_memory_witness :
  let src :=
    set_kind (set_shape (npio_init_array true zeroed) 2 [2; 3] 2) 0 1 in
  exists hdr a',
    npio_save_header_mem 128 src = Ret (0, hdr)
    /\ Z.of_nat (List.length hdr) = header_need src
    /\ npio_load_header_mem true stale_words hdr (Z.of_nat (List.length hdr))
         (npio_init_array true zeroed)
       = Ret (0, a')
    /\ dim a' = dim src
    /\ firstn (dim a') (shape a') = firstn (dim src) (shape src)
    /\ size a' = product (firstn (dim src) (shape src)) mod 2 ^ 64
    /\ little_endian a' = (if little_endian src =? 0 then 0 else 1)
    /\ floating_point a' = (if floating_point src =? 0 then 0 else 1)
    /\ is_signed a'
       = (if floating_point src =? 0
          then if is_signed src =? 0 then 0 else 1 else 1)
    /\ bit_width a' = bit_width src
    /\ fortran_order a' = (if fortran_order src =? 0 then 0 else 1)
    /\ header_len a' = Z.of_nat (List.length hdr) - 10
    /\ (canonical_flags src ->
        little_endian a' = little_endian src
        /\ floating_point a' = floating_point src
        /\ is_signed a' = is_signed src
        /\ fortran_order a' = fortran_order src)
    /\ (floating_point src <> 0 -> is_signed src = 0 ->
        is_signed a' <> is_signed src).
Proof.
  intros src.
  apply (header_round_trip_in_memory true true stale_words src zeroed 128).
  - unfold savable, supported_width. cbn.
    repeat split; try lia; repeat constructor; lia.
  - reflexivity.
  - lia.
  - vm_compute. reflexivity.
  - right. vm_compute. reflexivity.
Defined.

(** ** A file in the other byte order *)

Lemma swap_bytes_spec_Z (n bw : Z) (mem : list ascii) :
  0 <= n -> supported_width bw ->
  n * (bw / 8) <= Z.of_nat (List.length mem) ->
  npio_swap_bytes n bw mem
  = Ret (0, reverse_elements (Z.to_nat (bw / 8)) (Z.to_nat n) mem).
Proof.
  intros Hn Hw Hlen.
  rewrite <- (Z2Nat.id n Hn) at 1.
  destruct Hw as [-> | [-> | [-> | ->]]].
  - change (8 / 8) with 1 in *.
    apply (swap_bytes_spec (Z.to_nat n) 1); [tauto | lia].
  - change (16 / 8) with 2 in *.
    apply (swap_bytes_spec (Z.to_nat n) 2); [tauto | lia].
  - change (32 / 8) with 4 in *.
    apply (swap_bytes_spec (Z.to_nat n) 4); [tauto | lia].
  - change (64 / 8) with 8 in *.
    apply (swap_bytes_spec (Z.to_nat n) 8); [tauto | lia].
Qed.

(** The mapped branch of [npio_load_data2] when the sizes agree and the
    data has the other byte order. *)
Lemma load_data2_mapped_swap (hle : bool) (junk : nat -> Z) (w : world)
  (a : npio_Array) (m : Z) (swapped : list ascii) :
  _mmapped a <> 0 -> data_offset a mod 16 = 0 ->
  npio_array_memsize a = Ret m ->
  to_size_t (data_offset a + m) = _buf_size a ->
  little_endian a <> (if hle then 1 else 0) ->
  npio_swap_bytes (size a) (to_size_t (bit_width a))
    (skipn (Z.to_nat (data_offset a)) (_buf a))
  = Ret (0, swapped) ->
  npio_load_data2 hle junk w a 1
  = Ret (0,
         set_buf
           (set_little_endian (set_data a (BufPtr (data_offset a)))
              (if hle then 1 else 0))
           (firstn (Z.to_nat (data_offset a)) (_buf a) ++ swapped)
           (_buf_size a),
         w).
Proof.
  intros Hmm Hal Hm Hsz Hle Hswap. unfold npio_load_data2, locate_data.
  rewrite Hal. cbn [Z.eqb negb].
  destruct (Z.eqb_spec (_mmapped a) 0) as [E | _]; [contradiction |].
  cbn [negb]. rewrite Hm. cbn [bind]. rewrite Hsz, Z.eqb_refl.
  cbn [negb bind]. change (negb (0 =? 0)) with false. cbv iota.
  cbn [little_endian set_data].
  destruct (Z.eqb_spec (if hle then 1 else 0) (little_endian a)) as [E | _];
    [symmetry in E; contradiction |].
  change (negb (1 =? 0)) with true. cbn [negb andb].
  unfold data_region, set_data_region.
  cbn [data size bit_width _buf _buf_size set_little_endian set_data].
  rewrite Hswap. reflexivity.
Qed.

(** X19: a descriptor marked with the byte order that is not the host's
    is saved as it is, and [npio_load_fd3] converts it: the file loads
    with the same shape and width, the endianness flag of the host, and
    a payload in which the bytes of every element are reversed. *)
Theorem save_load_foreign_order (cs hle : bool) (junk : nat -> Z)
  (w : world) (fd : Z) (f : file) (src a0 : npio_Array) (max_dim : Z) :
  savable src ->
  (little_endian src =? 0) = hle ->
  product (firstn (dim src) (shape src)) * bit_width src < 2 ^ 64 ->
  product (firstn (dim src) (shape src)) * (bit_width src / 8)
  <= Z.of_nat (List.length (data_region src)) ->
  cs = false \/ (header_need src - 10) mod 256 < 128 ->
  fds w fd = Some f -> f_bytes f = [] -> f_pos f = 0%nat ->
  f_script f = [] ->
  exists w',
    npio_save_fd w fd src = Ret (0, w')
    /\ forall wl fdl,
         fds wl fdl = Some (regular_file (file_bytes w' fd)) ->
         exists a' wl',
           npio_load_fd3 cs hle junk wl fdl (npio_init_array hle a0) max_dim
           = Ret (0, a', wl')
           /\ dim a' = dim src
           /\ firstn (dim a') (shape a') = firstn (dim src) (shape src)
           /\ bit_width a' = bit_width src
           /\ little_endian a' = (if hle then 1 else 0)
           /\ data_region a'
              = reverse_elements (Z.to_nat (bit_width src / 8))
                  (Z.to_nat (product (firstn (dim src) (shape src))))
                  (firstn
                     (Z.to_nat
                        (product (firstn (dim src) (shape src))
                         * (bit_width src / 8)))
                     (data_region src)).
Proof.
  intros Hsrc Hle Hfit Hdata Hlow Hfd Hbytes Hpos Hscript.
  pose proof (header_text_bound src Hsrc) as HL.
  pose proof (header_need_range src Hsrc) as (Hneed & Hal).
  pose proof (saved_header_length_aligned 65536 src eq_refl ltac:(lia)) as Hlen.
  set (n := product (firstn (dim src) (shape src))) in *.
  set (k := bit_width src / 8) in *.
  assert (Hnn : 0 <= n).
  { destruct Hsrc as (_ & _ & Hds & _). apply product_nonneg.
    eapply Forall_impl; [| exact Hds]. cbn. intros; lia. }
  assert (Hbw : 8 <= bit_width src <= 64).
  { destruct Hsrc as (_ & _ & _ & Hw). unfold supported_width in Hw. lia. }
  assert (Hsz : npio_array_memsize src = Ret (n * k)).
  { destruct Hsrc as (_ & Hsh & Hds & Hw). apply memsize_no_overflow; auto.
    eapply Forall_impl; [| exact Hds]. cbn. intros; lia. }
  pose proof (memsize_range src _ Hsz) as Rsz.
  assert (Hsave : npio_save_header_mem 65536 src
                  = Ret (0, saved_header 65536 src)).
  { destruct Hsrc as (_ & Hsh & _). apply save_header_mem_ok; lia. }
  destruct (save_fd_ok w fd f src _ (n * k) Hfd Hscript
              ltac:(rewrite Hpos, Hbytes; reflexivity) Hsave Hsz Hdata)
    as (w' & f' & Hrun & Hfd' & Hout).
  exists w'. split; [exact Hrun |].
  intros wl fdl Hwl. unfold file_bytes in Hwl. rewrite Hfd', Hout, Hbytes in Hwl.
  cbn [app] in Hwl.
  set (payload := firstn (Z.to_nat (n * k)) (data_region src)) in *.
  assert (Hpl : Z.of_nat (List.length payload) = n * k).
  { subst payload. rewrite length_firstn. lia. }
  unfold npio_load_fd3.
  rewrite (load_header_fd3_mapped cs junk wl fdl _ _ max_dim Hwl eq_refl eq_refl).
  2: { cbn [f_bytes regular_file]. intros E. apply app_eq_nil in E.
       destruct E as (E & _). apply (f_equal (@List.length ascii)) in E.
       cbn [List.length] in E. lia. }
  cbn [f_bytes regular_file].
  destruct (load_header_mem4_saved cs junk src
              (set_buf
                 (set_mmapped
                    (if _opened (npio_init_array hle a0) =? 0
                     then set_fd (npio_init_array hle a0) fdl
                     else npio_init_array hle a0) 1)
                 (saved_header 65536 src ++ payload)
                 (Z.of_nat (List.length (saved_header 65536 src ++ payload))))
              payload max_dim Hsrc Hlow)
    as (a' & Hhdr & Hdim & Hshape & Hdl & Hsize & H1 & H2 & H3 & H4 & H5
        & Hmaj & Hhl & Hmm & Hbuf & Hbsz).
  { now destruct (_opened (npio_init_array hle a0) =? 0). }
  { cbn [_mmapped set_buf set_mmapped]. discriminate. }
  { lia. }
  rewrite Hhdr. cbn [bind]. change (negb (0 =? 0)) with false. cbv iota.
  cbn [_mmapped _buf _buf_size set_buf set_mmapped] in Hmm, Hbuf, Hbsz.
  assert (Hoff : data_offset a' = header_need src).
  { unfold data_offset. rewrite Hmaj, Hhl. cbn [Z.eqb Pos.eqb].
    unfold to_size_t, size_max. rewrite Z.mod_small; lia. }
  assert (Hm : npio_array_memsize a' = Ret (n * k)).
  { rewrite npio_array_memsize_spec by assumption.
    rewrite Hshape, H4. destruct Hsrc as (_ & Hsh & _).
    rewrite npio_array_memsize_spec in Hsz by assumption. exact Hsz. }
  assert (Hskip : skipn (Z.to_nat (data_offset a')) (_buf a') = payload).
  { rewrite Hbuf, Hoff, <- Hlen, Nat2Z.id.
    rewrite skipn_app, skipn_all, Nat.sub_diag. reflexivity. }
  assert (Hsize' : size a' = n).
  { rewrite Hsize. unfold to_size_t, size_max. apply Z.mod_small. nia. }
  assert (Hswap : npio_swap_bytes (size a') (to_size_t (bit_width a'))
                    (skipn (Z.to_nat (data_offset a')) (_buf a'))
                  = Ret (0, reverse_elements (Z.to_nat k) (Z.to_nat n) payload)).
  { rewrite Hskip, Hsize', H4.
    unfold to_size_t, size_max. rewrite Z.mod_small by lia.
    apply swap_bytes_spec_Z; [exact Hnn | apply Hsrc | fold k; lia]. }
  unfold npio_load_data.
  rewrite (load_data2_mapped_swap hle junk _ a' (n * k)
             (reverse_elements (Z.to_nat k) (Z.to_nat n) payload)).
  - do 2 eexists. split; [reflexivity |].
    cbn [dim shape bit_width little_endian set_buf set_little_endian set_data].
    repeat split; try assumption.
    unfold data_region.
    cbn [data _buf set_buf set_little_endian set_data].
    rewrite skipn_app, skipn_all2, length_firstn.
    + rewrite Hbuf, Hoff, length_app, <- Hlen, Nat2Z.id.
      replace (List.length (saved_header 65536 src)
               - Nat.min (List.length (saved_header 65536 src))
                   (List.length (saved_header 65536 src)
                    + List.length payload))%nat with 0%nat by lia.
      reflexivity.
    + rewrite length_firstn. lia.
  - rewrite Hmm. discriminate.
  - now rewrite Hoff.
  - exact Hm.
  - rewrite Hoff, Hbsz, length_app, Nat2Z.inj_add, Hlen, Hpl.
    unfold to_size_t, size_max. apply Z.mod_small. lia.
  - rewrite H1. destruct (little_endian src =? 0), hle; cbn in Hle;
      congruence.
  - exact Hswap.
Qed.

Lemma save_load_foreign_order_witness :
  let src :=
    set_data
      (set_little_endian
         (set_bit_width
            (set_kind (set_shape (npio_init_array true zeroed) 1 [3] 1) 1 0)
            16)
         0)
      (OwnPtr (chars "AaBbCc")) in
  exists w',
    npio_save_fd (one_file 3 (regular_file [])) 3 src = Ret (0, w')
    /\ forall wl fdl,
         fds wl fdl = Some (regular_file (file_bytes w' 3)) ->
         exists a' wl',
           npio_load_fd3 true true stale_words wl fdl
             (npio_init_array true zeroed) NPIO_DEFAULT_MAX_DIM
           = Ret (0, a', wl')
           /\ dim a' = dim src
           /\ firstn (dim a') (shape a') = firstn (dim src) (shape src)
           /\ bit_width a' = bit_width src
           /\ little_endian a' = 1
           /\ data_region a'
              = reverse_elements (Z.to_nat (bit_width src / 8))
                  (Z.to_nat (product (firstn (dim src) (shape src))))
                  (firstn
                     (Z.to_nat
                        (product (firstn (dim src) (shape src))
                         * (bit_width src / 8)))
                     (data_region src)).
Proof.
  intros src.
  apply (save_load_foreign_order true true stale_words
           (one_file 3 (regular_file [])) 3 (regular_file []) src zeroed
           NPIO_DEFAULT_MAX_DIM).
  - unfold savable, supported_width. cbn.
    repeat split; try lia; repeat constructor; lia.
  - reflexivity.
  - vm_compute. reflexivity.
  - vm_compute. discriminate.
  - right. vm_compute. reflexivity.
  - reflexivity.
  - reflexivity.
  - reflexivity.
  - reflexivity.
Defined.

(** ** Releasing *)

(** X27: after [npio_free_array] the type string, the shape and the header
    buffer are null and [_fd] is [-1], while [data] is what it was: the
    payload that [npio_load_data2] allocated is not released.  A second
    call frees nothing and closes nothing; for a mapped array, whose
    [_mmapped] flag stays set, it calls [munmap] again, on a null
    address. *)
Theorem free_array_twice (w : world) (a : npio_Array) :
  let '(calls, a1, w1) := npio_free_array w a in
  dtype a1 = None /\ shape a1 = [] /\ _hdr_buf a1 = None /\ _fd a1 < 0
  /\ data a1 = data a
  /\ ((forall g, ~ In (close_fd g) calls) -> w1 = w)
  /\ npio_free_array w1 a1
     = ((if negb (_mmapped a =? 0) then [munmap_buf [] (_buf_size a)]
         else []),
        a1, w1).
Proof.
  destruct a as [maj mnr hl dt d sh sz fo le fp sg bw dat fd buf bsz hb cap
                 mm ml op].
  unfold npio_free_array.
  remember (sys_close w fd) as cl eqn:Ecl.
  destruct dt as [s |], sh as [| x sh], hb as [h |];
    destruct (mm =? 0) eqn:Emm; destruct (0 <=? fd) eqn:Efd;
    do 4 (cbn -[Z.leb Z.eqb Z.lt]; rewrite ?Emm, ?Efd);
    cbn -[Z.leb Z.eqb Z.lt];
    (repeat split; try lia; try (apply Z.leb_gt in Efd; exact Efd);
     try (intros Hg; exfalso; apply (Hg fd); cbn [In]; tauto)).
Qed.

(** ** Files by name *)

Lemma sys_close_closes (w : world) (fd : Z) :
  fds (snd (sys_close w fd)) fd = None.
Proof.
  unfold sys_close. destruct (fds w fd) eqn:E; cbn [snd fds set_errno].
  - now rewrite Z.eqb_refl.
  - exact E.
Qed.

Lemma load_data2_keeps_fd {heap : Heap} (hle : bool) (junk : nat -> Z)
  (w : world) (a : npio_Array) (swap_bytes e : Z) (a' : npio_Array)
  (w' : world) :
  npio_load_data2 hle junk w a swap_bytes = Ret (e, a', w') ->
  _fd a' = _fd a.
Proof.
  unfold npio_load_data2.
  destruct (negb (data_offset a mod 16 =? 0));
    [intros H; injection H as _ <- _; reflexivity |].
  destruct (locate_data junk w a) as [[[r a1] w1] | |] eqn:El; cbn [bind];
    try discriminate.
  apply locate_data_sets_data in El. destruct El as (d & ->).
  destruct r as [code |]; [intros H; injection H as _ <- _; reflexivity |].
  destruct (negb (swap_bytes =? 0)
            && negb ((if hle then 1 else 0)
                     =? little_endian (set_data a d))).
  - destruct (npio_swap_bytes _ _ _) as [[e2 m] | |]; cbn [bind];
      try discriminate.
    intros H. injection H as _ <- _.
    unfold set_data_region. cbn [data set_little_endian set_data].
    destruct d; reflexivity.
  - intros H. injection H as _ <- _. reflexivity.
Qed.

(** ** The parser under a bound outside the text *)

Lemma skip_spaces_far_spec (cs : bool) (l l' : list ascii) :
  skip_spaces_far cs l = Ret l' ->
  npio_ph_skip_spaces_ cs l = l' /\ l' <> [].
Proof.
  induction l as [| c l IH]; cbn [skip_spaces_far npio_ph_skip_spaces_].
  - discriminate.
  - destruct (isspace (char_val cs c)); [exact IH |].
    intros H. injection H as <-. split; [reflexivity | discriminate].
Qed.

Lemma scan_digits_far_spec (cs : bool) (l : list ascii) :
  forall ds rest,
    scan_digits_far cs l = Ret (ds, rest) ->
    scan_digits cs l = (ds, rest) /\ rest <> [].
Proof.
  induction l as [| c l IH]; intros ds rest;
    cbn [scan_digits_far scan_digits].
  - discriminate.
  - destruct ((48 <=? char_val cs c) && (char_val cs c <=? 57)).
    + destruct (scan_digits_far cs l) as [[ds1 rest1] | |]; cbn [bind];
        try discriminate.
      destruct (IH ds1 rest1 eq_refl) as (-> & Hne).
      intros H. injection H as <- <-. split; [reflexivity | exact Hne].
    + intros H. injection H as <- <-. split; [reflexivity | discriminate].
Qed.

Lemma scan_until_far_spec (q : ascii) (l : list ascii) :
  forall s rest,
    scan_until_far q l = Ret (s, rest) ->
    scan_until q l = (s, rest) /\ rest <> [].
Proof.
  induction l as [| c l IH]; intros s rest; cbn [scan_until_far scan_until].
  - discriminate.
  - destruct (Ascii.eqb c q).
    + intros H. injection H as <- <-. split; [reflexivity | discriminate].
    + destruct (scan_until_far q l) as [[s1 rest1] | |]; cbn [bind];
        try discriminate.
      destruct (IH s1 rest1 eq_refl) as (-> & Hne).
      intros H. injection H as <- <-. split; [reflexivity | exact Hne].
Qed.

(** Whenever the tuple loop returns under the far bound, it returns the
    same under the bound at the end of the text. *)
Lemma parse_shape_loop_far_spec {heap : Heap} (cs : bool) (junk : nat -> Z) :
  forall fuel a p r,
    parse_shape_loop_far cs junk fuel a p = Ret r ->
    parse_shape_loop cs junk fuel a p = Ret r.
Proof.
  induction fuel as [| fuel IH]; intros a p r; [discriminate |].
  rewrite parse_shape_loop_unfold. cbn [parse_shape_loop_far].
  destruct (skip_spaces_far cs p) as [p1 | |] eqn:E1; cbn [bind];
    try discriminate.
  apply skip_spaces_far_spec in E1. destruct E1 as (-> & _).
  destruct (scan_digits_far cs p1) as [[ds p2] | |] eqn:E2; cbn [bind];
    try discriminate.
  apply scan_digits_far_spec in E2. destruct E2 as (-> & Hne).
  destruct p2 as [| c2 p2']; [contradiction |].
  destruct (match ds with
            | [] => Ret (0, a)
            | _ :: _ => npio_ph_shape_append_ junk a (digits_val cs ds 0)
            end) as [[err a1] | |]; cbn [bind]; try discriminate.
  destruct (negb (err =? 0)); [exact (fun H => H) |].
  destruct (skip_spaces_far cs (c2 :: p2')) as [p3 | |] eqn:E3; cbn [bind];
    try discriminate.
  apply skip_spaces_far_spec in E3. destruct E3 as (-> & Hne3).
  destruct p3 as [| c p']; [contradiction |].
  destruct (Ascii.eqb c ","); [apply IH |].
  exact (fun H => H).
Qed.

Lemma parse_shape_far_spec {heap : Heap} (cs : bool) (junk : nat -> Z)
  (a : npio_Array) (p : list ascii) (r : Z * npio_Array * list ascii) :
  parse_shape_far cs junk a p = Ret r ->
  npio_ph_parse_shape_ cs junk a p = Ret r.
Proof.
  unfold parse_shape_far, npio_ph_parse_shape_.
  destruct p as [| c p]; [discriminate |].
  destruct (negb (Ascii.eqb c "(")); [exact (fun H => H) |].
  destruct (negb (grants shape_buffer 64)); [exact (fun H => H) |].
  apply parse_shape_loop_far_spec.
Qed.

Lemma room_lt (n : nat) (l : list ascii) :
  (n < List.length l)%nat -> room n l = true.
Proof. intros H. unfold room. now apply Nat.ltb_lt. Qed.

Lemma memcmp_far_spec (lit : string) (l : list ascii) (b : bool) :
  memcmp_far lit l = Ret b ->
  memcmp_eq lit l = b /\ (String.length lit <= List.length l)%nat.
Proof.
  unfold memcmp_far.
  destruct (Nat.ltb_spec (List.length l) (String.length lit)) as [Hlt | Hge];
    [discriminate |].
  intros H. injection H as <-. split; [reflexivity | exact Hge].
Qed.

(** The test for a key: when a key is found and text is left after its
    name, the test under the bound at the end of the text finds it too. *)
Lemma parse_key_far_spec (p : list ascii) (k : option (dict_key * list ascii)) :
  parse_key_far p = Ret k ->
  match k with
  | None => parse_key p = None
  | Some (key, rest) => rest <> [] -> parse_key p = Some (key, rest)
  end.
Proof.
  unfold parse_key_far, parse_key.
  destruct (memcmp_far "descr" p) as [d | |] eqn:Ed; cbn [bind];
    try discriminate.
  apply memcmp_far_spec in Ed. destruct Ed as (Ed & Ld).
  cbn [String.length] in Ld.
  assert (Hskip : forall n, skipn n p <> [] -> (n < List.length p)%nat).
  { intros n Hn.
    destruct (Nat.ltb_spec n (List.length p)) as [Hlt | Hge]; [exact Hlt |].
    now rewrite skipn_all2 in Hn. }
  destruct d.
  { intros H. injection H as <-. intros Hne.
    rewrite (room_lt 5 p (Hskip 5%nat Hne)), Ed. reflexivity. }
  rewrite Ed, andb_false_r.
  destruct (memcmp_far "shape" p) as [s | |] eqn:Es; cbn [bind];
    try discriminate.
  apply memcmp_far_spec in Es. destruct Es as (Es & _).
  destruct s.
  { intros H. injection H as <-. intros Hne.
    rewrite (room_lt 5 p (Hskip 5%nat Hne)), Es. reflexivity. }
  rewrite Es, andb_false_r.
  destruct (memcmp_far "fortran_order" p) as [f | |] eqn:Ef; cbn [bind];
    try discriminate.
  apply memcmp_far_spec in Ef. destruct Ef as (Ef & _).
  destruct f.
  { intros H. injection H as <-. intros Hne.
    rewrite (room_lt 13 p (Hskip 13%nat Hne)), Ef. reflexivity. }
  rewrite Ef, andb_false_r.
  intros H. injection H as <-. reflexivity.
Qed.

(** The value of a key: the same under both bounds, unless [True] or
    [False] ends the text. *)
Lemma parse_value_far_spec {heap : Heap} (cs : bool) (junk : nat -> Z)
  (key : dict_key) (a : npio_Array) (p : list ascii) (e : Z)
  (a' : npio_Array) (rest : list ascii) :
  parse_value_far cs junk key a p = Ret (e, a', rest) ->
  parse_value cs junk key a p = Ret (e, a', rest) \/ (e = 0 /\ rest = []).
Proof.
  destruct key; cbn [parse_value_far parse_value].
  - destruct p as [| q p]; [discriminate |].
    destruct (negb (npio_ph_is_quote_ q)); [now left |].
    destruct (scan_until_far q p) as [[s p2] | |] eqn:Es; cbn [bind];
      try discriminate.
    apply scan_until_far_spec in Es. destruct Es as (-> & Hne).
    destruct p2 as [| c p2']; [contradiction |]. now left.
  - intros H. left. now apply parse_shape_far_spec.
  - destruct (memcmp_far "True" p) as [t | |] eqn:Et; cbn [bind];
      try discriminate.
    apply memcmp_far_spec in Et. destruct Et as (Et & _).
    destruct t.
    { intros H.
      assert (He : e = 0 /\ a' = set_fortran_order a 1 /\ rest = skipn 4 p)
        by (repeat split; congruence).
      destruct He as (-> & -> & ->). clear H.
      destruct (Nat.ltb_spec 4 (List.length p)) as [Hlt | Hge].
      - left. now rewrite (room_lt 4 p Hlt), Et.
      - right. split; [reflexivity | now apply skipn_all2]. }
    rewrite Et, andb_false_r.
    destruct (memcmp_far "False" p) as [f | |] eqn:Ef; cbn [bind];
      try discriminate.
    apply memcmp_far_spec in Ef. destruct Ef as (Ef & _).
    destruct f.
    { intros H.
      assert (He : e = 0 /\ a' = set_fortran_order a 0 /\ rest = skipn 5 p)
        by (repeat split; congruence).
      destruct He as (-> & -> & ->). clear H.
      destruct (Nat.ltb_spec 5 (List.length p)) as [Hlt | Hge].
      - left. now rewrite (room_lt 5 p Hlt), Ef.
      - right. split; [reflexivity | now apply skipn_all2]. }
    rewrite Ef, andb_false_r. now left.
Qed.

(** Whenever the dictionary loop returns under the far bound, it returns
    the same under the bound at the end of the text. *)
Lemma parse_dict_loop_far_spec {heap : Heap} (cs : bool) (junk : nat -> Z) :
  forall fuel a p r,
    parse_dict_loop_far cs junk fuel a p = Ret r ->
    parse_dict_loop cs junk fuel a p = Ret r.
Proof.
  induction fuel as [| fuel IH]; intros a p r; [discriminate |].
  rewrite parse_dict_loop_unfold. cbn [parse_dict_loop_far].
  destruct (skip_spaces_far cs p) as [p1 | |] eqn:E1; cbn [bind];
    try discriminate.
  apply skip_spaces_far_spec in E1. destruct E1 as (-> & Hne1).
  destruct p1 as [| q p1]; [contradiction |].
  destruct (Ascii.eqb q "}"); [exact (fun H => H) |].
  destruct (negb (npio_ph_is_quote_ q)); [exact (fun H => H) |].
  destruct (parse_key_far p1) as [k | |] eqn:Ek; cbn [bind];
    try discriminate.
  apply parse_key_far_spec in Ek.
  destruct k as [[key p2] |]; [| rewrite Ek; exact (fun H => H)].
  destruct p2 as [| c p3]; [discriminate |].
  rewrite Ek by discriminate.
  destruct (negb (Ascii.eqb c q)); [exact (fun H => H) |].
  destruct (skip_spaces_far cs p3) as [p4 | |] eqn:E3; cbn [bind];
    try discriminate.
  apply skip_spaces_far_spec in E3. destruct E3 as (-> & Hne4).
  destruct p4 as [| c4 p4]; [contradiction |].
  destruct (negb (Ascii.eqb c4 ":")); [exact (fun H => H) |].
  destruct (skip_spaces_far cs p4) as [p5 | |] eqn:E5; cbn [bind];
    try discriminate.
  apply skip_spaces_far_spec in E5. destruct E5 as (-> & Hne5).
  destruct p5 as [| c5 p5]; [contradiction |].
  unfold after_value.
  destruct (parse_value_far cs junk key a (c5 :: p5))
    as [[[e1 a1] p6] | |] eqn:Ev; cbn [bind]; try discriminate.
  apply parse_value_far_spec in Ev. destruct Ev as [-> | (-> & ->)].
  - cbn [bind].
    destruct (negb (e1 =? 0)); [exact (fun H => H) |].
    destruct (skip_spaces_far cs p6) as [p7 | |] eqn:E7; cbn [bind];
      try discriminate.
    apply skip_spaces_far_spec in E7. destruct E7 as (-> & Hne7).
    destruct p7 as [| c7 p7]; [contradiction |].
    apply IH.
  - change (negb (0 =? 0)) with false. cbv iota.
    cbn [skip_spaces_far bind]. discriminate.
Qed.

Lemma parse_dict_far_spec {heap : Heap} (cs : bool) (junk : nat -> Z)
  (a : npio_Array) (text : list ascii) (r : Z * npio_Array) :
  parse_dict_far cs junk a text = Ret r ->
  npio_ph_parse_dict_ cs junk a text = Ret r.
Proof.
  unfold parse_dict_far, npio_ph_parse_dict_.
  destruct text as [| c p]; [discriminate |].
  destruct (negb (Ascii.eqb c "{")); [exact (fun H => H) |].
  destruct (parse_dict_loop_far cs junk (S (List.length p)) a p)
    as [[e1 a1] | |] eqn:El; cbn [bind]; try discriminate.
  apply parse_dict_loop_far_spec in El. rewrite El. cbn [bind].
  exact (fun H => H).
Qed.

(** [npio_load_header_fd_read_] keeps the descriptor number and the flags
    of the transport. *)
Lemma header_fd_read_keeps_handles {heap : Heap} (cs : bool)
  (junk : nat -> Z) (w : world) (fd : Z) (a : npio_Array) (max_dim e : Z)
  (a' : npio_Array) (w' : world) :
  npio_load_header_fd_read_ cs junk w fd a max_dim = Ret (e, a', w') ->
  _fd a' = _fd a /\ _mmapped a' = _mmapped a /\ _opened a' = _opened a.
Proof.
  unfold npio_load_header_fd_read_.
  destruct (sys_read w fd 12) as [[nr prelude] w1].
  destruct (nr <? 12); [intros H; injection H as _ <- _; repeat split |].
  destruct (npio_load_header_prelude_ cs prelude a) as [[[e1 a1] q] | |] eqn:Ep;
    cbn [bind]; try discriminate.
  apply prelude_keeps_handles in Ep. destruct Ep as (_ & E2 & E3 & E4 & _).
  destruct (negb (e1 =? 0)); [intros H; injection H as _ <- _; auto |].
  destruct (to_size_t (1024 + to_size_t max_dim * 20) <? header_len a1);
    [intros H; injection H as _ <- _; auto |].
  destruct (negb (grants header_buffer _));
    [intros H; injection H as _ <- _; auto |].
  destruct (size_max <=? 12 + header_len a1); [discriminate |].
  destruct (sys_read w1 fd (header_len a1)) as [[nr2 body] w2].
  destruct (parse_dict_far cs junk _ _) as [[e2 a2] | |] eqn:Ed;
    cbn [bind]; try discriminate.
  apply parse_dict_far_spec, parse_dict_transport in Ed.
  unfold transport in Ed. injection Ed as _ _ _ _ G2 _ _ _ G3 _ G4.
  cbn [_fd _mmapped _opened set_hdr_buf] in G2, G3, G4.
  intros H. injection H as _ <- _. repeat split; congruence.
Qed.

Lemma load_header_fd3_fd (cs : bool) (junk : nat -> Z) (w : world) (fd : Z)
  (a : npio_Array) (max_dim e : Z) (a' : npio_Array) (w' : world) :
  npio_load_header_fd3 cs junk w fd a max_dim = Ret (e, a', w') ->
  _fd a' = (if _opened a =? 0 then fd else _fd a)
  /\ _opened a' = _opened a.
Proof.
  unfold npio_load_header_fd3.
  set (a1 := if _opened a =? 0 then set_fd a fd else a).
  assert (H1 : _fd a1 = (if _opened a =? 0 then fd else _fd a)
               /\ _opened a1 = _opened a).
  { subst a1. destruct (_opened a =? 0); split; reflexivity. }
  clearbody a1. destruct H1 as (F1 & F2).
  destruct (sys_lseek_end w fd) as [file_size w1].
  destruct (file_size <? 0).
  { intros H. apply header_fd_read_keeps_handles in H.
    destruct H as (E1 & _ & E3). split; congruence. }
  destruct (sys_mmap w1 fd file_size) as [[p |] w2].
  - destruct (npio_load_header_mem4 cs junk p file_size _ max_dim)
      as [[e1 a2] | |] eqn:Eh; cbn [bind]; try discriminate.
    apply load_header_mem4_keeps_handles in Eh.
    destruct Eh as (_ & E2 & _ & E4).
    cbn [_fd _opened set_buf set_mmapped] in E2, E4.
    intros H. injection H as _ <- _. split; congruence.
  - intros H. apply header_fd_read_keeps_handles in H.
    destruct H as (E1 & _ & E3). split; congruence.
Qed.

(** X25: [npio_load3] closes the descriptor it opened, on every path, but
    leaves its number in [array->_fd]: [npio_free_array] then calls
    [close] on that number a second time, on a descriptor that is no
    longer the library's. *)
Theorem load3_leaves_closed_descriptor (cs hle : bool) (junk : nat -> Z)
  (sys_open : world -> string -> Z -> option Z -> Z * world)
  (w : world) (filename : string) (a : npio_Array) (max_dim : Z)
  (fd : Z) (w1 : world) (err : Z) (a' : npio_Array) (w' : world) :
  sys_open w filename O_RDONLY None = (fd, w1) -> 0 <= fd ->
  _opened a = 0 ->
  npio_load3 cs hle junk sys_open w filename a max_dim = Ret (err, a', w') ->
  fds w' fd = None /\ _fd a' = fd
  /\ exists calls a'' w'',
       npio_free_array w' a' = (calls, a'', w'')
       /\ In (close_fd fd) calls
       /\ errno w'' = EBADF.
Proof.
  intros Hopen Hfd Hop. unfold npio_load3. rewrite Hopen.
  destruct (Z.ltb_spec fd 0) as [Hneg | _]; [lia |].
  unfold npio_load_fd3.
  destruct (npio_load_header_fd3 cs junk w1 fd a max_dim)
    as [[[e1 a1] w2] | |] eqn:Eh; cbn [bind]; try discriminate.
  apply load_header_fd3_fd in Eh. destruct Eh as (E1 & _).
  rewrite Hop in E1. cbn [Z.eqb] in E1.
  assert (Hfin : forall e2 a2 w3,
             _fd a2 = fd ->
             (let '(_, w4) := sys_close w3 fd in Ret (e2, a2, w4))
             = Ret (err, a', w') ->
             fds w' fd = None /\ _fd a' = fd
             /\ exists calls a'' w'',
                  npio_free_array w' a' = (calls, a'', w'')
                  /\ In (close_fd fd) calls /\ errno w'' = EBADF).
  { intros e2 a2 w3 Ha2.
    pose proof (sys_close_closes w3 fd) as Hc.
    destruct (sys_close w3 fd) as [rc w4]. cbn [snd] in Hc.
    intros H. injection H as _ <- <-.
    split; [exact Hc | split; [exact Ha2 |]].
    unfold npio_free_array.
    destruct (match dtype a2 with
              | Some _ => ([free_dtype], set_dtype a2 None)
              | None => ([], a2)
              end) as [r1 b1] eqn:S1.
    assert (F1 : _fd b1 = fd).
    { destruct (dtype a2); injection S1 as _ <-; exact Ha2. }
    destruct (match shape b1 with
              | _ :: _ =>
                  ([free_shape], set_shape b1 (dim b1) [] (_shape_capacity b1))
              | [] => ([], b1)
              end) as [r2 b2] eqn:S2.
    assert (F2 : _fd b2 = fd).
    { destruct (shape b1); injection S2 as _ <-; exact F1. }
    destruct (if negb (_mmapped b2 =? 0)
              then ([munmap_buf (_buf b2) (_buf_size b2)],
                    set_buf b2 [] (_buf_size b2))
              else ([], b2)) as [r3 b3] eqn:S3.
    assert (F3 : _fd b3 = fd).
    { destruct (negb (_mmapped b2 =? 0)); injection S3 as _ <-; exact F2. }
    rewrite F3. destruct (Z.leb_spec 0 fd) as [_ | Hbad]; [| lia].
    unfold sys_close at 1. rewrite Hc. cbn [snd].
    destruct (match _hdr_buf (set_fd b3 (-1)) with
              | Some _ => ([free_hdr_buf], set_hdr_buf (set_fd b3 (-1)) None)
              | None => ([], set_fd b3 (-1))
              end) as [r5 b5].
    do 3 eexists. split; [reflexivity |]. split; [| reflexivity].
    rewrite !in_app_iff. cbn [In]. tauto. }
  destruct (negb (e1 =? 0)); cbn [bind]; [apply Hfin; exact E1 |].
  unfold npio_load_data.
  destruct (npio_load_data2 hle junk w2 a1 1) as [[[e2 a2] w3] | |] eqn:Ed;
    cbn [bind]; try discriminate.
  apply load_data2_keeps_fd in Ed. apply Hfin. congruence.
Qed.

Lemma load3_leaves_closed_descriptor_witness :
  let opener (w : world) (_ : string) (_ : Z) (_ : option Z) :=
    (3,
     set_file w 3
       (regular_file
          (npy_v1 "{'descr': '<i1', 'fortran_order': False, 'shape': (4,), }"
             12 (chars "abcd")))) in
  exists err a' w',
    npio_load3 true true stale_words opener (mkWorld 0 (fun _ => None))
      "a.npy" (npio_init_array true zeroed) 65536
    = Ret (err, a', w')
    /\ fds w' 3 = None /\ _fd a' = 3
    /\ exists calls a'' w'',
         npio_free_array w' a' = (calls, a'', w'')
         /\ In (close_fd 3) calls
         /\ errno w'' = EBADF.
Proof.
  intros opener.
  do 3 eexists. split; [vm_compute; reflexivity |].
  eapply (load3_leaves_closed_descriptor true true stale_words opener
            (mkWorld 0 (fun _ => None)) "a.npy" (npio_init_array true zeroed)
            65536 3).
  - reflexivity.
  - lia.
  - reflexivity.
  - vm_compute. reflexivity.
Defined.

Lemma free_array_no_close (w : world) (a : npio_Array) :
  _fd a < 0 ->
  (forall g, ~ In (close_fd g) (fst (fst (npio_free_array w a))))
  /\ snd (npio_free_array w a) = w.
Proof.
  destruct a as [maj mnr hl dt d sh sz fo le fp sg bw dat fd buf bsz hb cap
                 mm ml op].
  cbn [_fd]. intros Hfd. apply Z.leb_gt in Hfd.
  unfold npio_free_array.
  destruct dt as [s |], sh as [| x sh], hb as [h |];
    destruct (mm =? 0) eqn:Emm;
    do 3 (cbn -[Z.leb Z.eqb Z.lt]; rewrite ?Emm, ?Hfd);
    cbn -[Z.leb Z.eqb Z.lt];
    (split; [| reflexivity]); intros g Hg; cbn [In] in Hg;
    repeat (destruct Hg as [Hg | Hg]; [discriminate Hg |]); exact Hg.
Qed.

Lemma load_header_mem4_mapped_flag (cs : bool) (junk : nat -> Z)
  (p : list ascii) (sz : Z) (a : npio_Array) (max_dim : Z) (e : Z)
  (a' : npio_Array) :
  npio_load_header_mem4 cs junk p sz a max_dim = Ret (e, a') ->
  _mmapped a' = _mmapped a.
Proof.
  intros H. apply load_header_mem4_keeps_handles in H. tauto.
Qed.

(** X24: [npio_load_header3] on a file that can be mapped keeps no
    descriptor: the one it opened is closed when it returns, with an
    error or without, and [array->_fd] is [-1], so that
    [npio_free_array] afterwards closes nothing. *)
Theorem load_header3_releases_descriptor (cs : bool) (junk : nat -> Z)
  (sys_open : world -> string -> Z -> option Z -> Z * world)
  (w : world) (filename : string) (a : npio_Array) (max_dim : Z)
  (fd : Z) (w1 : world) (f : file) (err : Z) (a' : npio_Array)
  (w' : world) :
  sys_open w filename O_RDONLY None = (fd, w1) -> 0 <= fd ->
  fds w1 fd = Some f -> f_seekable f = true -> f_mappable f = true ->
  f_bytes f <> [] ->
  npio_load_header3 cs junk sys_open w filename a max_dim
  = Ret (err, a', w') ->
  fds w' fd = None /\ _fd a' = -1 /\ _opened a' = 0 /\ _mmapped a' = 1
  /\ (forall g, ~ In (close_fd g) (fst (fst (npio_free_array w' a'))))
  /\ snd (npio_free_array w' a') = w'.
Proof.
  intros Hopen Hfd Hf Hseek Hmap Hne. unfold npio_load_header3.
  rewrite Hopen. destruct (Z.ltb_spec fd 0) as [Hneg | _]; [lia |].
  rewrite (load_header_fd3_mapped cs junk w1 fd f _ max_dim Hf Hseek Hmap Hne).
  cbn [_opened set_opened set_fd]. change (1 =? 0) with false. cbv iota.
  destruct (npio_load_header_mem4 cs junk (f_bytes f) _ _ max_dim)
    as [[e1 a1] | |] eqn:Eh; cbn [bind]; try discriminate.
  apply load_header_mem4_mapped_flag in Eh.
  cbn [_mmapped set_buf set_mmapped] in Eh. rewrite Eh.
  change (negb (1 =? 0)) with true. cbv iota.
  match goal with
  | |- context [sys_close ?w0 fd] =>
      pose proof (sys_close_closes w0 fd) as Hc;
      destruct (sys_close w0 fd) as [rc w2]
  end.
  cbn [snd] in Hc. intros H. injection H as _ <- <-.
  cbn [_fd _opened _mmapped set_opened set_fd].
  split; [exact Hc |]. split; [reflexivity |]. split; [reflexivity |].
  split; [exact Eh |].
  apply free_array_no_close. cbn [_fd set_opened set_fd]. lia.
Qed.

Lemma load_header3_releases_descriptor_witness :
  let opener (w : world) (_ : string) (_ : Z) (_ : option Z) :=
    (3,
     set_file w 3
       (regular_file
          (npy_v1 "{'descr': '<i1', 'fortran_order': False, 'shape': (4,), }"
             12 (chars "abcd")))) in
  exists err a' w',
    npio_load_header3 true stale_words opener (mkWorld 0 (fun _ => None))
      "a.npy" (npio_init_array true zeroed) NPIO_DEFAULT_MAX_DIM
    = Ret (err, a', w')
    /\ fds w' 3 = None /\ _fd a' = -1 /\ _opened a' = 0 /\ _mmapped a' = 1
    /\ (forall g, ~ In (close_fd g) (fst (fst (npio_free_array w' a'))))
    /\ snd (npio_free_array w' a') = w'.
Proof.
  intros opener.
  do 3 eexists. split; [vm_compute; reflexivity |].
  eapply (load_header3_releases_descriptor true stale_words opener
            (mkWorld 0 (fun _ => None)) "a.npy" (npio_init_array true zeroed)
            NPIO_DEFAULT_MAX_DIM 3 _
            (regular_file
               (npy_v1 "{'descr': '<i1', 'fortran_order': False, 'shape': (4,), }"
                  12 (chars "abcd")))).
  - reflexivity.
  - lia.
  - reflexivity.
  - reflexivity.
  - reflexivity.
  - discriminate.
  - vm_compute. reflexivity.
Defined.

(** ** The C++ wrappers *)

(** Saving with [npio_save_fd] and loading the file with [npio_load_fd3],
    for a descriptor in the byte order of the host. *)
Lemma save_then_load (cs hle : bool) (junk : nat -> Z) (w : world)
  (fd : Z) (f : file) (src a0 : npio_Array) (sz max_dim : Z) :
  savable src ->
  (little_endian src =? 0) = negb hle ->
  npio_array_memsize src = Ret sz ->
  sz <= Z.of_nat (List.length (data_region src)) ->
  cs = false \/ (header_need src - 10) mod 256 < 128 ->
  fds w fd = Some f -> f_bytes f = [] -> f_pos f = 0%nat ->
  f_script f = [] ->
  exists w',
    npio_save_fd w fd src = Ret (0, w')
    /\ forall wl fdl,
         fds wl fdl = Some (regular_file (file_bytes w' fd)) ->
         exists a' wl',
           npio_load_fd3 cs hle junk wl fdl (npio_init_array hle a0) max_dim
           = Ret (0, a', wl')
           /\ dim a' = dim src
           /\ firstn (dim a') (shape a') = firstn (dim src) (shape src)
           /\ (dim a' <= List.length (shape a'))%nat
           /\ size a' = to_size_t (product (firstn (dim src) (shape src)))
           /\ little_endian a' = (if little_endian src =? 0 then 0 else 1)
           /\ floating_point a' = (if floating_point src =? 0 then 0 else 1)
           /\ is_signed a'
              = (if floating_point src =? 0
                 then if is_signed src =? 0 then 0 else 1 else 1)
           /\ bit_width a' = bit_width src
           /\ fortran_order a' = (if fortran_order src =? 0 then 0 else 1)
           /\ data_region a' = firstn (Z.to_nat sz) (data_region src).
Proof.
  intros Hsrc Hle Hsz Hdata Hlow Hfd Hbytes Hpos Hscript.
  pose proof (header_text_bound src Hsrc) as HL.
  pose proof (header_need_range src Hsrc) as (Hneed & Hal).
  pose proof (saved_header_length_aligned 65536 src eq_refl ltac:(lia)) as Hlen.
  pose proof (memsize_range src sz Hsz) as Rsz.
  assert (Hsave : npio_save_header_mem 65536 src
                  = Ret (0, saved_header 65536 src)).
  { destruct Hsrc as (_ & Hsh & _). apply save_header_mem_ok; lia. }
  destruct (save_fd_ok w fd f src _ sz Hfd Hscript
              ltac:(rewrite Hpos, Hbytes; reflexivity) Hsave Hsz Hdata)
    as (w' & f' & Hrun & Hfd' & Hout).
  exists w'. split; [exact Hrun |].
  intros wl fdl Hwl. unfold file_bytes in Hwl. rewrite Hfd', Hout, Hbytes in Hwl.
  cbn [app] in Hwl.
  set (payload := firstn (Z.to_nat sz) (data_region src)) in *.
  assert (Hpl : Z.of_nat (List.length payload) = sz).
  { subst payload. rewrite length_firstn. lia. }
  unfold npio_load_fd3.
  rewrite (load_header_fd3_mapped cs junk wl fdl _ _ max_dim Hwl eq_refl eq_refl).
  2: { cbn [f_bytes regular_file]. intros E. apply app_eq_nil in E.
       destruct E as (E & _). apply (f_equal (@List.length ascii)) in E.
       cbn [List.length] in E. lia. }
  cbn [f_bytes regular_file].
  destruct (load_header_mem4_saved cs junk src
              (set_buf
                 (set_mmapped
                    (if _opened (npio_init_array hle a0) =? 0
                     then set_fd (npio_init_array hle a0) fdl
                     else npio_init_array hle a0) 1)
                 (saved_header 65536 src ++ payload)
                 (Z.of_nat (List.length (saved_header 65536 src ++ payload))))
              payload max_dim Hsrc Hlow)
    as (a' & Hhdr & Hdim & Hshape & Hdl & Hsize & H1 & H2 & H3 & H4 & H5
        & Hmaj & Hhl & Hmm & Hbuf & Hbsz).
  { now destruct (_opened (npio_init_array hle a0) =? 0). }
  { cbn [_mmapped set_buf set_mmapped]. discriminate. }
  { lia. }
  rewrite Hhdr. cbn [bind]. change (negb (0 =? 0)) with false. cbv iota.
  cbn [_mmapped _buf _buf_size set_buf set_mmapped] in Hmm, Hbuf, Hbsz.
  assert (Hoff : data_offset a' = header_need src).
  { unfold data_offset. rewrite Hmaj, Hhl. cbn [Z.eqb Pos.eqb].
    unfold to_size_t, size_max. rewrite Z.mod_small; lia. }
  assert (Hm : npio_array_memsize a' = Ret sz).
  { rewrite npio_array_memsize_spec by assumption.
    rewrite Hshape, H4. destruct Hsrc as (_ & Hsh & _).
    rewrite npio_array_memsize_spec in Hsz by assumption. exact Hsz. }
  unfold npio_load_data.
  rewrite (load_data2_mapped_ok hle junk _ a' sz).
  - do 2 eexists. split; [reflexivity |].
    repeat split; try assumption.
    unfold data_region. cbn [data _buf set_data].
    rewrite Hbuf, Hoff, <- Hlen, Nat2Z.id.
    rewrite skipn_app, skipn_all, Nat.sub_diag. reflexivity.
  - rewrite Hmm. discriminate.
  - now rewrite Hoff.
  - exact Hm.
  - rewrite Hoff, Hbsz, length_app, Nat2Z.inj_add, Hlen, Hpl.
    unfold to_size_t, size_max. apply Z.mod_small. lia.
  - rewrite H1. destruct (little_endian src =? 0), hle; cbn in Hle;
      congruence.
Qed.

Lemma typed_descriptor_width (hle : bool) (T : npio.cxx_type) (nDim : nat)
  (shp : list Z) (data : data_ptr) (local : npio_Array) :
  supported_type T ->
  bit_width (typed_descriptor hle T nDim shp data local) = 8 * sizeof T
  /\ npio.Traits_bit_width T = 8 * sizeof T
  /\ supported_width (8 * sizeof T)
  /\ 8 * sizeof T / 8 = sizeof T.
Proof.
  unfold typed_descriptor, supported_width. cbn [bit_width set_data set_bit_width].
  destruct T as [| | sgn n]; cbn [supported_type sizeof npio.Traits_bit_width].
  - intros _. repeat split; lia || reflexivity.
  - intros _. repeat split; lia || reflexivity.
  - intros [-> | [-> | [-> | ->]]]; repeat split; lia || reflexivity.
Qed.

(** The typed round trip, with all that the two theorems below state. *)
Lemma cxx_round_trip (cs hle : bool) (junk : nat -> Z) (T : npio.cxx_type)
  (w : world) (fd : Z) (f : file) (nDim : nat) (shp : list Z)
  (payload : list ascii) (local this : npio_Array) (max_dim : Z) :
  supported_type T ->
  (nDim <= 32)%nat -> (nDim <= List.length shp)%nat ->
  Forall (fun d => 0 <= d < 2 ^ 63) (firstn nDim shp) ->
  product (firstn nDim shp) * (8 * sizeof T) < 2 ^ 64 ->
  product (firstn nDim shp) * sizeof T <= Z.of_nat (List.length payload) ->
  cs = false
  \/ (header_need (typed_descriptor hle T nDim shp (OwnPtr payload) local)
      - 10) mod 256 < 128 ->
  fds w fd = Some f -> f_bytes f = [] -> f_pos f = 0%nat ->
  f_script f = [] ->
  exists w',
    npio.save hle T w fd nDim shp (OwnPtr payload) local = Ret (0, w')
    /\ forall wl fdl,
         fds wl fdl = Some (regular_file (file_bytes w' fd)) ->
         exists arr wl',
           npio.Array_of_fd cs hle junk wl fdl max_dim this = Ret (arr, wl')
           /\ npio.Array_error arr = 0
           /\ npio.Array_isType T arr = true
           /\ (forall U,
                 npio.Array_isType U arr
                 = (npio.int_of_bool (npio.Traits_floating_point U)
                    =? npio.int_of_bool (npio.Traits_floating_point T))
                   && (npio.int_of_bool (npio.Traits_is_signed U)
                       =? npio.int_of_bool (npio.Traits_is_signed T))
                   && (npio.Traits_bit_width U =? npio.Traits_bit_width T))
           /\ npio.Array_dim arr = nDim
           /\ (forall i,
                 npio.Array_shape arr i = Ret (nth i (firstn nDim shp) 1))
           /\ npio.Array_size arr = product (firstn nDim shp)
           /\ data_region (npio.array arr)
              = firstn (Z.to_nat (product (firstn nDim shp) * sizeof T))
                  payload.
Proof.
  intros HT Hd32 Hdlen Hds Hfit Hdata Hlow Hfd Hbytes Hpos Hscript.
  set (src := typed_descriptor hle T nDim shp (OwnPtr payload) local) in *.
  destruct (typed_descriptor_width hle T nDim shp (OwnPtr payload) local HT)
    as (Hbw & Htw & Hsw & Hdiv).
  fold src in Hbw.
  assert (Hdim : dim src = nDim) by reflexivity.
  assert (Hshape : shape src = shp) by reflexivity.
  assert (Hsav : savable src).
  { unfold savable. rewrite Hdim, Hshape, Hbw. auto. }
  assert (Hnn : 0 <= product (firstn nDim shp)).
  { apply product_nonneg. eapply Forall_impl; [| exact Hds].
    cbn. intros; lia. }
  assert (Hmem : npio_array_memsize src
                 = Ret (product (firstn nDim shp) * sizeof T)).
  { rewrite memsize_no_overflow; rewrite ?Hdim, ?Hshape, ?Hbw, ?Hdiv; auto.
    eapply Forall_impl; [| exact Hds]. cbn. intros; lia. }
  assert (Hle : (little_endian src =? 0) = negb hle) by (now destruct hle).
  destruct (save_then_load cs hle junk w fd f src this
              (product (firstn nDim shp) * sizeof T) max_dim
              Hsav Hle Hmem Hdata Hlow Hfd Hbytes Hpos Hscript)
    as (w' & Hsave & Hload).
  exists w'. split; [exact Hsave |].
  intros wl fdl Hwl.
  destruct (Hload wl fdl Hwl)
    as (a' & wl' & Hrun & Ed & Es & El & Esz & _ & Efp & Esg & Ebw & _ & Edat).
  unfold npio.Array_of_fd. rewrite Hrun. cbn [bind].
  do 2 eexists. split; [reflexivity |].
  unfold npio.Array_error, npio.Array_isType, npio.Array_dim,
    npio.Array_shape, npio.Array_size.
  cbn [npio.array npio.err].
  rewrite Ebw, Hbw, Hdim, Hshape in *.
  assert (Efp' : floating_point a'
                 = npio.int_of_bool (npio.Traits_floating_point T)).
  { rewrite Efp. subst src. unfold typed_descriptor.
    cbn [floating_point set_data set_bit_width set_kind].
    now destruct (npio.Traits_floating_point T). }
  assert (Esg' : is_signed a'
                 = npio.int_of_bool (npio.Traits_is_signed T)).
  { rewrite Esg. subst src. unfold typed_descriptor.
    cbn [is_signed floating_point set_data set_bit_width set_kind].
    destruct T as [| | sgn n]; cbn [npio.Traits_floating_point
                                     npio.Traits_is_signed npio.int_of_bool];
      try reflexivity. now destruct sgn. }
  assert (Ew : to_size_t (8 * sizeof T) = npio.Traits_bit_width T).
  { rewrite Htw. unfold to_size_t, size_max. apply Z.mod_small.
    unfold supported_width in Hsw. lia. }
  rewrite Efp', Esg', Ew, !Z.eqb_refl.
  split; [reflexivity |]. split; [reflexivity |]. split; [reflexivity |].
  split; [exact Ed |]. split.
  { intros i. rewrite Ed.
    destruct (Nat.ltb_spec i nDim) as [Hi | Hi].
    - assert (En : nth_error (shape a') i
                   = nth_error (firstn nDim shp) i).
      { rewrite <- Es, Ed, nth_error_firstn.
        destruct (Nat.ltb_spec i nDim); [reflexivity | lia]. }
      rewrite En.
      destruct (nth_error (firstn nDim shp) i) as [d |] eqn:E.
      + now rewrite (nth_error_nth _ _ 1 E).
      + apply nth_error_None in E. rewrite length_firstn in E. lia.
    - rewrite nth_overflow by (rewrite length_firstn; lia). reflexivity. }
  split; [| exact Edat].
  rewrite Esz. unfold to_size_t, size_max. apply Z.mod_small.
  unfold supported_width in Hsw. nia.
Qed.

(** X28: the typed round trip of the C++ interface.  What
    [npio::save<T>] writes for [float], [double] or an integral type of 1,
    2, 4 or 8 bytes, the constructor [Array(int fd)] loads without error:
    [isType<T>()] holds, [dim()], [shape(i)] (with 1 past the last
    dimension) and [size()] are those that were saved, and the data is the
    payload, byte for byte. *)
Theorem cxx_save_load_typed (cs hle : bool) (junk : nat -> Z)
  (T : npio.cxx_type) (w : world) (fd : Z) (f : file) (nDim : nat)
  (shp : list Z) (payload : list ascii) (local this : npio_Array)
  (max_dim : Z) :
  supported_type T ->
  (nDim <= 32)%nat -> (nDim <= List.length shp)%nat ->
  Forall (fun d => 0 <= d < 2 ^ 63) (firstn nDim shp) ->
  product (firstn nDim shp) * (8 * sizeof T) < 2 ^ 64 ->
  product (firstn nDim shp) * sizeof T <= Z.of_nat (List.length payload) ->
  cs = false
  \/ (header_need (typed_descriptor hle T nDim shp (OwnPtr payload) local)
      - 10) mod 256 < 128 ->
  fds w fd = Some f -> f_bytes f = [] -> f_pos f = 0%nat ->
  f_script f = [] ->
  exists w',
    npio.save hle T w fd nDim shp (OwnPtr payload) local = Ret (0, w')
    /\ forall wl fdl,
         fds wl fdl = Some (regular_file (file_bytes w' fd)) ->
         exists arr wl',
           npio.Array_of_fd cs hle junk wl fdl max_dim this = Ret (arr, wl')
           /\ npio.Array_error arr = 0
           /\ npio.Array_isType T arr = true
           /\ npio.Array_dim arr = nDim
           /\ (forall i,
                 npio.Array_shape arr i = Ret (nth i (firstn nDim shp) 1))
           /\ npio.Array_size arr = product (firstn nDim shp)
           /\ data_region (npio.array arr)
              = firstn (Z.to_nat (product (firstn nDim shp) * sizeof T))
                  payload.
Proof.
  intros HT Hd32 Hdlen Hds Hfit Hdata Hlow Hfd Hbytes Hpos Hscript.
  destruct (cxx_round_trip cs hle junk T w fd f nDim shp payload local this
              max_dim HT Hd32 Hdlen Hds Hfit Hdata Hlow Hfd Hbytes Hpos
              Hscript) as (w' & Hsave & Hload).
  exists w'. split; [exact Hsave |]. intros wl fdl Hwl.
  destruct (Hload wl fdl Hwl)
    as (arr & wl' & Hrun & H1 & H2 & _ & H4 & H5 & H6 & H7).
  exists arr, wl'. repeat split; assumption.
Qed.

Lemma cxx_save_load_typed_witness :
  exists w',
    npio.save true npio.T_float (one_file 3 (regular_file [])) 3 2 [2; 3]
      (OwnPtr (chars "0123456789abcdefghijklmn")) zeroed
    = Ret (0, w')
    /\ forall wl fdl,
         fds wl fdl = Some (regular_file (file_bytes w' 3)) ->
         exists arr wl',
           npio.Array_of_fd true true stale_words wl fdl NPIO_DEFAULT_MAX_DIM
             zeroed
           = Ret (arr, wl')
           /\ npio.Array_error arr = 0
           /\ npio.Array_isType npio.T_float arr = true
           /\ npio.Array_dim arr = 2%nat
           /\ (forall i,
                 npio.Array_shape arr i = Ret (nth i (firstn 2 [2; 3]) 1))
           /\ npio.Array_size arr = product (firstn 2 [2; 3])
           /\ data_region (npio.array arr)
              = firstn
                  (Z.to_nat (product (firstn 2 [2; 3]) * sizeof npio.T_float))
                  (chars "0123456789abcdefghijklmn").
Proof.
  apply (cxx_save_load_typed true true stale_words npio.T_float
           (one_file 3 (regular_file [])) 3 (regular_file []) 2 [2; 3]
           (chars "0123456789abcdefghijklmn") zeroed zeroed
           NPIO_DEFAULT_MAX_DIM).
  - exact I.
  - lia.
  - cbn. lia.
  - cbn. repeat constructor; lia.
  - vm_compute. reflexivity.
  - vm_compute. discriminate.
  - right. vm_compute. reflexivity.
  - reflexivity.
  - reflexivity.
  - reflexivity.
  - reflexivity.
Defined.

(** X29: typed access through [get<T>()] never yields the data.  On the
    array loaded from what [npio::save<T>] wrote, [get<U>()] returns the
    null pointer for every [U] whose traits differ from those of [T], and
    for [T] itself, where the test of the type succeeds, control reaches
    the end of the function without a [return]: the [return] of the data
    pointer stands inside the branch of the failed test. *)
Theorem cxx_get_never_returns_data (cs hle : bool) (junk : nat -> Z)
  (T : npio.cxx_type) (w : world) (fd : Z) (f : file) (nDim : nat)
  (shp : list Z) (payload : list ascii) (local this : npio_Array)
  (max_dim : Z) :
  supported_type T ->
  (nDim <= 32)%nat -> (nDim <= List.length shp)%nat ->
  Forall (fun d => 0 <= d < 2 ^ 63) (firstn nDim shp) ->
  product (firstn nDim shp) * (8 * sizeof T) < 2 ^ 64 ->
  product (firstn nDim shp) * sizeof T <= Z.of_nat (List.length payload) ->
  cs = false
  \/ (header_need (typed_descriptor hle T nDim shp (OwnPtr payload) local)
      - 10) mod 256 < 128 ->
  fds w fd = Some f -> f_bytes f = [] -> f_pos f = 0%nat ->
  f_script f = [] ->
  exists w',
    npio.save hle T w fd nDim shp (OwnPtr payload) local = Ret (0, w')
    /\ forall wl fdl,
         fds wl fdl = Some (regular_file (file_bytes w' fd)) ->
         exists arr wl',
           npio.Array_of_fd cs hle junk wl fdl max_dim this = Ret (arr, wl')
           /\ npio.Array_get T arr = Undef
           /\ forall U,
                (npio.Traits_floating_point U, npio.Traits_is_signed U,
                 npio.Traits_bit_width U)
                <> (npio.Traits_floating_point T, npio.Traits_is_signed T,
                    npio.Traits_bit_width T) ->
                npio.Array_get U arr = Ret NullPtr.
Proof.
  intros HT Hd32 Hdlen Hds Hfit Hdata Hlow Hfd Hbytes Hpos Hscript.
  destruct (cxx_round_trip cs hle junk T w fd f nDim shp payload local this
              max_dim HT Hd32 Hdlen Hds Hfit Hdata Hlow Hfd Hbytes Hpos
              Hscript) as (w' & Hsave & Hload).
  exists w'. split; [exact Hsave |]. intros wl fdl Hwl.
  destruct (Hload wl fdl Hwl) as (arr & wl' & Hrun & _ & H2 & H3 & _).
  exists arr, wl'. split; [exact Hrun |]. split.
  - unfold npio.Array_get. now rewrite H2.
  - intros U HU. unfold npio.Array_get. rewrite H3.
    destruct (npio.Traits_floating_point U), (npio.Traits_floating_point T),
      (npio.Traits_is_signed U), (npio.Traits_is_signed T);
      cbn [npio.int_of_bool Z.eqb Pos.eqb andb negb]; try reflexivity;
      (destruct (Z.eqb_spec (npio.Traits_bit_width U)
                   (npio.Traits_bit_width T)) as [E | NE];
       [exfalso; apply HU; now rewrite E | reflexivity]).
Qed.

Lemma cxx_get_never_returns_data_witness :
  exists w',
    npio.save true npio.T_float (one_file 3 (regular_file [])) 3 2 [2; 3]
      (OwnPtr (chars "0123456789abcdefghijklmn")) zeroed
    = Ret (0, w')
    /\ forall wl fdl,
         fds wl fdl = Some (regular_file (file_bytes w' 3)) ->
         exists arr wl',
           npio.Array_of_fd true true stale_words wl fdl NPIO_DEFAULT_MAX_DIM
             zeroed
           = Ret (arr, wl')
           /\ npio.Array_get npio.T_float arr = Undef
           /\ forall U,
                (npio.Traits_floating_point U, npio.Traits_is_signed U,
                 npio.Traits_bit_width U)
                <> (npio.Traits_floating_point npio.T_float,
                    npio.Traits_is_signed npio.T_float,
                    npio.Traits_bit_width npio.T_float) ->
                npio.Array_get U arr = Ret NullPtr.
Proof.
  apply (cxx_get_never_returns_data true true stale_words npio.T_float
           (one_file 3 (regular_file [])) 3 (regular_file []) 2 [2; 3]
           (chars "0123456789abcdefghijklmn") zeroed zeroed
           NPIO_DEFAULT_MAX_DIM).
  - exact I.
  - lia.
  - cbn. lia.
  - cbn. repeat constructor; lia.
  - vm_compute. reflexivity.
  - vm_compute. discriminate.
  - right. vm_compute. reflexivity.
  - reflexivity.
  - reflexivity.
  - reflexivity.
  - reflexivity.
Defined.

(** ** The size check of the mapped branch *)

(** X18: when the element count times the width does not overflow, the
    mapped branch of [npio_load_data2] accepts the mapping exactly when
    its size is the data offset plus the size of the payload: any other
    size gives [EINVAL] with the descriptor as it was, and the right
    size, for data in the byte order of the host, sets [data] to the
    payload inside the mapping. *)
Theorem load_data2_mapped_exact_size (hle : bool) (junk : nat -> Z)
  (w : world) (a : npio_Array) (swap_bytes : Z) :
  _mmapped a <> 0 ->
  data_offset a mod 16 = 0 ->
  (dim a <= List.length (shape a))%nat ->
  Forall (fun d => 0 <= d) (firstn (dim a) (shape a)) ->
  supported_width (bit_width a) ->
  product (firstn (dim a) (shape a)) * bit_width a < 2 ^ 64 ->
  data_offset a + product (firstn (dim a) (shape a)) * (bit_width a / 8)
  < 2 ^ 64 ->
  (_buf_size a
   <> data_offset a + product (firstn (dim a) (shape a)) * (bit_width a / 8) ->
   npio_load_data2 hle junk w a swap_bytes = Ret (EINVAL, a, w))
  /\ (_buf_size a
      = data_offset a + product (firstn (dim a) (shape a)) * (bit_width a / 8) ->
      little_endian a = (if hle then 1 else 0) ->
      npio_load_data2 hle junk w a swap_bytes
      = Ret (0, set_data a (BufPtr (data_offset a)), w)).
Proof.
  intros Hmm Hal Hdim Hpos Hw Hfit Hsum.
  pose proof (memsize_no_overflow a Hdim Hpos Hw Hfit) as Hm.
  pose proof (product_nonneg _ Hpos) as HP.
  set (m := product (firstn (dim a) (shape a)) * (bit_width a / 8)) in *.
  assert (Hoff : 0 <= data_offset a).
  { unfold data_offset, to_size_t, size_max. apply Z.mod_pos_bound. lia. }
  assert (Hm0 : 0 <= m).
  { subst m. apply Z.mul_nonneg_nonneg; [exact HP |].
    unfold supported_width in Hw. apply Z.div_pos; lia. }
  assert (Hts : to_size_t (data_offset a + m) = data_offset a + m).
  { unfold to_size_t, size_max. apply Z.mod_small. lia. }
  split.
  - intros Hne. unfold npio_load_data2, locate_data.
    rewrite Hal. cbn [Z.eqb negb].
    apply Z.eqb_neq in Hmm. rewrite Hmm. cbn [negb].
    rewrite Hm. cbn [bind]. rewrite Hts.
    destruct (Z.eqb_spec (data_offset a + m) (_buf_size a)) as [E | _];
      [symmetry in E; contradiction |].
    reflexivity.
  - intros He Hle. rewrite load_data2_no_swap by exact Hle.
    unfold npio_load_data2, locate_data.
    rewrite Hal. cbn [Z.eqb negb].
    apply Z.eqb_neq in Hmm. rewrite Hmm. cbn [negb].
    rewrite Hm. cbn [bind]. rewrite Hts, He, Z.eqb_refl.
    reflexivity.
Qed.

Lemma load_data2_mapped_exact_size_witness :
  let a :=
    set_buf
      (set_mmapped
         (set_header_len
            (set_bit_width (set_shape (npio_init_array true zeroed) 2 [10; 10] 2)
               32)
            118)
         1)
      (repeat zero 500) 500 in
  npio_load_data2 true stale_words (one_file 3 (regular_file [])) a 1
  = Ret (EINVAL, a, one_file 3 (regular_file [])).
Proof.
  intros a.
  refine (proj1 (load_data2_mapped_exact_size true stale_words
                   (one_file 3 (regular_file [])) a 1 _ _ _ _ _ _ _) _).
  - discriminate.
  - reflexivity.
  - cbn. lia.
  - cbn. repeat constructor; lia.
  - unfold supported_width. cbn. lia.
  - vm_compute. reflexivity.
  - vm_compute. reflexivity.
  - vm_compute. discriminate.
Defined.

(** ** Loading by name *)

(** X26: [npio_load] on the name of a file that holds what [npio_save_fd]
    writes for a descriptor in the byte order of the host: the descriptor
    that [open] gives is mapped, the array comes back with the shape, the
    type fields and the payload that were saved, and the descriptor is
    closed on return, the data staying in the mapping. *)
Theorem load_by_name_round_trip (cs hle : bool) (junk : nat -> Z)
  (sys_open : world -> string -> Z -> option Z -> Z * world)
  (ws : world) (fds_ : Z) (f : file) (src a0 : npio_Array) (sz : Z)
  (w : world) (filename : string) (fd : Z) (w1 : world) :
  savable src ->
  (little_endian src =? 0) = negb hle ->
  npio_array_memsize src = Ret sz ->
  sz <= Z.of_nat (List.length (data_region src)) ->
  cs = false \/ (header_need src - 10) mod 256 < 128 ->
  fds ws fds_ = Some f -> f_bytes f = [] -> f_pos f = 0%nat ->
  f_script f = [] ->
  sys_open w filename O_RDONLY None = (fd, w1) -> 0 <= fd ->
  fds w1 fd
  = Some (regular_file
            (saved_header 65536 src ++ firstn (Z.to_nat sz) (data_region src))) ->
  (exists w',
     npio_save_fd ws fds_ src = Ret (0, w')
     /\ file_bytes w' fds_
        = saved_header 65536 src ++ firstn (Z.to_nat sz) (data_region src))
  /\ exists a' w2,
       npio_load cs hle junk sys_open w filename (npio_init_array hle a0)
       = Ret (0, a', w2)
       /\ fds w2 fd = None
       /\ dim a' = dim src
       /\ firstn (dim a') (shape a') = firstn (dim src) (shape src)
       /\ bit_width a' = bit_width src
       /\ fortran_order a' = (if fortran_order src =? 0 then 0 else 1)
       /\ data_region a' = firstn (Z.to_nat sz) (data_region src).
Proof.
  intros Hsrc Hle Hsz Hdata Hlow Hfd Hbytes Hpos Hscript Hopen Hfd0 Hw1.
  pose proof (header_text_bound src Hsrc) as HL.
  assert (Hsave : npio_save_header_mem 65536 src
                  = Ret (0, saved_header 65536 src)).
  { destruct Hsrc as (_ & Hsh & _). apply save_header_mem_ok; lia. }
  destruct (save_fd_ok ws fds_ f src _ sz Hfd Hscript
              ltac:(rewrite Hpos, Hbytes; reflexivity) Hsave Hsz Hdata)
    as (w' & f' & Hrun & Hfd' & Hout).
  assert (Hfb : file_bytes w' fds_
                = saved_header 65536 src
                  ++ firstn (Z.to_nat sz) (data_region src)).
  { unfold file_bytes. rewrite Hfd', Hout, Hbytes. reflexivity. }
  split; [exists w'; split; [exact Hrun | exact Hfb] |].
  destruct (save_then_load cs hle junk ws fds_ f src a0 sz 65536
              Hsrc Hle Hsz Hdata Hlow Hfd Hbytes Hpos Hscript)
    as (w'' & Hsave' & Hload).
  assert (Ew : w'' = w') by congruence. subst w''.
  rewrite <- Hfb in Hw1.
  destruct (Hload w1 fd Hw1)
    as (a' & wl' & Hld & Ed & Es & _ & _ & _ & _ & _ & Ebw & Efo & Edat).
  unfold npio_load, npio_load3. rewrite Hopen.
  destruct (Z.ltb_spec fd 0) as [Hneg | _]; [lia |].
  rewrite Hld. cbn [bind].
  pose proof (sys_close_closes wl' fd) as Hc.
  destruct (sys_close wl' fd) as [rc w2]. cbn [snd] in Hc.
  exists a', w2. repeat split; assumption.
Qed.

Lemma load_by_name_round_trip_witness :
  let src :=
    set_data (set_shape (npio_init_array true zeroed) 2 [2; 3] 2)
      (OwnPtr (chars "0123456789abcdefghijklmn")) in
  let content :=
    saved_header 65536 src
    ++ firstn (Z.to_nat 24) (data_region src) in
  let opener (w : world) (_ : string) (_ : Z) (_ : option Z) :=
    (4, set_file w 4 (regular_file content)) in
  (exists w',
     npio_save_fd (one_file 3 (regular_file [])) 3 src = Ret (0, w')
     /\ file_bytes w' 3 = content)
  /\ exists a' w2,
       npio_load true true stale_words opener (mkWorld 0 (fun _ => None))
         "a.npy" (npio_init_array true zeroed)
       = Ret (0, a', w2)
       /\ fds w2 4 = None
       /\ dim a' = dim src
       /\ firstn (dim a') (shape a') = firstn (dim src) (shape src)
       /\ bit_width a' = bit_width src
       /\ fortran_order a' = (if fortran_order src =? 0 then 0 else 1)
       /\ data_region a' = firstn (Z.to_nat 24) (data_region src).
Proof.
  intros src content opener.
  apply (load_by_name_round_trip true true stale_words opener
           (one_file 3 (regular_file [])) 3 (regular_file []) src zeroed 24
           (mkWorld 0 (fun _ => None)) "a.npy" 4
           (set_file (mkWorld 0 (fun _ => None)) 4 (regular_file content))).
  - unfold savable, supported_width. cbn.
    repeat split; try lia; repeat constructor; lia.
  - reflexivity.
  - reflexivity.
  - vm_compute. discriminate.
  - right. vm_compute. reflexivity.
  - reflexivity.
  - reflexivity.
  - reflexivity.
  - reflexivity.
  - reflexivity.
  - lia.
  - reflexivity.
Defined.

(** ** An array built from memory and destroyed *)

Lemma free_array_closes (w : world) (a : npio_Array) :
  0 <= _fd a ->
  In (close_fd (_fd a)) (fst (fst (npio_free_array w a)))
  /\ fds (snd (npio_free_array w a)) (_fd a) = None.
Proof.
  destruct a as [maj mnr hl dt d sh sz fo le fp sg bw dat fd buf bsz hb cap
                 mm ml op].
  cbn [_fd]. intros Hfd. apply Z.leb_le in Hfd.
  pose proof (sys_close_closes w fd) as Hc.
  unfold npio_free_array.
  destruct dt as [s |], sh as [| x sh], hb as [h |];
    destruct (mm =? 0) eqn:Emm;
    do 3 (cbn -[Z.leb Z.eqb Z.lt sys_close]; rewrite ?Emm, ?Hfd);
    cbn -[Z.leb Z.eqb Z.lt sys_close];
    (split; [cbn [In]; tauto | exact Hc]).
Qed.

Lemma load_mem4_keeps_fd (cs hle : bool) (junk : nat -> Z) (w : world)
  (p : list ascii) (sz : Z) (a : npio_Array) (max_dim e : Z)
  (a' : npio_Array) (w' : world) :
  npio_load_mem4 cs hle junk w p sz a max_dim = Ret (e, a', w') ->
  _fd a' = _fd a.
Proof.
  unfold npio_load_mem4.
  destruct (npio_load_header_mem4 cs junk p sz a max_dim)
    as [[e1 a1] | |] eqn:Eh; cbn [bind]; try discriminate.
  apply load_header_mem4_keeps_handles in Eh. destruct Eh as (_ & E2 & _).
  destruct (negb (e1 =? 0)); [intros H; injection H as _ <- _; exact E2 |].
  unfold npio_load_data. intros H. apply load_data2_keeps_fd in H.
  congruence.
Qed.

(** X30: an [Array] constructed from a memory buffer never had a
    descriptor of its own, but its [_fd] is the [0] that
    [npio_init_array] wrote: whether the load succeeded or not, the
    destructor calls [close(0)], and descriptor 0 of the process is
    closed afterwards. *)
Theorem cxx_array_of_mem_closes_descriptor_0 (cs hle : bool)
  (junk : nat -> Z) (w : world) (p : list ascii) (sz max_dim : Z)
  (this : npio_Array) (arr : npio.Array) (w' : world) :
  npio.Array_of_mem cs hle junk w p sz max_dim this = Ret (arr, w') ->
  forall w2,
    In (close_fd 0) (fst (fst (npio.Array_destroy arr w2)))
    /\ fds (snd (npio.Array_destroy arr w2)) 0 = None.
Proof.
  unfold npio.Array_of_mem.
  destruct (npio_load_mem4 cs hle junk w p sz (npio_init_array hle this)
              max_dim) as [[[e a1] w1] | |] eqn:El; cbn [bind];
    try discriminate.
  apply load_mem4_keeps_fd in El. cbn [_fd npio_init_array] in El.
  intros H. injection H as <- _. intros w2.
  unfold npio.Array_destroy. cbn [npio.array].
  pose proof (free_array_closes w2 a1 ltac:(rewrite El; lia)) as Hc.
  rewrite El in Hc. exact Hc.
Qed.

Lemma cxx_array_of_mem_closes_descriptor_0_witness :
  exists arr w',
    npio.Array_of_mem true true stale_words
      (one_file 0 (pipe (chars "abcd")))
      (npy_v1 "{'descr': '<i1', 'fortran_order': False, 'shape': (4,), }" 12
         (chars "wxyz"))
      84 NPIO_DEFAULT_MAX_DIM zeroed
    = Ret (arr, w')
    /\ In (close_fd 0) (fst (fst (npio.Array_destroy arr w')))
    /\ fds (snd (npio.Array_destroy arr w')) 0 = None.
Proof.
  do 2 eexists. split; [vm_compute; reflexivity |].
  eapply (cxx_array_of_mem_closes_descriptor_0 true true stale_words
            (one_file 0 (pipe (chars "abcd")))
            (npy_v1 "{'descr': '<i1', 'fortran_order': False, 'shape': (4,), }"
               12 (chars "wxyz"))
            84 NPIO_DEFAULT_MAX_DIM zeroed).
  vm_compute. reflexivity.
Defined.
